(** * testbook-automation: the scraper core, the sanitizer and the link validator

    A shallow embedding of
      - [src/workflows/scrapper/scraper.js] (both variants found in the repository),
      - [src/workflows/scrapper/utils/sanitizer.js],
      - [src/workflows/scrapper/batch_scraper.js],
      - [scripts/validateLinks.js],
    together with the properties the specification states about them.

    Conventions.
    - A JavaScript string is a [string]: a sequence of code units, here the
      code units 0..255 (Latin-1); U+00A0 is ["160"], U+00AD is ["173"].
    - A JavaScript number is a [number]: the integers (exact, as [Z]), [NaN]
      and [Infinity]; the program computes no other number.
    - [null] and [undefined] are [None]. *)

From Stdlib Require Import String Ascii List ZArith Bool Lia.
Import ListNotations.
Local Open Scope string_scope.
Local Open Scope Z_scope.

(* ===================================================================== *)
(** * JavaScript strings and numbers *)
(* ===================================================================== *)

Module Js.

(** [\s] of a regular expression and the white space [String.prototype.trim]
    removes: TAB, LF, VT, FF, CR, SP and NBSP (the ones below U+0100). *)
Definition is_space (c : ascii) : bool :=
  let n := nat_of_ascii c in
  (((9 <=? n) && (n <=? 13)) || (n =? 32) || (n =? 160))%nat.

Definition is_digit (c : ascii) : bool :=
  let n := nat_of_ascii c in ((48 <=? n) && (n <=? 57))%nat.

Fixpoint trimStart (s : string) : string :=
  match s with
  | String c s' => if is_space c then trimStart s' else s
  | EmptyString => EmptyString
  end.

Fixpoint trimEnd (s : string) : string :=
  match s with
  | String c s' =>
      match trimEnd s' with
      | EmptyString => if is_space c then EmptyString else String c EmptyString
      | t => String c t
      end
  | EmptyString => EmptyString
  end.

(** [s.trim()] *)
Definition trim (s : string) : string := trimEnd (trimStart s).

Definition lower_char (c : ascii) : ascii :=
  let n := nat_of_ascii c in
  if (((65 <=? n) && (n <=? 90))
      || ((192 <=? n) && (n <=? 222) && negb (n =? 215)))%nat
  then ascii_of_nat (n + 32) else c.

(** [s.toLowerCase()] *)
Fixpoint toLowerCase (s : string) : string :=
  match s with
  | String c s' => String (lower_char c) (toLowerCase s')
  | EmptyString => EmptyString
  end.

(** [s.startsWith(p)] *)
Fixpoint startsWith (p s : string) : bool :=
  match p, s with
  | EmptyString, _ => true
  | String a p', String b s' => Ascii.eqb a b && startsWith p' s'
  | String _ _, EmptyString => false
  end.

(** [s.includes(p)] *)
Fixpoint includes (s p : string) : bool :=
  startsWith p s ||
  match s with
  | String _ s' => includes s' p
  | EmptyString => false
  end.

(** [s.slice(n)] *)
Fixpoint drop (n : nat) (s : string) : string :=
  match n, s with
  | S n', String _ s' => drop n' s'
  | _, _ => s
  end.

(** A string is truthy when it is not empty. *)
Definition truthy (s : string) : bool :=
  match s with EmptyString => false | _ => true end.

(** The numbers of the program. *)
Inductive number : Type :=
| NaN
| Infinity
| Int (z : Z).

(** [a <= b]; a comparison with [NaN] is false. *)
Definition num_le (a b : number) : bool :=
  match a, b with
  | NaN, _ | _, NaN => false
  | _, Infinity => true
  | Infinity, Int _ => false
  | Int x, Int y => x <=? y
  end.

Definition num_lt (a b : number) : bool :=
  match a, b with
  | NaN, _ | _, NaN => false
  | Infinity, _ => false
  | Int _, Infinity => true
  | Int x, Int y => x <? y
  end.

Definition num_ge (a b : number) : bool := num_le b a.
Definition num_gt (a b : number) : bool := num_lt b a.

Definition num_add (a b : number) : number :=
  match a, b with
  | NaN, _ | _, NaN => NaN
  | Infinity, _ | _, Infinity => Infinity
  | Int x, Int y => Int (x + y)
  end.

Fixpoint digits_value (acc : Z) (s : string) : Z :=
  match s with
  | String c s' =>
      if is_digit c
      then digits_value (10 * acc + Z.of_nat (nat_of_ascii c - 48)) s'
      else acc
  | EmptyString => acc
  end.

Definition leading_digit (s : string) : bool :=
  match s with String c _ => is_digit c | EmptyString => false end.

(** [parseInt(s, 10)]: white space, an optional sign, then the longest run of
    digits; [NaN] when there is no digit. *)
Definition parseInt (s : string) : number :=
  match trimStart s with
  | String "-" r => if leading_digit r then Int (- digits_value 0 r) else NaN
  | String "+" r => if leading_digit r then Int (digits_value 0 r) else NaN
  | r => if leading_digit r then Int (digits_value 0 r) else NaN
  end.

(** [s.match(/\d+/)]: the first maximal run of digits, [None] for [null]. *)
Fixpoint take_digits (s : string) : string :=
  match s with
  | String c s' => if is_digit c then String c (take_digits s') else EmptyString
  | EmptyString => EmptyString
  end.

Fixpoint match_digits (s : string) : option string :=
  match s with
  | String c s' => if is_digit c then Some (take_digits s) else match_digits s'
  | EmptyString => None
  end.

End Js.

Export Js.

(* ===================================================================== *)
(** * Tagging: [getTagForQuestion] *)
(* ===================================================================== *)

(** A block of statements either returns a value ([Some v]) or falls through
    to the statements that follow it ([None]). *)
Definition falls_through {A : Type} (block : option A) (rest : A) : A :=
  match block with
  | Some v => v
  | None => rest
  end.

Notation "'do' b ';;;' k" := (falls_through b k)
  (at level 10, b at level 200, k at level 200, only parsing).

(** [getTagForQuestion(sectionName, questionNumber)] of scraper.js.
    [sectionName] is a string or missing; [questionNumber] is a number, or
    [None] for a value whose [typeof] is not ['number']. *)
Definition getTagForQuestion (sectionName : option string)
    (questionNumber : option number) : option string :=
  match sectionName, questionNumber with
  | Some sectionName, Some questionNumber =>
      if negb (truthy sectionName) then None else
      let trimmedSection := trim sectionName in
      (* 1. Special override rules (highest priority) *)
      do (if (trimmedSection =? "Section I")%string then
            if num_ge questionNumber (Int 1) && num_le questionNumber (Int 30)
            then Some (Some "MATH")
            else if num_ge questionNumber (Int 31) && num_le questionNumber (Int 60)
            then Some (Some "GI")
            else None
          else None) ;;;
      do (if (trimmedSection =? "Section II")%string then
            if num_ge questionNumber (Int 1) && num_le questionNumber (Int 45)
            then Some (Some "ENG")
            else if num_ge questionNumber (Int 46) && num_le questionNumber (Int 70)
            then Some (Some "GK")
            else None
          else None) ;;;
      (* 2. Simplified general fallback rules *)
      let lowerCaseSection := toLowerCase trimmedSection in
      if includes lowerCaseSection "quantitative" || includes lowerCaseSection "quants"
      then Some "MATH"
      else if includes lowerCaseSection "intelligence" || includes lowerCaseSection "reasoning"
      then Some "GI"
      else if includes lowerCaseSection "english" then Some "ENG"
      else if includes lowerCaseSection "awareness" || includes lowerCaseSection "knowledge"
      then Some "GK"
      else if includes lowerCaseSection "computer" then Some "COMPUTER"
      else if includes lowerCaseSection "bengali" then Some "BENGALI"
      (* 3. No match found *)
      else None
  | _, _ => None
  end.

(** The same function as the second variant of scraper.js writes it. *)
Definition getTagForQuestion_fast (sectionName : option string)
    (questionNumber : option number) : option string :=
  match sectionName, questionNumber with
  | Some sectionName, Some questionNumber =>
      if negb (truthy sectionName) then None else
      let s := trim sectionName in
      do (if (s =? "Section I")%string then
            if num_ge questionNumber (Int 1) && num_le questionNumber (Int 30)
            then Some (Some "MATH")
            else if num_ge questionNumber (Int 31) && num_le questionNumber (Int 60)
            then Some (Some "GI")
            else None
          else None) ;;;
      do (if (s =? "Section II")%string then
            if num_ge questionNumber (Int 1) && num_le questionNumber (Int 45)
            then Some (Some "ENG")
            else if num_ge questionNumber (Int 46) && num_le questionNumber (Int 70)
            then Some (Some "GK")
            else None
          else None) ;;;
      let lc := toLowerCase s in
      if includes lc "quantitative" || includes lc "quants" then Some "MATH"
      else if includes lc "intelligence" || includes lc "reasoning" then Some "GI"
      else if includes lc "english" then Some "ENG"
      else if includes lc "awareness" || includes lc "knowledge" then Some "GK"
      else if includes lc "computer" then Some "COMPUTER"
      else if includes lc "bengali" then Some "BENGALI"
      else None
  | _, _ => None
  end.

(** The specification's resolver, written from its rules 1 to 4: the reserved
    labels with their number ranges, then an ordered table of keyword sets. *)
Definition reservedRules : list (string * Z * Z * string) :=
  [ ("Section I", 1, 30, "MATH"); ("Section I", 31, 60, "GI");
    ("Section II", 1, 45, "ENG"); ("Section II", 46, 70, "GK") ].

Definition keywordRules : list (list string * string) :=
  [ (["quantitative"; "quants"], "MATH");
    (["intelligence"; "reasoning"], "GI");
    (["english"], "ENG");
    (["awareness"; "knowledge"], "GK");
    (["computer"], "COMPUTER");
    (["bengali"], "BENGALI") ].

Definition in_range (q : number) (lo hi : Z) : bool :=
  match q with
  | Int z => (lo <=? z) && (z <=? hi)
  | _ => false
  end.

Definition reserved_tag (label : string) (q : number) : option string :=
  option_map snd
    (find (fun r => match r with
                    | (l, lo, hi, _) => (l =? label)%string && in_range q lo hi
                    end) reservedRules).

Definition keyword_tag (lowered : string) : option string :=
  option_map snd
    (find (fun r => existsb (includes lowered) (fst r)) keywordRules).

Definition resolveTag (sectionName : option string) (questionNumber : option number)
    : option string :=
  match sectionName, questionNumber with
  | Some s, Some q =>
      if truthy s then
        match reserved_tag (trim s) q with
        | Some t => Some t
        | None => keyword_tag (toLowerCase (trim s))
        end
      else None
  | _, _ => None
  end.

(* ===================================================================== *)
(** * The document tree and cheerio's selections *)
(* ===================================================================== *)

Module Dom.

Definition attrs := list (string * string).

Unset Elimination Schemes.
Inductive node : Type :=
| Text (data : string)
| Comment (data : string)
| Element (name : string) (attribs : attrs) (children : list node).
Set Elimination Schemes.

Definition forest := list node.

Definition is_element (n : node) : bool :=
  match n with Element _ _ _ => true | _ => false end.

Definition is_named (t : string) (n : node) : bool :=
  match n with Element name _ _ => (name =? t)%string | _ => false end.

(** [$(el).attr(k)] *)
Fixpoint attr (k : string) (a : attrs) : option string :=
  match a with
  | (k', v) :: a' => if (k' =? k)%string then Some v else attr k a'
  | [] => None
  end.

(** [$(el).removeAttr(k)] *)
Definition removeAttr (k : string) (a : attrs) : attrs :=
  filter (fun kv => negb (fst kv =? k)%string) a.

(** The white space that separates class names: TAB, LF, FF, CR and SP. *)
Definition is_html_space (c : ascii) : bool :=
  let n := nat_of_ascii c in
  ((n =? 9) || (n =? 10) || (n =? 12) || (n =? 13) || (n =? 32))%nat.

Fixpoint split_spaces (s : string) : list string :=
  match s with
  | String c s' =>
      if is_html_space c then EmptyString :: split_spaces s'
      else match split_spaces s' with
           | w :: ws => String c w :: ws
           | [] => [String c EmptyString]
           end
  | EmptyString => [EmptyString]
  end.

(** The class names of an element. *)
Definition classes (a : attrs) : list string :=
  match attr "class" a with
  | Some v => filter truthy (split_spaces v)
  | None => []
  end.

Definition hasClass (c : string) (a : attrs) : bool :=
  existsb (String.eqb c) (classes a).

(** ** Selectors

    The selectors the program uses are compound selectors ([span.math-tex],
    [script[type="math/tex"]], [*]), lists of them ([o\:p, span.ng-binding]),
    and, for the ones of selectors.js, possibly descendant chains. *)

Record compound : Type := {
  sel_name : option string;             (* [None] for [*] or no type selector *)
  sel_classes : list string;
  sel_attribs : list (string * string)  (* [[k="v"]] *)
}.

Record complex : Type := {
  subject : compound;
  within : list compound                (* ancestors required, nearest first *)
}.

Definition selector := list complex.

Definition matches_compound (c : compound) (name : string) (a : attrs) : bool :=
  match sel_name c with
  | Some t => (t =? name)%string
  | None => true
  end
  && forallb (fun cl => hasClass cl a) (sel_classes c)
  && forallb (fun kv => match attr (fst kv) a with
                        | Some v => (v =? snd kv)%string
                        | None => false
                        end) (sel_attribs c).

Fixpoint matches_within (cs : list compound) (up : list (string * attrs)) : bool :=
  match cs with
  | [] => true
  | c :: cs' =>
      (fix seek (up : list (string * attrs)) : bool :=
         match up with
         | [] => false
         | (n, a) :: up' =>
             if matches_compound c n a then matches_within cs' up' else seek up'
         end) up
  end.

(** An element of a document, with its place in it: the child indices from
    the root down to it, and its ancestors, nearest first. *)
Record elem : Type := {
  e_path : list nat;
  e_up : list (string * attrs);
  e_name : string;
  e_attribs : attrs;
  e_children : forest
}.

Definition matches (s : selector) (e : elem) : bool :=
  existsb (fun cx => matches_compound (subject cx) (e_name e) (e_attribs e)
                     && matches_within (within cx) (e_up e)) s.

Definition by_tag (t : string) : selector :=
  [ {| subject := {| sel_name := Some t; sel_classes := []; sel_attribs := [] |};
       within := [] |} ].

Definition by_tag_class (t c : string) : selector :=
  [ {| subject := {| sel_name := Some t; sel_classes := [c]; sel_attribs := [] |};
       within := [] |} ].

Definition by_class (c : string) : selector :=
  [ {| subject := {| sel_name := None; sel_classes := [c]; sel_attribs := [] |};
       within := [] |} ].

Definition by_tag_attr (t k v : string) : selector :=
  [ {| subject := {| sel_name := Some t; sel_classes := []; sel_attribs := [(k, v)] |};
       within := [] |} ].

(** ** The elements of a document, in document order *)

Fixpoint elements_of (p : list nat) (up : list (string * attrs)) (n : node)
    {struct n} : list elem :=
  match n with
  | Element nm a kids =>
      {| e_path := p; e_up := up; e_name := nm; e_attribs := a; e_children := kids |}
      :: (fix walk (i : nat) (l : list node) {struct l} : list elem :=
            match l with
            | [] => []
            | k :: l' => (elements_of (p ++ [i]) ((nm, a) :: up) k ++ walk (S i) l')%list
            end) 0%nat kids
  | _ => []
  end.

Fixpoint elements_from (p : list nat) (up : list (string * attrs)) (i : nat)
    (l : forest) : list elem :=
  match l with
  | [] => []
  | k :: l' => (elements_of (p ++ [i]) up k ++ elements_from p up (S i) l')%list
  end.

Definition elements (doc : forest) : list elem := elements_from [] [] 0 doc.

Definition path_eqb (p q : list nat) : bool :=
  if list_eq_dec Nat.eq_dec p q then true else false.

(** [p] is the place of a proper ancestor of the place [q]. *)
Fixpoint above (p q : list nat) : bool :=
  match p, q with
  | [], _ :: _ => true
  | i :: p', j :: q' => (i =? j)%nat && above p' q'
  | _, _ => false
  end.

Definition parent_path (p : list nat) : list nat := removelast p.

(** [.parent()] skips the root of the document: an element at the top level
    has no parent element. *)
Definition has_parent (e : elem) : bool := (2 <=? length (e_path e))%nat.

End Dom.

Export Dom.

(** ** Selections: the methods of cheerio the program calls *)

Module Cheerio.

Definition selection := list elem.

(** [$(selector)] *)
Definition select (doc : forest) (s : selector) : selection :=
  List.filter (matches s) (elements doc).

(** [X.find(selector)]: the descendants of the elements of [X] that match. *)
Definition find (doc : forest) (X : selection) (s : selector) : selection :=
  List.filter (fun e => matches s e && existsb (fun x => above (e_path x) (e_path e)) X)
              (elements doc).

(** [X.filter(selector)] *)
Definition filter (X : selection) (s : selector) : selection :=
  List.filter (matches s) X.

Fixpoint position (p : list nat) (l : list elem) : option nat :=
  match l with
  | [] => None
  | e :: l' => if path_eqb (e_path e) p then Some 0%nat
               else option_map S (position p l')
  end.

(** [Array.from(new Set(l))]: of equal members the first is kept. *)
Fixpoint removeDuplicates {A : Type} (same : A -> A -> bool) (l : list A) : list A :=
  match l with
  | [] => []
  | a :: l' => a :: List.filter (fun b => negb (same a b)) (removeDuplicates same l')
  end.

(** [X.parent()]: the parent of each element of [X], in the order of [X],
    each parent once; the root of the document is no parent.  A parent is
    given by its place. *)
Definition parent (X : selection) : list (list nat) :=
  removeDuplicates path_eqb
    (map (fun e => parent_path (e_path e)) (List.filter has_parent X)).

(** [P.children()]: the element children of the first parent, then those of
    the second, and so on. *)
Definition children (doc : forest) (P : list (list nat)) : selection :=
  removeDuplicates (fun a b => path_eqb (e_path a) (e_path b))
    (flat_map
       (fun p => List.filter
                   (fun e => has_parent e && path_eqb (parent_path (e_path e)) p)
                   (elements doc))
       P).

(** [X.index()] without argument: [indexOf] of the first element of [X] in
    [X.parent().children()]; -1 when it is not there. *)
Definition index (doc : forest) (X : selection) : Z :=
  match X with
  | [] => -1
  | x :: _ =>
      let haystack := children doc (parent X) in
      match position (e_path x) haystack with
      | Some i => Z.of_nat i
      | None => -1
      end
  end.

(** [textContent] *)
Fixpoint text_of (n : node) : string :=
  match n with
  | Text d => d
  | Comment _ => EmptyString
  | Element _ _ kids =>
      (fix cat (l : list node) : string :=
         match l with
         | [] => EmptyString
         | k :: l' => text_of k ++ cat l'
         end) kids
  end.

Definition text_forest (f : forest) : string :=
  fold_right (fun n acc => text_of n ++ acc) EmptyString f.

(** [X.text()] *)
Definition text (X : selection) : string :=
  fold_right (fun e acc => text_forest (e_children e) ++ acc) EmptyString X.

(** [X.children().length] of one element: its element children. *)
Definition element_children (f : forest) : list node := List.filter is_element f.

(** ** Rewriting a tree

    [$(sel).each((_, el) => $(el).replaceWith(...))] and [$(sel).remove()]
    visit the elements selected beforehand in document order.  The content
    that replaces an element is parsed afresh, so what was selected inside it
    is no longer part of the document when its turn comes: the outermost
    matches are rewritten, and the rewriting does not descend into what it
    has put in place. *)
Definition rule : Type :=
  list (string * attrs) -> string -> attrs -> forest -> option forest.

Fixpoint rewrite (f : rule) (up : list (string * attrs)) (n : node) {struct n} : forest :=
  match n with
  | Element nm a kids =>
      match f up nm a kids with
      | Some r => r
      | None => [Element nm a (flat_map (rewrite f ((nm, a) :: up)) kids)]
      end
  | other => [other]
  end.

Definition rewrite_forest (f : rule) (doc : forest) : forest :=
  flat_map (rewrite f []) doc.

(** [$(sel).removeAttr(...)]: every element selected has its attributes changed. *)
Fixpoint map_attribs (f : list (string * attrs) -> string -> attrs -> attrs)
    (up : list (string * attrs)) (n : node) {struct n} : node :=
  match n with
  | Element nm a kids => Element nm (f up nm a) (map (map_attribs f ((nm, a) :: up)) kids)
  | other => other
  end.

Definition as_elem (up : list (string * attrs)) (nm : string) (a : attrs) (kids : forest)
    : elem :=
  {| e_path := []; e_up := up; e_name := nm; e_attribs := a; e_children := kids |}.

(** [$(sel).remove()] *)
Definition remove_rule (s : selector) : rule :=
  fun up nm a kids => if matches s (as_elem up nm a kids) then Some [] else None.

Definition remove (s : selector) (doc : forest) : forest :=
  rewrite_forest (remove_rule s) doc.

End Cheerio.

(** The libraries the program calls.  [load] and [html] are cheerio's parser
    and serialiser under the given options; [minify] is html-minifier-terser
    with the options of sanitizer.js, whose promise is fulfilled with a string
    or rejected with an error. *)
Inductive error : Type :=
| TimeoutError (message : string)
| Error (message : string).

Inductive completion (A : Type) : Type :=
| Normal (a : A)
| Thrown (e : error).
Arguments Normal {A} a.
Arguments Thrown {A} e.

Record options : Type := { isDocument : bool; decodeEntities : bool }.

Class Libraries : Type := {
  load : options -> string -> forest;
  html : options -> forest -> string;
  minify : string -> completion string
}.

(* ===================================================================== *)
(** * sanitizer.js *)
(* ===================================================================== *)

Module Sanitizer.

(** ** The passes on the serialised string *)

(** HTML comments are removed: from an opener to the first closer after it. *)
Fixpoint comment_end (s : string) : option nat :=
  match s with
  | String _ s' => if startsWith "-->" s then Some 3%nat
                   else option_map S (comment_end s')
  | EmptyString => None
  end.

Fixpoint remove_comments (skip : nat) (s : string) : string :=
  match s with
  | String c s' =>
      match skip with
      | S k => remove_comments k s'
      | O =>
          if startsWith "<!--" s then
            match comment_end (drop 4 s) with
            | Some n => remove_comments (3 + n) s'
            | None => String c (remove_comments 0 s')
            end
          else String c (remove_comments 0 s')
      end
  | EmptyString => EmptyString
  end.

(** [s.replace(/pat/g, rep)] for a literal, non-empty pattern. *)
Fixpoint replace_literal (pat rep : string) (skip : nat) (s : string) : string :=
  match s with
  | String c s' =>
      match skip with
      | S k => replace_literal pat rep k s'
      | O =>
          if startsWith pat s
          then rep ++ replace_literal pat rep (String.length pat - 1) s'
          else String c (replace_literal pat rep 0 s')
      end
  | EmptyString => EmptyString
  end.

(** The automaton of the two groups of the source's regular expressions,
    both case-insensitive: one or more line breaks [<br>], [<br/>], [<br />],
    each followed by white space, and, with [lead], each preceded by white
    space.  It reads a string from its start and returns the number of line
    breaks matched and the length of the match. *)
Inductive br_state : Type :=
| Between     (* before a line break *)
| ExpectB     (* after [<] *)
| ExpectR     (* after [<b] *)
| InTag       (* after [<br], in [\s*] *)
| ExpectGt.   (* after [/] *)

Definition is_char (c : ascii) (lo up : string) : bool :=
  ((String c EmptyString) =? lo)%string || ((String c EmptyString) =? up)%string.

Fixpoint br_scan (lead : bool) (st : br_state) (units len pos : nat) (s : string)
    : nat * nat :=
  match s with
  | EmptyString => (units, len)
  | String c s' =>
      let next st' := br_scan lead st' units len (S pos) s' in
      let close := br_scan lead Between (S units) (S pos) (S pos) s' in
      match st with
      | Between =>
          if is_char c "<" "<" then next ExpectB
          else if is_space c then
            if lead then next Between
            else match units with
                 | O => (units, len)
                 | S _ => br_scan lead Between units (S pos) (S pos) s'
                 end
          else (units, len)
      | ExpectB => if is_char c "b" "B" then next ExpectR else (units, len)
      | ExpectR => if is_char c "r" "R" then next InTag else (units, len)
      | InTag =>
          if is_space c then next InTag
          else if is_char c "/" "/" then next ExpectGt
          else if is_char c ">" ">" then close
          else (units, len)
      | ExpectGt => if is_char c ">" ">" then close else (units, len)
      end
  end.

Definition br_run (lead : bool) (s : string) : nat * nat := br_scan lead Between 0 0 0 s.

(** Three or more line breaks in a row, with the white space after each,
    are replaced by two line breaks. *)
Fixpoint collapse_breaks (skip : nat) (s : string) : string :=
  match s with
  | String c s' =>
      match skip with
      | S k => collapse_breaks k s'
      | O =>
          let (units, len) := br_run false s in
          if (3 <=? units)%nat
          then "<br><br>" ++ collapse_breaks (len - 1) s'
          else String c (collapse_breaks 0 s')
      end
  | EmptyString => EmptyString
  end.

(** Leading and trailing line breaks are removed.  The first alternative of
    the regular expression can only match at the start of the string; the
    second matches at the first place from which line breaks run to the end
    of the string. *)
Definition strip_leading_breaks (s : string) : string :=
  let (units, len) := br_run true s in
  match units with
  | O => s
  | S _ => drop len s
  end.

Fixpoint strip_trailing_breaks (s : string) : string :=
  match s with
  | String c s' =>
      let (units, len) := br_run false s in
      if (1 <=? units)%nat && (len =? String.length s)%nat then EmptyString
      else String c (strip_trailing_breaks s')
  | EmptyString => EmptyString
  end.

Definition soft_hyphen : ascii := ascii_of_nat 173.

Fixpoint remove_soft_hyphens (s : string) : string :=
  match s with
  | String c s' => if Ascii.eqb c soft_hyphen then remove_soft_hyphens s'
                   else String c (remove_soft_hyphens s')
  | EmptyString => EmptyString
  end.

(** The five [replace] calls on [processedHtml], in the order of the source. *)
Definition string_passes (processedHtml : string) : string :=
  let processedHtml := remove_comments 0 processedHtml in
  let processedHtml := replace_literal "&nbsp;" " " 0 processedHtml in
  let processedHtml := remove_soft_hyphens processedHtml in
  let processedHtml := collapse_breaks 0 processedHtml in
  strip_trailing_breaks (strip_leading_breaks processedHtml).

(** ** The passes on the tree *)

Section Passes.
Context {L : Libraries}.

(** [cheerio.load(htmlString, { decodeEntities: false }, false)] *)
Definition fragment : options := {| isDocument := false; decodeEntities := false |}.

(** [$(el).replaceWith(content)] with a string: the string is parsed with the
    options of the document, and the nodes take the place of the element. *)
Definition parsed (content : string) : forest := load fragment content.

(** [$(el).html()] of an element with the children [kids]. *)
Definition inner_html (kids : forest) : string := html fragment kids.

Definition is_a (s : selector) up nm a kids : bool :=
  matches s (Cheerio.as_elem up nm a kids).

(** [$('*').removeAttr('style')] *)
Definition strip_style (up : list (string * attrs)) (nm : string) (a : attrs) : attrs :=
  removeAttr "style" a.

Definition strip_styles (doc : forest) : forest :=
  map (Cheerio.map_attribs strip_style []) doc.

(** [$(sel).each((_, el) => $(el).replaceWith($(el).html()))] *)
Definition unwrap_rule (s : selector) : Cheerio.rule :=
  fun up nm a kids =>
    if is_a s up nm a kids then Some (parsed (inner_html kids)) else None.

Definition unwrap (s : selector) (doc : forest) : forest :=
  Cheerio.rewrite_forest (unwrap_rule s) doc.

(** [/^\d+$/.test(t)] *)
Fixpoint all_digits (t : string) : bool :=
  match t with
  | String c t' => is_digit c && match t' with EmptyString => true | _ => all_digits t' end
  | EmptyString => false
  end.

(** A span whose trimmed text is digits only and which has no element child
    becomes a [sup] with the same content. *)
Definition digit_span_rule : Cheerio.rule :=
  fun up nm a kids =>
    if is_a (by_tag "span") up nm a kids
       && all_digits (trim (Cheerio.text_forest kids))
       && (length (Cheerio.element_children kids) =? 0)%nat
    then Some (parsed ("<sup>" ++ inner_html kids ++ "</sup>"))
    else None.

Definition digit_spans (doc : forest) : forest :=
  Cheerio.rewrite_forest digit_span_rule doc.

(** A MathJax script becomes its LaTeX source between [\(] and [\)]. *)
Definition mathjax_script_rule : Cheerio.rule :=
  fun up nm a kids =>
    if is_a (by_tag_attr "script" "type" "math/tex") up nm a kids then
      let latex := inner_html kids in
      if truthy latex && truthy (trim latex)
      then Some (parsed ("\(" ++ trim latex ++ "\)"))
      else None
    else None.

Definition mathjax_scripts (doc : forest) : forest :=
  Cheerio.rewrite_forest mathjax_script_rule doc.

Definition decorative (src : string) : bool :=
  includes src "lms_creative_elements/key-point-image.png"
  || includes src "lms_creative_elements/additional-information-image.png".

(** Decorative images are removed. *)
Definition decorative_image_rule : Cheerio.rule :=
  fun up nm a kids =>
    if is_a (by_tag "img") up nm a kids then
      let src := match attr "src" a with Some v => v | None => EmptyString end in
      if decorative src then Some [] else None
    else None.

Definition decorative_images (doc : forest) : forest :=
  Cheerio.rewrite_forest decorative_image_rule doc.

(** A paragraph becomes its content followed by a line break; an empty
    paragraph is removed. *)
Definition paragraph_rule : Cheerio.rule :=
  fun up nm a kids =>
    if is_a (by_tag "p") up nm a kids then
      let innerHtml := inner_html kids in
      if truthy innerHtml && negb (trim innerHtml =? "")%string
      then Some (parsed (innerHtml ++ "<br>"))
      else Some []
    else None.

Definition unwrap_paragraphs (doc : forest) : forest :=
  Cheerio.rewrite_forest paragraph_rule doc.

(** [$('table').removeAttr('cellpadding').removeAttr('cellspacing')] *)
Definition strip_table (up : list (string * attrs)) (nm : string) (a : attrs) : attrs :=
  if (nm =? "table")%string
  then removeAttr "cellspacing" (removeAttr "cellpadding" a)
  else a.

Definition table_attributes (doc : forest) : forest :=
  map (Cheerio.map_attribs strip_table []) doc.

(** [$('table').find('br').remove()] *)
Definition break_in_table_rule : Cheerio.rule :=
  fun up nm a kids =>
    if (nm =? "br")%string && existsb (fun x => (fst x =? "table")%string) up
    then Some [] else None.

Definition breaks_in_tables (doc : forest) : forest :=
  Cheerio.rewrite_forest break_in_table_rule doc.

(** The loops over [prev()] and [next()], which step over text and comments
    from one element to the next: among the children of one node, the line
    breaks that follow a table, up to the next element that is no line break,
    are removed, and likewise those that precede it. *)
Fixpoint breaks_after (after_table : bool) (l : forest) : forest :=
  match l with
  | [] => []
  | Element nm a kids :: l' =>
      if (nm =? "br")%string && after_table then breaks_after true l'
      else Element nm a kids :: breaks_after (nm =? "table")%string l'
  | n :: l' => n :: breaks_after after_table l'
  end.

Definition breaks_around (l : forest) : forest :=
  rev (breaks_after false (rev (breaks_after false l))).

Fixpoint breaks_around_tables_node (n : node) : node :=
  match n with
  | Element nm a kids => Element nm a (breaks_around (map breaks_around_tables_node kids))
  | other => other
  end.

Definition breaks_around_tables (doc : forest) : forest :=
  breaks_around (map breaks_around_tables_node doc).

Definition junk : selector := (by_tag "o:p" ++ by_tag_class "span" "ng-binding")%list.

Definition mathjax_output : selector :=
  (by_class "MathJax" ++ by_class "MathJax_Preview" ++ by_class "MJX_Assistive_MathML")%list.

(** The manipulations of the tree, in the order of the source. *)
Definition dom_passes (doc : forest) : forest :=
  let doc := strip_styles doc in
  let doc := unwrap (by_tag "font") doc in
  let doc := unwrap (by_tag_class "span" "math-tex") doc in
  let doc := Cheerio.remove junk doc in
  let doc := digit_spans doc in
  let doc := mathjax_scripts doc in
  let doc := Cheerio.remove mathjax_output doc in
  let doc := decorative_images doc in
  let doc := unwrap_paragraphs doc in
  let doc := table_attributes doc in
  let doc := breaks_in_tables doc in
  breaks_around_tables doc.

(** ** [minifyHtml] and [transformAndSanitizeHtml] *)

Definition try_catch {A : Type} (body : completion A) (handler : error -> completion A)
    : completion A :=
  match body with
  | Normal a => Normal a
  | Thrown e => handler e
  end.

Definition bind {A B : Type} (c : completion A) (k : A -> completion B) : completion B :=
  match c with
  | Normal a => k a
  | Thrown e => Thrown e
  end.

Definition minifyHtml (htmlString : string) : completion string :=
  if negb (truthy htmlString) then Normal htmlString else
  try_catch (minify htmlString)
            (fun error => (* console.warn *) Normal htmlString).

Definition transformAndSanitizeHtml (htmlString : option string) : completion string :=
  match htmlString with
  | None => Normal EmptyString
  | Some htmlString =>
      if negb (truthy htmlString) then Normal EmptyString else
      let doc := load fragment htmlString in
      let doc := dom_passes doc in
      let processedHtml := html fragment doc in
      let processedHtml := string_passes processedHtml in
      bind (minifyHtml processedHtml) (fun minifiedHtml =>
      Normal (trim minifiedHtml))
  end.

End Passes.

End Sanitizer.

(* ===================================================================== *)
(** * A reference instance of the libraries *)
(* ===================================================================== *)

(** The examples below run the program on markup.  They use this instance
    of [Libraries]: a parser and a serialiser for plain, well-nested markup
    (elements with attributes, void elements, comments, text without
    character references), on which they agree with cheerio, and a minifier
    that finds nothing to remove.  In document mode a fragment without an
    [html] element is wrapped in [html], [head] and [body]. *)
Module Reference.

Inductive token : Type :=
| TText (data : string)
| TComment (data : string)
| TOpen (name : string) (attribs : attrs) (closed : bool)
| TClose (name : string).

Fixpoint rev_append (s acc : string) : string :=
  match s with
  | String c s' => rev_append s' (String c acc)
  | EmptyString => acc
  end.

Definition rev_string (s : string) : string := rev_append s EmptyString.

Definition quote : ascii := ascii_of_nat 34.
Definition apostrophe : ascii := ascii_of_nat 39.

Inductive attr_mode : Type :=
| ASkip
| AName (n : string)
| AEq (n : string)
| AQuoted (n : string) (q : ascii) (v : string)
| ABare (n v : string).

(** The attributes of a start tag; names and values are gathered in reverse. *)
Fixpoint parse_attrs (m : attr_mode) (s : string) : attrs :=
  match s with
  | EmptyString =>
      match m with
      | ASkip => []
      | AName n => [(rev_string n, EmptyString)]
      | AEq n => [(n, EmptyString)]
      | AQuoted n _ v | ABare n v => [(n, rev_string v)]
      end
  | String c s' =>
      match m with
      | ASkip =>
          if is_space c then parse_attrs ASkip s'
          else parse_attrs (AName (String c EmptyString)) s'
      | AName n =>
          if Ascii.eqb c "=" then parse_attrs (AEq (rev_string n)) s'
          else if is_space c then (rev_string n, EmptyString) :: parse_attrs ASkip s'
          else parse_attrs (AName (String c n)) s'
      | AEq n =>
          if Ascii.eqb c quote || Ascii.eqb c apostrophe
          then parse_attrs (AQuoted n c EmptyString) s'
          else if is_space c then (n, EmptyString) :: parse_attrs ASkip s'
          else parse_attrs (ABare n (String c EmptyString)) s'
      | AQuoted n q v =>
          if Ascii.eqb c q then (n, rev_string v) :: parse_attrs ASkip s'
          else parse_attrs (AQuoted n q (String c v)) s'
      | ABare n v =>
          if is_space c then (n, rev_string v) :: parse_attrs ASkip s'
          else parse_attrs (ABare n (String c v)) s'
      end
  end.

Fixpoint tag_name (s : string) : string * string :=
  match s with
  | String c s' =>
      if is_space c then (EmptyString, s')
      else let (n, r) := tag_name s' in (String c n, r)
  | EmptyString => (EmptyString, EmptyString)
  end.

(** The token of the text between [<] and [>], given in reverse. *)
Definition tag_token (reversed : string) : token :=
  match rev_string reversed with
  | String "/" n => TClose (toLowerCase (trim n))
  | _ =>
      let (closed, body) :=
        match reversed with
        | String "/" r => (true, rev_string r)
        | _ => (false, rev_string reversed)
        end in
      let (n, r) := tag_name body in
      TOpen (toLowerCase n) (parse_attrs ASkip r) closed
  end.

Definition text_token (reversed : string) : list token :=
  match reversed with
  | EmptyString => []
  | _ => [TText (rev_string reversed)]
  end.

Inductive lex_mode : Type := LText | LTag | LComment.

Fixpoint lex (m : lex_mode) (buf : string) (s : string) : list token :=
  match s with
  | EmptyString =>
      match m with
      | LText => text_token buf
      | LTag => text_token (buf ++ "<")
      | LComment => [TComment (rev_string buf)]
      end
  | String c s' =>
      match m with
      | LText =>
          if Ascii.eqb c "<" then (text_token buf ++ lex LTag EmptyString s')%list
          else lex LText (String c buf) s'
      | LTag =>
          if Ascii.eqb c ">" then tag_token buf :: lex LText EmptyString s'
          else if (String c buf =? "--!")%string then lex LComment EmptyString s'
          else lex LTag (String c buf) s'
      | LComment =>
          if Ascii.eqb c ">" && startsWith "--" buf
          then TComment (rev_string (drop 2 buf)) :: lex LText EmptyString s'
          else lex LComment (String c buf) s'
      end
  end.

Definition void (n : string) : bool :=
  existsb (String.eqb n)
    ["br"; "img"; "hr"; "input"; "meta"; "link"; "area"; "base"; "col";
     "embed"; "source"; "track"; "wbr"].

(** An open element: its name, its attributes, its children so far, last first. *)
Definition frame : Type := string * attrs * list node.

Definition add (n : node) (st : list frame) : list frame :=
  match st with
  | (nm, a, ch) :: r => (nm, a, n :: ch) :: r
  | [] => []
  end.

Definition with_pending (pending : option node) (ch : list node) : list node :=
  match pending with
  | Some n => n :: ch
  | None => ch
  end.

(** Close the open elements down to the nearest one with the given name. *)
Fixpoint close_to (name : string) (pending : option node) (st : list frame)
    : list frame :=
  match st with
  | [] => []
  | (nm, a, ch) :: r =>
      let e := Element nm a (rev (with_pending pending ch)) in
      if (nm =? name)%string then add e r else close_to name (Some e) r
  end.

Fixpoint close_all (pending : option node) (st : list frame) : forest :=
  match st with
  | [] => []
  | [(_, _, ch)] => rev (with_pending pending ch)
  | (nm, a, ch) :: r => close_all (Some (Element nm a (rev (with_pending pending ch)))) r
  end.

(** The open elements, innermost first; the last frame is the root. *)
Fixpoint build (st : list frame) (ts : list token) : forest :=
  match ts with
  | [] => close_all None st
  | TText d :: ts' => build (add (Text d) st) ts'
  | TComment d :: ts' => build (add (Comment d) st) ts'
  | TOpen n a closed :: ts' =>
      if closed || void n then build (add (Element n a []) st) ts'
      else build ((n, a, []) :: st) ts'
  | TClose n :: ts' =>
      if existsb (fun f => (fst (fst f) =? n)%string) (removelast st)
      then build (close_to n None st) ts'
      else build st ts'
  end.

Definition parse (s : string) : forest :=
  build [(EmptyString, [], [])] (lex LText EmptyString s).

Definition parse_document (s : string) : forest :=
  let f := parse s in
  if existsb (is_named "html") f then f
  else [Element "html" [] [Element "head" [] []; Element "body" [] f]].

Definition render_attr (kv : string * string) : string :=
  " " ++ fst kv ++ "=" ++ String quote (snd kv ++ String quote EmptyString).

Fixpoint render (n : node) : string :=
  match n with
  | Text d => d
  | Comment d => "<!--" ++ d ++ "-->"
  | Element nm a kids =>
      "<" ++ nm ++ String.concat EmptyString (map render_attr a) ++ ">" ++
      (if void nm then EmptyString
       else (fix cat (l : list node) : string :=
               match l with
               | [] => EmptyString
               | k :: l' => render k ++ cat l'
               end) kids ++ "</" ++ nm ++ ">")
  end.

Definition render_forest (f : forest) : string :=
  String.concat EmptyString (map render f).

#[export] Instance libraries : Libraries := {
  load o s := if isDocument o then parse_document s else parse s;
  html _ f := render_forest f;
  minify s := Normal s
}.

End Reference.

(* ===================================================================== *)
(** * scraper.js: extracting one question *)
(* ===================================================================== *)

(** [selectors.parser] of utils/selectors.js.  The file is not part of the
    sources at hand, so its selectors are parameters. *)
Record ParserSelectors : Type := {
  activeQuestionContainer : selector;
  questionNumber : selector;
  sectionName : selector;
  comprehension : selector;
  questionBody : selector;
  solution : selector;
  optionContainer : selector;
  optionText : selector;
  correctOptionClass : string;
  examName : selector
}.

(** The object a page yields. *)
Record QuestionRecord : Type := {
  noteId : number;
  SL : number;
  Question : string;
  OP1 : option string;
  OP2 : option string;
  OP3 : option string;
  OP4 : option string;
  Answer : Z;
  Solution : string;
  Tags : list string
}.

Section Extraction.
Context {L : Libraries}.
Variable s : ParserSelectors.

Import Sanitizer.

(** [cheerio.load(html)] *)
Definition document : options := {| isDocument := true; decodeEntities := true |}.

(** [X.html()]: the content of the first element, [None] when there is none. *)
Definition html_of (X : Cheerio.selection) : option string :=
  match X with
  | e :: _ => Some (html document (e_children e))
  | [] => None
  end.

(** [X.clone()] followed by [.find('span.hidden-xs').remove()] and [.text()]. *)
Definition text_without_hidden (X : Cheerio.selection) : string :=
  fold_right
    (fun e acc =>
       Cheerio.text_forest
         (flat_map (Cheerio.rewrite
                      (Cheerio.remove_rule (by_tag_class "span" "hidden-xs"))
                      [(e_name e, e_attribs e)])
                   (e_children e)) ++ acc)
    EmptyString X.

(** [await Promise.all(l.map(f))] *)
Fixpoint all {A B : Type} (f : A -> completion B) (l : list A) : completion (list B) :=
  match l with
  | [] => Normal []
  | x :: l' => bind (f x) (fun y => bind (all f l') (fun ys => Normal (y :: ys)))
  end.

(** [l[i] || null] *)
Definition or_null (l : list string) (i : nat) : option string :=
  match nth_error l i with
  | Some v => if truthy v then Some v else None
  | None => None
  end.

(** [scrapeSingleQuestionPage(html, fallbackCounter, log, noteId, serialNumber)]
    of scraper.js.  The calls on [log] write to the console and to the log
    file; they are left out.  [None] is [null]. *)
Definition scrapeSingleQuestionPage (page : string) (fallbackCounter : number)
    (noteId serialNumber : number) : option QuestionRecord :=
  let body : completion (option QuestionRecord) :=
    let doc := load document page in
    let container := Cheerio.select doc (activeQuestionContainer s) in
    if (length container =? 0)%nat then Normal None else
    let questionNumberElement := Cheerio.find doc container (questionNumber s) in
    let slText := trim (text_without_hidden questionNumberElement) in
    let slMatch := match_digits slText in
    let questionNumberForTagging :=
      match slMatch with
      | Some m => parseInt m
      | None => fallbackCounter
      end in
    let sectionName := trim (Cheerio.text (Cheerio.select doc (sectionName s))) in
    let tag := getTagForQuestion (Some sectionName) (Some questionNumberForTagging) in
    let rawComprehension :=
      option_map trim (html_of (Cheerio.find doc container (comprehension s))) in
    let rawQuestionBody :=
      option_map trim (html_of (Cheerio.find doc container (questionBody s))) in
    let rawSolution :=
      option_map trim (html_of (Cheerio.find doc container (solution s))) in
    let options := Cheerio.find doc container (optionContainer s) in
    let rawOptions :=
      map (fun element => option_map trim (html_of (Cheerio.find doc [element] (optionText s))))
          options in
    bind (transformAndSanitizeHtml rawComprehension) (fun sanitizedComprehension =>
    bind (transformAndSanitizeHtml rawQuestionBody) (fun sanitizedQuestionBody =>
    bind (transformAndSanitizeHtml rawSolution) (fun sanitizedSolution =>
    bind (all transformAndSanitizeHtml rawOptions) (fun sanitizedOptions =>
    let finalQuestionHtml :=
      if truthy sanitizedComprehension
      then sanitizedComprehension ++ "<br><br><strong><u>Question</u></strong><br>"
           ++ sanitizedQuestionBody
      else sanitizedQuestionBody in
    let correctOption := Cheerio.filter options (by_class (correctOptionClass s)) in
    let correctAnswerIndex := Cheerio.index doc correctOption in
    if negb (truthy finalQuestionHtml) || (length sanitizedOptions =? 0)%nat
    then Normal None
    else
      Normal (Some {|
        noteId := noteId;
        SL := serialNumber;
        Question := finalQuestionHtml;
        OP1 := or_null sanitizedOptions 0;
        OP2 := or_null sanitizedOptions 1;
        OP3 := or_null sanitizedOptions 2;
        OP4 := or_null sanitizedOptions 3;
        Answer := if negb (correctAnswerIndex =? -1) then correctAnswerIndex + 1 else 0;
        Solution := sanitizedSolution;
        Tags := match tag with Some t => [t] | None => [] end
      |}))))) in
  match body with
  | Normal r => r
  | Thrown e => (* log.error *) None
  end.

(** The same function in the second variant of scraper.js. *)
Definition scrapeSingleQuestionPage_fast (page : string) (fallbackCounter : number)
    (noteId serialNumber : number) : option QuestionRecord :=
  let body : completion (option QuestionRecord) :=
    let doc := load document page in
    let container := Cheerio.select doc (activeQuestionContainer s) in
    if (length container =? 0)%nat then Normal None else
    let numEl := Cheerio.find doc container (questionNumber s) in
    let slText := trim (text_without_hidden numEl) in
    let qNum :=
      match match_digits slText with
      | Some _ => match match_digits slText with
                  | Some m => parseInt m
                  | None => NaN (* [parseInt(undefined)] *)
                  end
      | None => fallbackCounter
      end in
    let sectionName := trim (Cheerio.text (Cheerio.select doc (sectionName s))) in
    let tag := getTagForQuestion_fast (Some sectionName) (Some qNum) in
    let rawComprehension :=
      option_map trim (html_of (Cheerio.find doc container (comprehension s))) in
    let rawQuestionBody :=
      option_map trim (html_of (Cheerio.find doc container (questionBody s))) in
    let rawSolution :=
      option_map trim (html_of (Cheerio.find doc container (solution s))) in
    let rawOptions :=
      map (fun el => option_map trim (html_of (Cheerio.find doc [el] (optionText s))))
          (Cheerio.find doc container (optionContainer s)) in
    bind (transformAndSanitizeHtml rawComprehension) (fun sanitizedComprehension =>
    bind (transformAndSanitizeHtml rawQuestionBody) (fun sanitizedQuestionBody =>
    bind (transformAndSanitizeHtml rawSolution) (fun sanitizedSolution =>
    bind (all transformAndSanitizeHtml rawOptions) (fun sanitizedOptions =>
    let finalQuestionHtml :=
      if truthy sanitizedComprehension
      then sanitizedComprehension ++ "<br><br><strong><u>Question</u></strong><br>"
           ++ sanitizedQuestionBody
      else sanitizedQuestionBody in
    let correctAnswerIndex :=
      Cheerio.index doc
        (Cheerio.filter (Cheerio.find doc container (optionContainer s))
                        (by_class (correctOptionClass s))) in
    if negb (truthy finalQuestionHtml) || (length sanitizedOptions =? 0)%nat
    then Normal None
    else
      Normal (Some {|
        noteId := noteId; SL := serialNumber; Question := finalQuestionHtml;
        OP1 := or_null sanitizedOptions 0; OP2 := or_null sanitizedOptions 1;
        OP3 := or_null sanitizedOptions 2; OP4 := or_null sanitizedOptions 3;
        Answer := if negb (correctAnswerIndex =? -1) then correctAnswerIndex + 1 else 0;
        Solution := sanitizedSolution;
        Tags := match tag with Some t => [t] | None => [] end
      |}))))) in
  match body with
  | Normal r => r
  | Thrown e => None
  end.

End Extraction.

(* ===================================================================== *)
(** * scraper.js: the session, [main] *)
(* ===================================================================== *)

Module Session.

(** ** The remote browser and the site, as [main] observes them *)

Inductive button : Type := Solutions | ViewSolution | Next.
Inductive awaited : Type := ExamName | SolutionsButton.
Inductive resource : Type := Tab | Browser | LogSink.

(** The state of the quiz interface after some clicks on Next. *)
Record QuizPage : Type := {
  snapshot : string;   (* [document.documentElement.outerHTML], solution shown *)
  hasNext : bool;      (* the Next button is in the page *)
  hasViewSolution : bool;  (* the View Solution button is in the page *)
  saysLast : bool;     (* the page says that the last question was reached *)
  detached : bool      (* the tab no longer answers: [Runtime.evaluate] rejects *)
}.

Record Site : Type := {
  reachable : bool;                 (* a browser listens on the debugging port *)
  navigation : nat -> bool;         (* the i-th [Page.navigate] succeeds *)
  appears : awaited -> option N;    (* ms after which the element is in the page *)
  analysisPage : string;            (* the analysis page, once rendered *)
  quiz : nat -> QuizPage            (* the quiz after n clicks on Next *)
}.

Inductive event : Type :=
| Opened (r : resource)
| Closed (r : resource)
| Navigated (attempt : nat) (ok : bool)
| Clicked (b : button)               (* a click on [b] was sent to the page *)
| Snapshot (position : nat)          (* the page was read at this position *)
| AskedNext (answer : bool)
| AskedLast (answer : bool)
| Saved (file : string) (data : list QuestionRecord).

(** A connection or stream held in a variable of [main]. *)
Inductive handle : Type := Live | Released.

(** The variables of [main] and the position of the browser in the quiz. *)
Record Sys : Type := {
  position : nat;
  browserClient : option handle;
  tabClient : option handle;
  logger : option handle;
  allQuestionsData : list QuestionRecord;
  questionCounter : number;
  noteIdCounter : number;
  serialNumberCounter : number;
  events : list event              (* oldest first *)
}.

Definition start : Sys := {|
  position := 0; browserClient := None; tabClient := None; logger := None;
  allQuestionsData := []; questionCounter := NaN; noteIdCounter := NaN;
  serialNumberCounter := NaN; events := []
|}.

(** ** Computations: a value, an exception, [process.exit], or no end *)

Inductive outcome (A : Type) : Type :=
| Returns (a : A)
| Throws (e : error)
| Exits (code : Z)
| Diverges.
Arguments Returns {A} a.
Arguments Throws {A} e.
Arguments Exits {A} code.
Arguments Diverges {A}.

Definition M (A : Type) : Type := Sys -> outcome A * Sys.

Definition ret {A : Type} (a : A) : M A := fun s => (Returns a, s).

Definition bind {A B : Type} (m : M A) (k : A -> M B) : M B :=
  fun s =>
    match m s with
    | (Returns a, s') => k a s'
    | (Throws e, s') => (Throws e, s')
    | (Exits c, s') => (Exits c, s')
    | (Diverges, s') => (Diverges, s')
    end.

Declare Scope session_scope.
Delimit Scope session_scope with session.
Notation "x <- m ;; k" := (bind m (fun x => k))
  (at level 61, m at next level, right associativity) : session_scope.
Notation "m ;; k" := (bind m (fun _ => k))
  (at level 61, right associativity) : session_scope.
Local Open Scope session_scope.

Definition throw {A : Type} (e : error) : M A := fun s => (Throws e, s).

(** [process.exit(code)]: the process ends here. *)
Definition process_exit {A : Type} (code : Z) : M A := fun s => (Exits code, s).

Definition diverge {A : Type} : M A := fun s => (Diverges, s).

(** [try { body } catch (err) { handler }] *)
Definition try_catch {A : Type} (body : M A) (handler : error -> M A) : M A :=
  fun s =>
    match body s with
    | (Throws e, s') => handler e s'
    | r => r
    end.

(** [try { body } finally { finalizer }]: the finalizer runs when the body
    completes or throws; it has no turn once the process has exited. *)
Definition try_finally {A : Type} (body : M A) (finalizer : M unit) : M A :=
  fun s =>
    match body s with
    | (Returns a, s') => (finalizer ;; ret a) s'
    | (Throws e, s') => (finalizer ;; throw e) s'
    | r => r
    end.

Definition get : M Sys := fun s => (Returns s, s).
Definition modify (f : Sys -> Sys) : M unit := fun s => (Returns tt, f s).

Definition emit (e : event) : M unit :=
  modify (fun s => {|
    position := position s; browserClient := browserClient s;
    tabClient := tabClient s; logger := logger s;
    allQuestionsData := allQuestionsData s; questionCounter := questionCounter s;
    noteIdCounter := noteIdCounter s; serialNumberCounter := serialNumberCounter s;
    events := (events s ++ [e])%list |}).

Definition set_handle (r : resource) (h : handle) : M unit :=
  modify (fun s => {|
    position := position s;
    browserClient := match r with Browser => Some h | _ => browserClient s end;
    tabClient := match r with Tab => Some h | _ => tabClient s end;
    logger := match r with LogSink => Some h | _ => logger s end;
    allQuestionsData := allQuestionsData s; questionCounter := questionCounter s;
    noteIdCounter := noteIdCounter s; serialNumberCounter := serialNumberCounter s;
    events := events s |}).

Definition handle_of (r : resource) (s : Sys) : option handle :=
  match r with
  | Browser => browserClient s
  | Tab => tabClient s
  | LogSink => logger s
  end.

Definition acquire (r : resource) : M unit := set_handle r Live ;; emit (Opened r).

(** [if (x) x.close()] *)
Definition close_if_defined (r : resource) : M unit :=
  s <- get ;;
  match handle_of r s with
  | Some _ => set_handle r Released ;; emit (Closed r)
  | None => ret tt
  end.

Definition set_position (n : nat) : M unit :=
  modify (fun s => {|
    position := n; browserClient := browserClient s;
    tabClient := tabClient s; logger := logger s;
    allQuestionsData := allQuestionsData s; questionCounter := questionCounter s;
    noteIdCounter := noteIdCounter s; serialNumberCounter := serialNumberCounter s;
    events := events s |}).

Definition set_locals (data : list QuestionRecord) (q n sl : number) : M unit :=
  modify (fun s => {|
    position := position s; browserClient := browserClient s;
    tabClient := tabClient s; logger := logger s;
    allQuestionsData := data; questionCounter := q;
    noteIdCounter := n; serialNumberCounter := sl;
    events := events s |}).

(** ** [main] *)

(** The command line, as [commander] hands it over. *)
Record Options : Type := {
  link : option string;
  count : option string;
  tag : option string;
  skip : string            (* ['0'] when the flag is absent *)
}.

Section Main.
Context {L : Libraries}.
Variable sel : ParserSelectors.
Variable site : Site.

(** [Runtime.evaluate] on the quiz interface. *)
Definition evaluate {A : Type} (read : QuizPage -> A) : M A :=
  s <- get ;;
  let page := quiz site (position s) in
  if detached page then throw (Error "Runtime.evaluate: the tab is gone")
  else ret (read page).

Definition present (b : button) (page : QuizPage) : bool :=
  match b with
  | Solutions => true        (* [main] has waited for it *)
  | ViewSolution => hasViewSolution page
  | Next => hasNext page
  end.

(** The page after a click: Next moves the quiz on. *)
Definition clicked (b : button) : M unit :=
  s <- get ;;
  match b with
  | Next => set_position (S (position s))
  | _ => ret tt
  end ;;
  emit (Clicked b).

(** [document.querySelector(...).click()], evaluated in the page: when the
    element is missing the exception stays in the page and nothing is
    clicked. *)
Definition click (b : button) : M unit :=
  found <- match b with
           | Solutions => ret true
           | _ => evaluate (present b)
           end ;;
  if found then clicked b else emit (Clicked b).

(** [humanClick] of the second variant: it throws when the element is
    missing; the movements of the mouse and the pauses are left out. *)
Definition humanClick (b : button) : M unit :=
  found <- match b with
           | Solutions => ret true
           | _ => evaluate (present b)
           end ;;
  if negb found then throw (Error "Selector not found") else clicked b.

(** [waitForSelector]: the page is asked every 250 ms until the time allowed
    has passed. *)
Fixpoint poll (polls : nat) (elapsed timeout : N) (present_after : option N) : bool :=
  match polls with
  | O => false
  | S polls' =>
      if (elapsed <? timeout)%N then
        match present_after with
        | Some t => if (t <=? elapsed)%N then true
                    else poll polls' (elapsed + 250)%N timeout present_after
        | None => poll polls' (elapsed + 250)%N timeout present_after
        end
      else false
  end.

Definition waitForSelector (what : awaited) (timeout : N) : M unit :=
  if poll (S (N.to_nat (timeout / 250))) 0 timeout (appears site what)
  then ret tt
  else throw (TimeoutError "Timeout: the selector did not appear.").

(** The loop of at most [maxRetries] attempts to navigate. *)
Definition maxRetries : nat := 3.

Fixpoint navigate (left i : nat) : M unit :=
  match left with
  | O => ret tt
  | S left' =>
      try_catch
        (if navigation site i
         then emit (Navigated i true)
         else emit (Navigated i false) ;; throw (Error "navigation failed"))
        (fun err =>
           if (i <? maxRetries)%nat then navigate left' (S i)
           else throw err)
  end.

Definition illegal_in_file_name (c : ascii) : bool :=
  existsb (Ascii.eqb c)
    ["<"; ">"; ":"; ascii_of_nat 34; "/"; ascii_of_nat 92; "|"; "?"; "*"]%char.

Fixpoint remove_chars (p : ascii -> bool) (t : string) : string :=
  match t with
  | String c t' => if p c then remove_chars p t' else String c (remove_chars p t')
  | EmptyString => EmptyString
  end.

(** [for (let i = 0; i < questionsToSkip; i++)] *)
Fixpoint skipping (fuel : nat) (i : Z) (questionsToSkip : number) : M unit :=
  match fuel with
  | O => diverge
  | S fuel' =>
      if num_lt (Int i) questionsToSkip then
        nextButtonExists <- evaluate hasNext ;;
        emit (AskedNext nextButtonExists) ;;
        if negb nextButtonExists then ret tt
        else click Next ;; skipping fuel' (i + 1) questionsToSkip
      else ret tt
  end.

(** [currentQuestionData.Tags.push(commonTag)] *)
Definition push_tag (t : string) (r : QuestionRecord) : QuestionRecord := {|
  noteId := noteId r; SL := SL r; Question := Question r;
  OP1 := OP1 r; OP2 := OP2 r; OP3 := OP3 r; OP4 := OP4 r;
  Answer := Answer r; Solution := Solution r;
  Tags := (Tags r ++ [t])%list |}.

Definition is_set (o : option string) : bool :=
  match o with Some v => truthy v | None => false end.

(** [if (commonTag) { currentQuestionData.Tags.push(commonTag); }] *)
Definition tagged (commonTag : option string) (r : QuestionRecord) : QuestionRecord :=
  match commonTag with
  | Some t => if truthy t then push_tag t r else r
  | None => r
  end.

(** One turn of [while (true)]; [false] stands for [break]. *)
Definition iteration (scrapeLimit : number) (commonTag : option string) : M bool :=
  click ViewSolution ;;
  result <- evaluate snapshot ;;
  s <- get ;;
  emit (Snapshot (position s)) ;;
  let currentQuestionData :=
    scrapeSingleQuestionPage sel result (questionCounter s) (noteIdCounter s)
                             (serialNumberCounter s) in
  match currentQuestionData with
  | Some data =>
      let data := tagged commonTag data in
      set_locals (allQuestionsData s ++ [data])%list (questionCounter s)
                 (noteIdCounter s) (num_add (serialNumberCounter s) (Int 1))
  | None => ret tt
  end ;;
  s <- get ;;
  if num_ge (Int (Z.of_nat (length (allQuestionsData s)))) scrapeLimit
  then ret false else
  nextButtonExists <- evaluate hasNext ;;
  emit (AskedNext nextButtonExists) ;;
  if negb nextButtonExists then ret false else
  click Next ;;
  s <- get ;;
  set_locals (allQuestionsData s) (num_add (questionCounter s) (Int 1))
             (num_add (noteIdCounter s) (Int 1)) (serialNumberCounter s) ;;
  reachedEndText <- evaluate saysLast ;;
  emit (AskedLast reachedEndText) ;;
  if reachedEndText then ret false else ret true.

(** [while (true) { body }] *)
Fixpoint while_true (fuel : nat) (body : M bool) : M unit :=
  match fuel with
  | O => diverge
  | S fuel' =>
      continue <- body ;;
      if continue then while_true fuel' body else ret tt
  end.

Definition harvesting (fuel : nat) (scrapeLimit : number) (commonTag : option string)
    : M unit :=
  while_true fuel (iteration scrapeLimit commonTag).

(** The block after [finally]. *)
Definition cleanup : M unit :=
  close_if_defined Tab ;;
  close_if_defined Browser ;;
  close_if_defined LogSink.

(** The part of [main] from the declaration of [allQuestionsData] and the
    three counters to the end of the scraping loop. *)
Definition harvest (fuel : nat) (questionsToSkip scrapeLimit : number)
    (commonTag : option string) : M unit :=
  set_locals [] (num_add questionsToSkip (Int 1))
             (num_add (Int 1000) questionsToSkip) (Int 1) ;;
  harvesting fuel scrapeLimit commonTag.

(** The part of [main] after the loop: the records are written to a file
    when there are any. *)
Definition save (sanitizedExamName : string) : M unit :=
  s <- get ;;
  if (0 <? length (allQuestionsData s))%nat
  then emit (Saved ("output/scraped/" ++ sanitizedExamName ++ ".json")
                   (allQuestionsData s))
  else ret tt.

Definition scrape_limit (o : Options) : number :=
  match count o with
  | Some c => if truthy c then parseInt c else Infinity
  | None => Infinity
  end.

(** [main()]; [fuel] bounds the turns of each of its two open loops. *)
Definition main (fuel : nat) (o : Options) : M unit :=
  if negb (is_set (link o)) then process_exit 1 else
  let scrapeLimit := scrape_limit o in
  let commonTag := tag o in
  let questionsToSkip := parseInt (skip o) in
  try_finally
    (try_catch
       ((if reachable site then acquire Browser
         else throw (Error "connect ECONNREFUSED")) ;;
        acquire Tab ;;
        navigate maxRetries 1 ;;
        try_catch
          (waitForSelector ExamName 10000 ;;
           waitForSelector SolutionsButton 10000)
          (fun err =>
             match err with
             | TimeoutError _ => process_exit 1
             | _ => throw err
             end) ;;
        let analysisPageHtml := analysisPage site in
        let doc := load document analysisPageHtml in
        let examTitle := trim (Cheerio.text (Cheerio.select doc (examName sel))) in
        let sanitizedExamName :=
          if truthy examTitle
          then remove_chars illegal_in_file_name
                 (Sanitizer.replace_literal ": " " - " 0 examTitle)
          else "scraped_quiz_data" in
        acquire LogSink ;;
        click Solutions ;;
        (if num_gt questionsToSkip (Int 0)
         then skipping fuel 0 questionsToSkip else ret tt) ;;
        harvest fuel questionsToSkip scrapeLimit commonTag ;;
        save sanitizedExamName)
       (fun err => process_exit 1))
    cleanup.

(** ** The second variant of scraper.js *)

Fixpoint skipping_fast (fuel : nat) (i : Z) (skipCount : number) : M unit :=
  match fuel with
  | O => diverge
  | S fuel' =>
      if num_lt (Int i) skipCount then
        exists_ <- evaluate hasNext ;;
        emit (AskedNext exists_) ;;
        if negb exists_ then ret tt
        else humanClick Next ;; skipping_fast fuel' (i + 1) skipCount
      else ret tt
  end.

Definition iteration_fast (scrapeLimit : number) (commonTag : option string) : M bool :=
  evaluate (fun _ => tt) ;;      (* smoothScroll *)
  humanClick ViewSolution ;;
  result <- evaluate snapshot ;;
  s <- get ;;
  emit (Snapshot (position s)) ;;
  let qData :=
    scrapeSingleQuestionPage_fast sel result (questionCounter s) (noteIdCounter s)
                                  (serialNumberCounter s) in
  match qData with
  | Some data =>
      let data := tagged commonTag data in
      set_locals (allQuestionsData s ++ [data])%list (questionCounter s)
                 (noteIdCounter s) (num_add (serialNumberCounter s) (Int 1))
  | None => ret tt
  end ;;
  s <- get ;;
  if num_ge (Int (Z.of_nat (length (allQuestionsData s)))) scrapeLimit
  then ret false else
  nextExists <- evaluate hasNext ;;
  emit (AskedNext nextExists) ;;
  if negb nextExists then ret false else
  humanClick Next ;;
  s <- get ;;
  set_locals (allQuestionsData s) (num_add (questionCounter s) (Int 1))
             (num_add (noteIdCounter s) (Int 1)) (serialNumberCounter s) ;;
  reachedEnd <- evaluate saysLast ;;
  emit (AskedLast reachedEnd) ;;
  if reachedEnd then ret false else ret true.

Definition harvesting_fast (fuel : nat) (scrapeLimit : number)
    (commonTag : option string) : M unit :=
  while_true fuel (iteration_fast scrapeLimit commonTag).

Definition harvest_fast (fuel : nat) (skipCount scrapeLimit : number)
    (commonTag : option string) : M unit :=
  set_locals [] (num_add skipCount (Int 1))
             (num_add (Int 1000) skipCount) (Int 1) ;;
  harvesting_fast fuel scrapeLimit commonTag.

Definition main_fast (fuel : nat) (o : Options) : M unit :=
  if negb (is_set (link o)) then process_exit 1 else
  let scrapeLimit := scrape_limit o in
  let commonTag := tag o in
  let skipCount := parseInt (skip o) in
  try_finally
    (try_catch
       ((if reachable site then acquire Browser
         else throw (Error "connect ECONNREFUSED")) ;;
        acquire Tab ;;
        navigate 3 1 ;;
        try_catch
          (waitForSelector ExamName 10000 ;;
           waitForSelector SolutionsButton 10000)
          (fun err => process_exit 1) ;;
        let doc := load document (analysisPage site) in
        let examTitle := trim (Cheerio.text (Cheerio.select doc (examName sel))) in
        (if negb (truthy examTitle) then process_exit 1 else ret tt) ;;
        let sanitizedExamName :=
          remove_chars illegal_in_file_name
            (Sanitizer.replace_literal ": " " - " 0 examTitle) in
        acquire LogSink ;;
        humanClick Solutions ;;
        (if num_gt skipCount (Int 0)
         then skipping_fast fuel 0 skipCount else ret tt) ;;
        harvest_fast fuel skipCount scrapeLimit commonTag ;;
        save sanitizedExamName)
       (fun err => process_exit 1))
    cleanup.

End Main.

End Session.

(* ===================================================================== *)
(** * batch_scraper.js and validateLinks.js: the task list *)
(* ===================================================================== *)

Module Links.

(** A path is the list of its segments below the root of the file system. *)
Definition path : Type := list string.

(** The segments of a path written with [/]. *)
Fixpoint segments (t : string) : path :=
  match t with
  | String c t' =>
      if Ascii.eqb c "/" then EmptyString :: segments t'
      else match segments t' with
           | w :: ws => String c w :: ws
           | [] => [String c EmptyString]
           end
  | EmptyString => [EmptyString]
  end.

(** [path.normalize]: empty segments and [.] vanish, [..] takes back the
    segment before it. *)
Fixpoint normalize (done : path) (p : path) : path :=
  match p with
  | [] => rev done
  | seg :: p' =>
      if (seg =? "")%string || (seg =? ".")%string then normalize done p'
      else if (seg =? "..")%string then normalize (tl done) p'
      else normalize (seg :: done) p'
  end.

(** [path.join(dir, name)] and [path.resolve(dir, name)] for a relative [name]. *)
Definition join (dir : path) (name : string) : path :=
  normalize [] (dir ++ segments name)%list.

Fixpoint relative_from (from to : path) : path :=
  match from, to with
  | a :: from', b :: to' =>
      if (a =? b)%string then relative_from from' to'
      else (map (fun _ => "..") from ++ to)%list
  | _, _ => (map (fun _ => "..") from ++ to)%list
  end.

(** [path.relative(from, to)] *)
Definition relative (from to : path) : string :=
  String.concat "/" (relative_from from to).

(** An entry of links.json. *)
Record Task : Type := {
  SL : string;
  Subject : string;
  Link : string;
  Status : string;
  File : string
}.

Definition with_status (t : Task) (status file : string) : Task :=
  {| SL := SL t; Subject := Subject t; Link := Link t;
     Status := status; File := file |}.

Section Files.
(** The directory of the project and the files that exist. *)
Variable root : path.
Variable exists_ : path -> bool.

(** *** batch_scraper.js *)

Definition batch_dirname : path := (root ++ ["src"; "workflows"; "scrapper"])%list.
Definition PROJECT_ROOT : path := join (join (join batch_dirname "..") "..") "..".
Definition OUTPUT_DIR : path := join (join PROJECT_ROOT "output") "scraped".

(** The body of the loop of [main] for a PENDING task, given whether the
    scraper succeeded and the name [findLatestOutputFile] returned. *)
Definition record_outcome (success : bool) (outputFileName : option string)
    (task : Task) : Task :=
  if success then
    match outputFileName with
    | Some name =>
        if truthy name
        then with_status task "COMPLETED" (relative PROJECT_ROOT (join OUTPUT_DIR name))
        else with_status task "COMPLETED" "UNKNOWN"
    | None => with_status task "COMPLETED" "UNKNOWN"
    end
  else with_status task "FAILED" "".

(** *** validateLinks.js *)

Definition validator_dirname : path := (root ++ ["scripts"])%list.
Definition rootDir : path := join validator_dirname "..".
Definition scrapedDir : path := join (join rootDir "output") "scraped".
Definition taggedDir : path := join (join rootDir "output") "tagged".

(** [fs.access(p, F_OK)] resolves or rejects. *)
Definition fileExists (fileName : string) : bool :=
  let scrapedFile := join scrapedDir fileName in
  let taggedFile := join taggedDir fileName in
  if exists_ scrapedFile then true
  else if exists_ taggedFile then true
  else false.

(** The function mapped over the entries: the entry it returns, and whether
    it has set [updated]. *)
Definition validate_entry (entry : Task) : Task * bool :=
  if (Status entry =? "COMPLETED")%string && truthy (File entry) then
    if negb (fileExists (File entry))
    then (with_status entry "PENDING" "", true)
    else (entry, false)
  else (entry, false).

(** [validateLinks]: the entries after the scan, and whether links.json is
    written again. *)
Definition validateLinks (links : list Task) : list Task * bool :=
  let results := map validate_entry links in
  (map fst results, existsb snd results).

End Files.

End Links.

(* ===================================================================== *)
(** * batch_scraper.js: the loop over the tasks *)
(* ===================================================================== *)

Module Batch.
Import Links.

(** [s.endsWith(p)] *)
Definition endsWith (s p : string) : bool :=
  (String.length p <=? String.length s)%nat
  && (drop (String.length s - String.length p) s =? p)%string.

(** A directory as [findLatestOutputFile] reads it: the names
    [fs.readdirSync] lists, and for a name the time of its last change in
    milliseconds, [None] when [fs.statSync] throws. *)
Record Directory : Type := {
  names : list string;
  mtime : string -> option Z
}.

(** [files.map(file => ({ file, time: fs.statSync(...).mtime.getTime() }))];
    [None] when a call throws. *)
Fixpoint stat_all (time : string -> option Z) (files : list string)
    : option (list (string * Z)) :=
  match files with
  | [] => Some []
  | file :: files' =>
      match time file with
      | Some t => option_map (cons (file, t)) (stat_all time files')
      | None => None
      end
  end.

(** [.sort((a, b) => b.time - a.time)]: the later file first; the sort of
    an array is stable, so files of the same time keep their order. *)
Fixpoint insert (a : string * Z) (l : list (string * Z)) : list (string * Z) :=
  match l with
  | [] => [a]
  | b :: l' => if snd a <? snd b then b :: insert a l' else a :: l
  end.

Definition sort (l : list (string * Z)) : list (string * Z) := fold_right insert [] l.

(** [findLatestOutputFile()]; the argument is the output directory, [None]
    when it does not exist. *)
Definition findLatestOutputFile (outputDir : option Directory) : option string :=
  match outputDir with
  | None => None
  | Some dir =>
      let jsons := filter (fun file => endsWith file ".json") (names dir) in
      match stat_all (mtime dir) jsons with
      | Some files =>
          match sort files with
          | latest :: _ => Some (fst latest)
          | [] => None
          end
      | None => (* catch *) None
      end
  end.

(** What the driver sees of the machine. *)
Record World : Type := {
  linksFile : option (list Task);  (* links.json parsed; [None]: missing or no JSON *)
  scraperScript : bool;            (* scraper.js is where the driver looks for it *)
  outputDir : option Directory;    (* OUTPUT_DIR *)
  logsDir : bool                   (* LOGS_DIR exists *)
}.

Definition with_output (w : World) (d : option Directory) : World :=
  {| linksFile := linksFile w; scraperScript := scraperScript w;
     outputDir := d; logsDir := logsDir w |}.

Definition setupDirectories (w : World) : World :=
  {| linksFile := linksFile w; scraperScript := scraperScript w;
     outputDir := match outputDir w with
                  | None => Some {| names := []; mtime := fun _ => None |}
                  | Some d => Some d
                  end;
     logsDir := true |}.

(** How the driver ends: [main] returns with the tasks as they are then, or
    the process exits. *)
Inductive ending : Type :=
| Returned (allLinks : list Task)
| Exited (code : Z).

Section Driver.
Variable root : path.
(** [node scraper.js --link task.Link --tag task.SL] on an output directory:
    the exit code and the directory afterwards. *)
Variable scraper : Task -> option Directory -> Z * option Directory.

(** [runScraper(task)]: [execa] rejects when the exit code is not 0. *)
Definition runScraper (task : Task) (w : World) : bool * World :=
  if negb (scraperScript w) then (false, w) else
  let (code, dir) := scraper task (outputDir w) in
  (code =? 0, with_output w dir).

(** [for (const task of allLinks)]: [done] are the tasks passed, [todo] those
    to come; [saved] lists what [saveLinks] was handed, oldest first. *)
Fixpoint tasks (done todo : list Task) (w : World) (saved : list (list Task))
    : list Task * World * list (list Task) :=
  match todo with
  | [] => (done, w, saved)
  | task :: rest =>
      if (Status task =? "PENDING")%string then
        let (success, w) := runScraper task w in
        let task := record_outcome root success (findLatestOutputFile (outputDir w)) task in
        tasks (done ++ [task]) rest w (saved ++ [done ++ task :: rest])
      else tasks (done ++ [task]) rest w saved
  end%list.

(** [main()] of batch_scraper.js. *)
Definition main (w : World) : ending * World * list (list Task) :=
  let w := setupDirectories w in
  match linksFile w with
  | None => (Exited 1, w, [])
  | Some allLinks =>
      let pendingTasks := filter (fun task => (Status task =? "PENDING")%string) allLinks in
      if (length pendingTasks =? 0)%nat then (Returned allLinks, w, [])
      else
        match tasks [] allLinks w [] with
        | (allLinks, w, saved) => (Returned allLinks, w, saved)
        end
  end.

End Driver.

End Batch.

(* ===================================================================== *)
(** * Examples: pages, selectors and sites *)
(* ===================================================================== *)

Module Examples.

(** A minifier that rejects every input. *)
Definition failing_minifier : Libraries := {|
  load := @load Reference.libraries;
  html := @html Reference.libraries;
  minify := fun _ => Thrown (Error "Parse Error")
|}.


(** Selectors in the style of utils/selectors.js. *)
Definition selectors : ParserSelectors := {|
  activeQuestionContainer := by_tag_class "div" "active";
  questionNumber := by_class "num";
  sectionName := by_class "section";
  comprehension := by_class "passage";
  questionBody := by_class "body";
  solution := by_class "solution";
  optionContainer := by_tag "li";
  optionText := by_class "text";
  correctOptionClass := "correct";
  examName := by_tag "h1"
|}.

(** A question whose two option containers hold no text: the first has no
    text element, the second an empty paragraph. *)
Definition page_with_empty_options : string :=
  "<html><head></head><body><div class='section'>Quantitative Aptitude</div>"
  ++ "<div class='active'><span class='num'>Q.7</span>"
  ++ "<div class='body'>What is 2+2?</div>"
  ++ "<ul><li></li><li><div class='text'><p></p></div></li></ul>"
  ++ "</div></body></html>".

(** A question with five options, the fifth marked correct. *)
Definition page_with_five_options : string :=
  "<html><head></head><body><div class='section'>English</div>"
  ++ "<div class='active'><span class='num'>Q.3</span>"
  ++ "<div class='body'>Pick one.</div>"
  ++ "<ul><li><div class='text'>A</div></li><li><div class='text'>B</div></li>"
  ++ "<li><div class='text'>C</div></li><li><div class='text'>D</div></li>"
  ++ "<li class='correct'><div class='text'>E</div></li></ul>"
  ++ "</div></body></html>".

(** A question whose list of options starts with an element that is no
    option; the first option is marked correct. *)
Definition page_with_label_before_options : string :=
  "<html><head></head><body><div class='section'>English</div>"
  ++ "<div class='active'><span class='num'>Q.4</span>"
  ++ "<div class='body'>Pick one.</div>"
  ++ "<ul><span>Options</span><li class='correct'><div class='text'>A</div></li>"
  ++ "<li><div class='text'>B</div></li></ul>"
  ++ "</div></body></html>".

(** A question with four options, the third marked correct. *)
Definition page_with_four_options : string :=
  "<html><head></head><body><div class='section'>Section I</div>"
  ++ "<div class='active'><span class='num'>Q.31<span class='hidden-xs'>9</span></span>"
  ++ "<div class='body'><p>Which one?</p></div>"
  ++ "<ul><li><div class='text'>A</div></li><li><div class='text'>B</div></li>"
  ++ "<li class='correct'><div class='text'>C</div></li><li><div class='text'>D</div></li></ul>"
  ++ "<div class='solution'><p>It is C.</p></div>"
  ++ "</div></body></html>".


(** A site with five questions; the last has no Next button. *)
Definition question (next : bool) : Session.QuizPage := {|
  Session.snapshot := page_with_four_options;
  Session.hasNext := next;
  Session.hasViewSolution := true;
  Session.saysLast := false;
  Session.detached := false
|}.

Definition five_questions (n : nat) : Session.QuizPage :=
  nth n [question true; question true; question true; question true]
      (question false).

Definition site : Session.Site := {|
  Session.reachable := true;
  Session.navigation := fun _ => true;
  Session.appears := fun _ => Some 500%N;
  Session.analysisPage :=
    "<html><head></head><body><h1>SSC CGL: Mock 1</h1></body></html>";
  Session.quiz := five_questions
|}.

(** The same site when the page never shows the title of the exam. *)
Definition site_without_title : Session.Site := {|
  Session.reachable := true;
  Session.navigation := fun _ => true;
  Session.appears := fun a => match a with
                              | Session.ExamName => None
                              | Session.SolutionsButton => Some 500%N
                              end;
  Session.analysisPage := Session.analysisPage site;
  Session.quiz := five_questions
|}.

(** The same site when no attempt to navigate succeeds. *)
Definition site_unreachable_page : Session.Site := {|
  Session.reachable := true;
  Session.navigation := fun _ => false;
  Session.appears := Session.appears site;
  Session.analysisPage := Session.analysisPage site;
  Session.quiz := five_questions
|}.

Definition command_line (limit : option string) (skip : string) : Session.Options := {|
  Session.link := Some "https://example.org/analysis";
  Session.count := limit;
  Session.tag := Some "T1";
  Session.skip := skip
|}.

(** The project on disk, and a disk that holds one result file. *)
Definition project : Links.path := ["home"; "user"; "testbook-automation"].

Definition pending_task : Links.Task := {|
  Links.SL := "T1"; Links.Subject := "Mock 1";
  Links.Link := "https://example.org/analysis";
  Links.Status := "PENDING"; Links.File := EmptyString
|}.

Definition path_eqb (p q : Links.path) : bool :=
  if list_eq_dec string_dec p q then true else false.

Definition disk (p : Links.path) : bool :=
  path_eqb p (project ++ ["output"; "scraped"; "SSC CGL - Mock 1.json"])%list.

(** A question with a passage and options, and no question body. *)
Definition page_with_passage_only : string :=
  "<html><head></head><body><div class='section'>English</div>"
  ++ "<div class='active'><span class='num'>Q.9</span>"
  ++ "<div class='passage'>Read this.</div>"
  ++ "<ul><li><div class='text'>A</div></li><li><div class='text'>B</div></li></ul>"
  ++ "</div></body></html>".

(** An output directory with two result files and a log. *)
Definition results : Batch.Directory := {|
  Batch.names := ["Mock 1.json"; "Mock 2.json"; "notes.txt"];
  Batch.mtime := fun file =>
    if (file =? "Mock 1.json")%string then Some 1700000000000
    else if (file =? "Mock 2.json")%string then Some 1700000360000
    else Some 1700000720000
|}.

(** A scraper that fails on the task T2 and otherwise writes [<SL>.json]. *)
Definition scraper_run (task : Links.Task) (dir : option Batch.Directory)
    : Z * option Batch.Directory :=
  if (Links.SL task =? "T2")%string then (1, dir)
  else
    let old := match dir with
               | Some d => d
               | None => {| Batch.names := []; Batch.mtime := fun _ => None |}
               end in
    (0, Some {| Batch.names := (Batch.names old ++ [(Links.SL task ++ ".json")%string])%list;
                Batch.mtime := fun file =>
                  if (file =? Links.SL task ++ ".json")%string then Some 1700001000000
                  else Batch.mtime old file |}).

Definition task_list : list Links.Task :=
  [ {| Links.SL := "T0"; Links.Subject := "Mock 0"; Links.Link := "https://example.org/0";
       Links.Status := "COMPLETED"; Links.File := "output/scraped/Mock 0.json" |};
    pending_task;
    {| Links.SL := "T2"; Links.Subject := "Mock 2"; Links.Link := "https://example.org/2";
       Links.Status := "PENDING"; Links.File := EmptyString |} ].

Definition machine : Batch.World := {|
  Batch.linksFile := Some task_list;
  Batch.scraperScript := true;
  Batch.outputDir := Some results;
  Batch.logsDir := true
|}.

(** The same machine without scraper.js. *)
Definition machine_without_script : Batch.World := {|
  Batch.linksFile := Some Examples.task_list;
  Batch.scraperScript := false;
  Batch.outputDir := Some Examples.results;
  Batch.logsDir := true
|}.

End Examples.

(** The string the sanitizer returns. *)
Definition sanitized {L : Libraries} (h : option string) : string :=
  match Sanitizer.transformAndSanitizeHtml h with
  | Normal r => r
  | Thrown _ => EmptyString
  end.

(** The state after a part of [main] has run: the browser at [pos], the
    variables of the loop as given, and the events [new] after the old ones. *)
Definition after (s : Session.Sys) (pos : nat) (data : list QuestionRecord)
    (q n sl : number) (new : list Session.event) : Session.Sys := {|
  Session.position := pos;
  Session.browserClient := Session.browserClient s;
  Session.tabClient := Session.tabClient s;
  Session.logger := Session.logger s;
  Session.allQuestionsData := data;
  Session.questionCounter := q;
  Session.noteIdCounter := n;
  Session.serialNumberCounter := sl;
  Session.events := (Session.events s ++ new)%list
|}.

(** The serial numbers 1, 2, ..., n. *)
Definition serials (n : nat) : list number :=
  map (fun k => Int (Z.of_nat k)) (seq 1 n).

(** The three checks that end the scraping loop, in the order of the
    specification: (a) the limit is reached, (b) there is no Next control,
    (c) after a click on Next the page says that the last question was
    reached.  The result is whether the loop goes on, and what the checks
    asked of the page. *)
Definition termination_checks (reached next last : bool) : bool * list Session.event :=
  if reached then (false, [])
  else if negb next then (false, [Session.AskedNext false])
  else (negb last,
        [Session.AskedNext true; Session.Clicked Session.Next; Session.AskedLast last]).

(** The number of pages read. *)
Definition snapshots (l : list Session.event) : nat :=
  length (filter (fun e => match e with Session.Snapshot _ => true | _ => false end) l).

(** The element children of the element at the place [parent]. *)
Definition siblings (doc : forest) (parent : list nat) : Cheerio.selection :=
  List.filter (fun e => has_parent e && path_eqb (parent_path (e_path e)) parent)
              (elements doc).

(** The position of the first element that satisfies [f]. *)
Fixpoint first_index {A : Type} (f : A -> bool) (l : list A) : option nat :=
  match l with
  | [] => None
  | a :: l' => if f a then Some 0%nat else option_map S (first_index f l')
  end.

(** A string without its white space. *)
Fixpoint without_spaces (t : string) : string :=
  match t with
  | String c t' => if is_space c then without_spaces t' else String c (without_spaces t')
  | EmptyString => EmptyString
  end.

(* ===================================================================== *)
(** * Invariants of the session *)
(* ===================================================================== *)

Module Invariants.
Import Session.

(** What one turn of the loop does to the records and to the serial counter,
    however it ends. *)
Definition pushes (serial : number) (s s' : Sys) : Prop :=
  (allQuestionsData s' = allQuestionsData s /\
   serialNumberCounter s' = serialNumberCounter s) \/
  (exists d, SL d = serial /\
             allQuestionsData s' = (allQuestionsData s ++ [d])%list /\
             serialNumberCounter s' = num_add serial (Int 1)).

(** The serial numbers of the records are 1, 2, ... and the counter is the
    next one. *)
Definition serials_ok (s : Sys) : Prop :=
  map SL (allQuestionsData s) = serials (length (allQuestionsData s)) /\
  serialNumberCounter s = Int (Z.of_nat (S (length (allQuestionsData s)))).

(** The state in which the loop starts. *)
Definition loop_start (questionsToSkip : number) (s0 : Sys) : Sys :=
  after s0 (position s0) [] (num_add questionsToSkip (Int 1))
        (num_add (Int 1000) questionsToSkip) (Int 1) [].

(** A property of the state that a computation keeps, however it ends. *)
Definition keeps {A : Type} (I : Sys -> Prop) (m : M A) : Prop :=
  forall s, I s -> I (snd (m s)).

(** Nothing has been closed. *)
Definition none_closed (s : Sys) : Prop := forall r, ~ In (Closed r) (events s).

Definition opens_or_observes (e : event) : Prop :=
  match e with Closed _ => False | _ => True end.

(** The events of the phases before the file is written and the connections
    are closed. *)
Definition observed (e : event) : Prop :=
  match e with Closed _ | Saved _ _ => False | _ => True end.

(** Every event so far satisfies [P]. *)
Definition only (P : event -> Prop) (s : Sys) : Prop :=
  forall e, In e (events s) -> P e.

(** A file written holds at most [N] records. *)
Definition within_limit (N : Z) (e : event) : Prop :=
  match e with
  | Saved _ data => Z.of_nat (length data) <= N
  | _ => True
  end.

(** The records of a file written have the serial numbers 1, 2, ... *)
Definition well_numbered (e : event) : Prop :=
  match e with
  | Saved _ data => map SL data = serials (length data)
  | _ => True
  end.

End Invariants.

Export Invariants.

(** The string starts with a character that [trim] keeps, or is empty. *)
Definition starts_black (u : string) : bool :=
  match u with
  | String c _ => negb (is_space c)
  | EmptyString => true
  end.

(* ===================================================================== *)
(** * What the scraper reads off a page *)
(* ===================================================================== *)

(** The tags [getTagForQuestion] can return. *)
Definition subjectTags : list string :=
  ["MATH"; "GI"; "ENG"; "GK"; "COMPUTER"; "BENGALI"].

(** The header between a passage and the question that follows it. *)
Definition questionHeader : string := "<br><br><strong><u>Question</u></strong><br>".

(** A record without its tags. *)
Definition untagged (r : QuestionRecord) : QuestionRecord := {|
  noteId := noteId r; SL := SL r; Question := Question r;
  OP1 := OP1 r; OP2 := OP2 r; OP3 := OP3 r; OP4 := OP4 r;
  Answer := Answer r; Solution := Solution r; Tags := [] |}.

(** The values [scrapeSingleQuestionPage] computes on its way, named as in
    the source. *)
Module Read.
Section Read.
Context {L : Libraries}.
Variable sel : ParserSelectors.
Variable page : string.

Definition container : Cheerio.selection :=
  Cheerio.select (load document page) (activeQuestionContainer sel).

Definition options : Cheerio.selection :=
  Cheerio.find (load document page) container (optionContainer sel).

Definition slText : string :=
  trim (text_without_hidden
          (Cheerio.find (load document page) container (questionNumber sel))).

Definition questionNumberForTagging (fallbackCounter : number) : number :=
  match match_digits slText with
  | Some m => parseInt m
  | None => fallbackCounter
  end.

Definition sectionNameText : string :=
  trim (Cheerio.text (Cheerio.select (load document page) (sectionName sel))).

Definition sanitizedComprehension : string :=
  sanitized (option_map trim
               (html_of (Cheerio.find (load document page) container (comprehension sel)))).

Definition sanitizedQuestionBody : string :=
  sanitized (option_map trim
               (html_of (Cheerio.find (load document page) container (questionBody sel)))).

Definition sanitizedSolution : string :=
  sanitized (option_map trim
               (html_of (Cheerio.find (load document page) container (solution sel)))).

Definition sanitizedOptions : list string :=
  map sanitized
      (map (fun element =>
              option_map trim
                (html_of (Cheerio.find (load document page) [element] (optionText sel))))
           options).

End Read.
End Read.

(** No character of the string satisfies [p]. *)
Fixpoint free_of (p : ascii -> bool) (t : string) : bool :=
  match t with
  | String c t' => negb (p c) && free_of p t'
  | EmptyString => true
  end.

(** The numbers of the list are at least [lo] and go up. *)
Fixpoint ascending (lo : Z) (l : list Z) : Prop :=
  match l with
  | [] => True
  | x :: l' => lo <= x /\ ascending (x + 1) l'
  end.

(** A data file is written to [output/scraped], under a name without any of
    the characters [main] removes from the title of the exam. *)
Definition written_in_output (e : Session.event) : Prop :=
  match e with
  | Session.Saved file _ =>
      exists name, file = "output/scraped/" ++ name ++ ".json"
                   /\ free_of Session.illegal_in_file_name name = true
  | _ => True
  end.

(* ===================================================================== *)
(** * How a session ends, and what the batch driver does to a task *)
(* ===================================================================== *)

(** ** How a computation of the session ends *)

Module Endings.
Import Session.

(** When [m] returns, [Q] holds of the state. *)
Definition returns_with {A : Type} (Q : Sys -> Prop) (m : M A) : Prop :=
  forall s a s', m s = (Returns a, s') -> Q s'.

(** [m] ends the process with the code [code] only. *)
Definition exits_with {A : Type} (code : Z) (m : M A) : Prop :=
  forall s c, fst (m s) = Exits c -> c = code.

(** Unless [m] returns, it leaves a state in which [I] holds. *)
Definition fails_with {A : Type} (I : Sys -> Prop) (m : M A) : Prop :=
  forall s, I s ->
    match fst (m s) with
    | Returns _ => True
    | _ => I (snd (m s))
    end.

(** From a state in which [P] holds, when [m] returns, [Q] holds. *)
Definition triple {A : Type} (P : Sys -> Prop) (m : M A) (Q : Sys -> Prop) : Prop :=
  forall s a s', P s -> m s = (Returns a, s') -> Q s'.

(** What the events say once the data has been handled: with no record
    nothing was written; with records the last event is the file written,
    and it holds them. *)
Definition data_handled (s : Sys) : Prop :=
  match allQuestionsData s with
  | [] => only observed s
  | data =>
      exists before name,
        events s = (before ++ [Saved ("output/scraped/" ++ name ++ ".json") data])%list
        /\ forall e, In e before -> observed e
  end.

(** The three connections are open. *)
Definition all_live (s : Sys) : Prop :=
  handle_of Tab s = Some Live /\ handle_of Browser s = Some Live
  /\ handle_of LogSink s = Some Live.

(** The frame of [main]: a block, [catch] that ends the process, and
    [finally] that closes the connections. *)
Definition guarded (body : M unit) : M unit :=
  try_finally (try_catch body (fun _ => process_exit 1)) cleanup.

(** The connection or stream is open. *)
Definition live (r : resource) (s : Sys) : Prop := handle_of r s = Some Live.

(** A property of the state that depends on the connections only, and that
    opening a connection does not undo. *)
Definition of_handles (I : Sys -> Prop) : Prop :=
  (forall e s, I s -> I (snd (emit e s))) /\
  (forall n s, I s -> I (snd (set_position n s))) /\
  (forall d q n sl s, I s -> I (snd (set_locals d q n sl s))) /\
  (forall r s, I s -> I (snd (set_handle r Live s))).

(** What one turn of the scraping loop does to the records and to the
    counter of note ids, however it ends: it adds at most the record of the
    page it has read, tagged; it adds one to the counter when it moves to the
    next page, and always when the loop goes on. *)
Definition turn {L : Libraries} (sel : ParserSelectors) (site : Site)
    (commonTag : option string) (s : Sys) (r : outcome bool * Sys) : Prop :=
  (allQuestionsData (snd r) = allQuestionsData s \/
   exists d,
     scrapeSingleQuestionPage sel (snapshot (quiz site (position s)))
       (questionCounter s) (noteIdCounter s) (serialNumberCounter s) = Some d /\
     allQuestionsData (snd r) = (allQuestionsData s ++ [tagged commonTag d])%list) /\
  (noteIdCounter (snd r) = noteIdCounter s \/
   noteIdCounter (snd r) = num_add (noteIdCounter s) (Int 1)) /\
  (fst r = Returns true -> noteIdCounter (snd r) = num_add (noteIdCounter s) (Int 1)).

End Endings.

Export Endings.

Module BatchFacts.
Import Links.

(** [task.Status === 'PENDING'] *)
Definition pending (task : Task) : bool := (Status task =? "PENDING")%string.

(** What the loop of the driver may do to one task. *)
Definition settled (task task' : Task) : Prop :=
  SL task' = SL task /\ Subject task' = Subject task /\ Link task' = Link task /\
  if (Status task =? "PENDING")%string
  then Status task' = "COMPLETED" \/ (Status task' = "FAILED" /\ File task' = EmptyString)
  else task' = task.

(** The [.json] files of a directory. *)
Definition json_files (dir : Batch.Directory) : list string :=
  filter (fun file => Batch.endsWith file ".json") (Batch.names dir).

End BatchFacts.

(* ===================================================================== *)
(** * Properties *)
(* ===================================================================== *)

(** ** The tag resolver *)

Lemma getTagForQuestion_resolveTag sec q : getTagForQuestion sec q = resolveTag sec q.
Proof.
  destruct sec as [s|], q as [q|]; try reflexivity.
  unfold getTagForQuestion, resolveTag.
  destruct (truthy s); [|reflexivity]. cbn [negb].
  unfold reserved_tag, keyword_tag, reservedRules, keywordRules, falls_through.
  cbn [List.find existsb fst snd option_map].
  destruct (trim s =? "Section I")%string eqn:E1.
  - apply String.eqb_eq in E1. rewrite E1.
    destruct q as [| |z]; cbn; try reflexivity.
    destruct (1 <=? z), (z <=? 30), (31 <=? z), (z <=? 60); cbn; reflexivity.
  - destruct (trim s =? "Section II")%string eqn:E2.
    + apply String.eqb_eq in E2. rewrite E2.
      destruct q as [| |z]; cbn; try reflexivity.
      destruct (1 <=? z), (z <=? 45), (46 <=? z), (z <=? 70); cbn; reflexivity.
    + rewrite String.eqb_sym, E1, String.eqb_sym, E2. cbn [andb].
      rewrite !orb_false_r.
      repeat match goal with
             | |- context [if ?b then _ else _] => destruct b; cbn; try reflexivity
             end.
Qed.

Lemma getTagForQuestion_fast_eq sec q :
  getTagForQuestion_fast sec q = getTagForQuestion sec q.
Proof. reflexivity. Qed.

Lemma truthy_trim s : trim s <> EmptyString -> truthy s = true.
Proof. destruct s; [intros H; now elim H | reflexivity]. Qed.

(** C3. The tag resolver, in both variants of scraper.js: the two reserved
    labels with their ranges of numbers give MATH, GI, ENG and GK; any other
    input gets the tag of the first keyword rule, in the fixed order, whose
    keyword occurs in the lower-cased section name, so that "Quantitative
    Reasoning" is MATH; a missing or empty section name, a question number
    that is no number, and a name no rule matches give null. *)
Theorem getTagForQuestion_rules :
  (forall s q, trim s = "Section I" -> 1 <= q <= 30 ->
     getTagForQuestion (Some s) (Some (Int q)) = Some "MATH") /\
  (forall s q, trim s = "Section I" -> 31 <= q <= 60 ->
     getTagForQuestion (Some s) (Some (Int q)) = Some "GI") /\
  (forall s q, trim s = "Section II" -> 1 <= q <= 45 ->
     getTagForQuestion (Some s) (Some (Int q)) = Some "ENG") /\
  (forall s q, trim s = "Section II" -> 46 <= q <= 70 ->
     getTagForQuestion (Some s) (Some (Int q)) = Some "GK") /\
  (forall s q, s <> EmptyString -> reserved_tag (trim s) q = None ->
     getTagForQuestion (Some s) (Some q) = keyword_tag (toLowerCase (trim s))) /\
  (forall q, getTagForQuestion (Some "Quantitative Reasoning") (Some q) = Some "MATH") /\
  (forall s q, keyword_tag (toLowerCase (trim s)) = None ->
     reserved_tag (trim s) q = None ->
     getTagForQuestion (Some s) (Some q) = None) /\
  (forall q, getTagForQuestion None q = None) /\
  (forall q, getTagForQuestion (Some EmptyString) q = None) /\
  (forall s, getTagForQuestion s None = None) /\
  (forall s q, getTagForQuestion_fast s q = getTagForQuestion s q).
Proof.
  assert (R : forall s q label t,
             trim s = label -> reserved_tag label (Int q) = Some t ->
             getTagForQuestion (Some s) (Some (Int q)) = Some t).
  { intros s q label t Hs Hr. rewrite getTagForQuestion_resolveTag.
    unfold resolveTag. rewrite truthy_trim.
    - now rewrite Hs, Hr.
    - rewrite Hs. intros E. rewrite E in Hr. discriminate Hr. }
  refine (conj _ (conj _ (conj _ (conj _ (conj _ (conj _ (conj _ (conj _
         (conj _ (conj _ _)))))))))).
  - intros s q Hs Hq. apply (R s q "Section I"); [exact Hs|].
    unfold reserved_tag; cbn.
    destruct (Z.leb_spec 1 q), (Z.leb_spec q 30); try lia; reflexivity.
  - intros s q Hs Hq. apply (R s q "Section I"); [exact Hs|].
    unfold reserved_tag; cbn.
    destruct (Z.leb_spec 1 q), (Z.leb_spec q 30), (Z.leb_spec 31 q), (Z.leb_spec q 60);
      try lia; reflexivity.
  - intros s q Hs Hq. apply (R s q "Section II"); [exact Hs|].
    unfold reserved_tag; cbn.
    destruct (Z.leb_spec 1 q), (Z.leb_spec q 45); try lia; reflexivity.
  - intros s q Hs Hq. apply (R s q "Section II"); [exact Hs|].
    unfold reserved_tag; cbn.
    destruct (Z.leb_spec 1 q), (Z.leb_spec q 45), (Z.leb_spec 46 q), (Z.leb_spec q 70);
      try lia; reflexivity.
  - intros s q Hs Hr. rewrite getTagForQuestion_resolveTag. unfold resolveTag.
    destruct s; [now elim Hs|]. cbn [truthy]. now rewrite Hr.
  - intros q. rewrite getTagForQuestion_resolveTag. unfold resolveTag.
    destruct q; reflexivity.
  - intros s q Hk Hr. rewrite getTagForQuestion_resolveTag. unfold resolveTag.
    destruct (truthy s); [|reflexivity]. now rewrite Hr, Hk.
  - intros [q|]; reflexivity.
  - intros [q|]; reflexivity.
  - intros [s|]; reflexivity.
  - intros s q. apply getTagForQuestion_fast_eq.
Qed.

Lemma getTagForQuestion_rules_witness :
  getTagForQuestion (Some " Section I ") (Some (Int 30)) = Some "MATH" /\
  getTagForQuestion (Some "Section I") (Some (Int 31)) = Some "GI" /\
  getTagForQuestion (Some "Section II") (Some (Int 45)) = Some "ENG" /\
  getTagForQuestion (Some "Section II") (Some (Int 70)) = Some "GK" /\
  getTagForQuestion (Some "General Awareness") (Some (Int 7)) = Some "GK" /\
  getTagForQuestion (Some "Section I") (Some (Int 61)) = None.
Proof.
  destruct getTagForQuestion_rules as (H1 & H2 & H3 & H4 & H5 & _ & H7 & _).
  split; [apply H1; [reflexivity | lia] |].
  split; [apply H2; [reflexivity | lia] |].
  split; [apply H3; [reflexivity | lia] |].
  split; [apply H4; [reflexivity | lia] |].
  split; [rewrite H5; [reflexivity | discriminate | reflexivity] |].
  apply H7; reflexivity.
Defined.

(** ** The sanitizer *)

Section SanitizerFacts.
Context {L : Libraries}.
Import Sanitizer.

Lemma minifyHtml_normal t : exists r, minifyHtml t = Normal r.
Proof.
  unfold minifyHtml. destruct (negb (truthy t)); [now exists t|].
  unfold try_catch. destruct (minify t) as [r|e]; [now exists r | now exists t].
Qed.

Lemma sanitize_normal h : transformAndSanitizeHtml h = Normal (sanitized h).
Proof.
  unfold sanitized. destruct h as [h|]; [|reflexivity].
  unfold transformAndSanitizeHtml. destruct (negb (truthy h)); [reflexivity|].
  destruct (minifyHtml_normal (string_passes (html fragment (dom_passes (load fragment h)))))
    as [r Hr].
  rewrite Hr. reflexivity.
Qed.

Lemma all_sanitize_normal l : all transformAndSanitizeHtml l = Normal (map sanitized l).
Proof.
  induction l as [|h l IH]; [reflexivity|].
  cbn [all map]. rewrite sanitize_normal, IH. reflexivity.
Qed.

End SanitizerFacts.

(** C7. The sanitizer returns the empty string for a null and for an empty
    input; it completes normally on every input, whatever the minifier does;
    and when the minifier rejects the string handed to it, the result is that
    string, the outcome of the passes before it, trimmed. *)
Theorem transformAndSanitizeHtml_never_throws {L : Libraries} :
  Sanitizer.transformAndSanitizeHtml None = Normal EmptyString /\
  Sanitizer.transformAndSanitizeHtml (Some EmptyString) = Normal EmptyString /\
  (forall h, exists r, Sanitizer.transformAndSanitizeHtml h = Normal r) /\
  (forall h e,
     h <> EmptyString ->
     minify (Sanitizer.string_passes
               (html Sanitizer.fragment
                     (Sanitizer.dom_passes (load Sanitizer.fragment h)))) = Thrown e ->
     Sanitizer.transformAndSanitizeHtml (Some h)
     = Normal (trim (Sanitizer.string_passes
                       (html Sanitizer.fragment
                             (Sanitizer.dom_passes (load Sanitizer.fragment h)))))).
Proof.
  refine (conj eq_refl (conj eq_refl (conj _ _))).
  - intros h. exists (sanitized h). apply sanitize_normal.
  - intros h e Hh Hm. unfold Sanitizer.transformAndSanitizeHtml.
    destruct h; [now elim Hh|]. cbn [truthy negb].
    unfold Sanitizer.minifyHtml. rewrite Hm.
    destruct (Sanitizer.string_passes _); reflexivity.
Qed.

Lemma transformAndSanitizeHtml_never_throws_witness :
  @Sanitizer.transformAndSanitizeHtml Examples.failing_minifier
     (Some "<p>a<br><br><br><br>b </p>")
  = Normal "a<br><br>b".
Proof.
  destruct (@transformAndSanitizeHtml_never_throws Examples.failing_minifier)
    as (_ & _ & _ & H).
  rewrite (H "<p>a<br><br><br><br>b </p>" (Error "Parse Error"));
    [reflexivity | discriminate | reflexivity].
Defined.

(** ** The two variants of scraper.js *)

Lemma scrapeSingleQuestionPage_fast_eq {L : Libraries} sel page fallbackCounter noteId sl :
  scrapeSingleQuestionPage_fast sel page fallbackCounter noteId sl
  = scrapeSingleQuestionPage sel page fallbackCounter noteId sl.
Proof.
  unfold scrapeSingleQuestionPage_fast, scrapeSingleQuestionPage.
  destruct (match_digits _); reflexivity.
Qed.

(** C10. The two variants of scraper.js have the same extraction core:
    their tag resolvers return the same tag for every section name and
    question number, and their page scrapers return the same record, or both
    null, for every page, fallback counter, noteId and serial number. *)
Theorem scraper_variants_agree {L : Libraries} :
  (forall sectionName questionNumber,
     getTagForQuestion_fast sectionName questionNumber
     = getTagForQuestion sectionName questionNumber) /\
  (forall sel page fallbackCounter noteId serialNumber,
     scrapeSingleQuestionPage_fast sel page fallbackCounter noteId serialNumber
     = scrapeSingleQuestionPage sel page fallbackCounter noteId serialNumber).
Proof.
  split.
  - intros. apply getTagForQuestion_fast_eq.
  - intros. apply scrapeSingleQuestionPage_fast_eq.
Qed.

(** ** Extraction of one question *)

Section ExtractionFacts.
Context {L : Libraries}.
Variable sel : ParserSelectors.

Lemma truthy_nonempty t : truthy t = true <-> t <> EmptyString.
Proof. destruct t; cbn; split; intros H; try reflexivity; try discriminate H; now elim H. Qed.

(** What a record returned by the scraper tells about the page. *)
Lemma scrapeSingleQuestionPage_some page fallbackCounter nid sn r :
  scrapeSingleQuestionPage sel page fallbackCounter nid sn = Some r ->
  let doc := load document page in
  let container := Cheerio.select doc (activeQuestionContainer sel) in
  let options := Cheerio.find doc container (optionContainer sel) in
  let i := Cheerio.index doc (Cheerio.filter options (by_class (correctOptionClass sel))) in
  container <> [] /\ options <> [] /\ Question r <> EmptyString /\
  noteId r = nid /\ SL r = sn /\
  Answer r = (if negb (i =? -1) then i + 1 else 0).
Proof.
  unfold scrapeSingleQuestionPage. cbv zeta.
  destruct (length (Cheerio.select _ _) =? 0)%nat eqn:Ec; [discriminate|].
  rewrite !sanitize_normal, all_sanitize_normal. cbn [Sanitizer.bind].
  rewrite length_map.
  match goal with
  | |- context [negb (truthy ?q) || _] => destruct (truthy q) eqn:Eq
  end; [|discriminate]. cbn [negb orb].
  match goal with
  | |- context [(length ?o =? 0)%nat] => destruct (length o =? 0)%nat eqn:Eo
  end; [discriminate|].
  intros H. injection H as <-. cbn [Question noteId SL Answer].
  refine (conj _ (conj _ (conj _ (conj eq_refl (conj eq_refl eq_refl))))).
  - intros E. rewrite E in Ec. discriminate Ec.
  - intros E. rewrite E in Eo. discriminate Eo.
  - now apply truthy_nonempty.
Qed.

Lemma scrapeSingleQuestionPage_no_option page fallbackCounter nid sn :
  Cheerio.find (load document page)
               (Cheerio.select (load document page) (activeQuestionContainer sel))
               (optionContainer sel) = [] ->
  scrapeSingleQuestionPage sel page fallbackCounter nid sn = None.
Proof.
  intros H.
  destruct (scrapeSingleQuestionPage sel page fallbackCounter nid sn) as [r|] eqn:E;
    [|reflexivity].
  apply scrapeSingleQuestionPage_some in E. cbv zeta in E. tauto.
Qed.

End ExtractionFacts.

(** C1, as the code has it.  A record is returned only for a page whose
    composed question HTML is not empty and whose active question container
    holds at least one option container; a page with no option container is
    rejected with null.  This holds for both variants.  Whether the options
    sanitize to something is not looked at. *)
Theorem record_has_question_and_option_container {L : Libraries} sel page fallbackCounter nid sn :
  let options :=
    Cheerio.find (load document page)
                 (Cheerio.select (load document page) (activeQuestionContainer sel))
                 (optionContainer sel) in
  (forall r, scrapeSingleQuestionPage sel page fallbackCounter nid sn = Some r ->
             Question r <> EmptyString /\ options <> []) /\
  (forall r, scrapeSingleQuestionPage_fast sel page fallbackCounter nid sn = Some r ->
             Question r <> EmptyString /\ options <> []) /\
  (options = [] ->
   scrapeSingleQuestionPage sel page fallbackCounter nid sn = None /\
   scrapeSingleQuestionPage_fast sel page fallbackCounter nid sn = None).
Proof.
  cbv zeta. refine (conj _ (conj _ _)).
  - intros r H. apply scrapeSingleQuestionPage_some in H. cbv zeta in H. tauto.
  - intros r H. rewrite scrapeSingleQuestionPage_fast_eq in H.
    apply scrapeSingleQuestionPage_some in H. cbv zeta in H. tauto.
  - intros H. rewrite scrapeSingleQuestionPage_fast_eq.
    split; now apply scrapeSingleQuestionPage_no_option.
Qed.

Lemma record_has_question_and_option_container_witness :
  exists r,
    @scrapeSingleQuestionPage Reference.libraries Examples.selectors
       Examples.page_with_four_options (Int 1) (Int 1000) (Int 1) = Some r /\
    Question r <> EmptyString.
Proof.
  eexists. split; [vm_compute; reflexivity|].
  apply (@record_has_question_and_option_container Reference.libraries Examples.selectors
           Examples.page_with_four_options (Int 1) (Int 1000) (Int 1)).
  vm_compute; reflexivity.
Defined.

(** C1, as stated, fails: the page below has two option containers, none
    with any text; the scraper returns a record in which the four options
    are null. *)
Lemma record_without_any_option :
  exists r,
    @scrapeSingleQuestionPage Reference.libraries Examples.selectors
       Examples.page_with_empty_options (Int 1) (Int 1000) (Int 1) = Some r /\
    OP1 r = None /\ OP2 r = None /\ OP3 r = None /\ OP4 r = None.
Proof. eexists. split; [vm_compute; reflexivity|]. cbn. auto. Qed.

(** ** The session *)

Section SessionFacts.
Context {L : Libraries}.
Variable sel : ParserSelectors.
Variable site : Session.Site.
Import Session.

Arguments scrapeSingleQuestionPage : simpl never.
Arguments scrapeSingleQuestionPage_fast : simpl never.
Arguments num_ge : simpl never.
Arguments num_add : simpl never.

(** One turn of the loop, on a page that answers: the record, if any, is
    pushed; then the three checks, in this order. *)
Lemma iteration_effect scrapeLimit commonTag s :
  let page := quiz site (position s) in
  let extracted :=
    scrapeSingleQuestionPage sel (snapshot page) (questionCounter s)
                             (noteIdCounter s) (serialNumberCounter s) in
  let data :=
    match extracted with
    | Some r => (allQuestionsData s ++ [tagged commonTag r])%list
    | None => allQuestionsData s
    end in
  let sl :=
    match extracted with
    | Some _ => num_add (serialNumberCounter s) (Int 1)
    | None => serialNumberCounter s
    end in
  let seen := [Clicked ViewSolution; Snapshot (position s)] in
  detached page = false ->
  detached (quiz site (S (position s))) = false ->
  iteration sel site scrapeLimit commonTag s =
    if num_ge (Int (Z.of_nat (length data))) scrapeLimit then
      (Returns false,
       after s (position s) data (questionCounter s) (noteIdCounter s) sl seen)
    else if negb (hasNext page) then
      (Returns false,
       after s (position s) data (questionCounter s) (noteIdCounter s) sl
             (seen ++ [AskedNext false]))
    else
      let last := saysLast (quiz site (S (position s))) in
      (Returns (negb last),
       after s (S (position s)) data (num_add (questionCounter s) (Int 1))
             (num_add (noteIdCounter s) (Int 1)) sl
             (seen ++ [AskedNext true; Clicked Next; AskedLast last])).
Proof.
  destruct s as [pos bc tc lg data0 qc nc sc ev]. cbn [position allQuestionsData
    questionCounter noteIdCounter serialNumberCounter]. cbv zeta. intros D0 D1.
  unfold iteration, click, clicked, evaluate, emit, set_locals, set_position, modify,
    get, bind, ret, throw, after, present.
  repeat (cbn; rewrite ?D0, ?D1).
  destruct (hasViewSolution (quiz site pos));
    repeat (cbn; rewrite ?D0, ?D1);
    (destruct (scrapeSingleQuestionPage sel _ qc nc sc) as [r|];
     repeat (cbn; rewrite ?D0, ?D1);
     (destruct (num_ge _ scrapeLimit); repeat (cbn; rewrite ?D0, ?D1);
      [rewrite <- ?app_assoc; reflexivity|]);
     (destruct (hasNext (quiz site pos)) eqn:N; repeat (cbn; rewrite ?D0, ?D1, ?N);
      [|rewrite <- ?app_assoc; reflexivity]);
     destruct (saysLast (quiz site (S pos))); cbn; rewrite <- ?app_assoc; reflexivity).
Qed.

Arguments tagged : simpl never.

Ltac run_session :=
  unfold iteration, iteration_fast, click, humanClick, clicked, evaluate, emit,
    set_locals, set_position, modify, get, bind, ret, throw, after, present;
  cbn.

(** Rewrite with the conditions already decided, and compute. *)
Ltac known :=
  repeat match goal with
         | H : ?b = true |- context [?b] => rewrite H
         | H : ?b = false |- context [?b] => rewrite H
         end.

Ltac simp := repeat (cbn; known).

(** Decide the conditions of a turn one after the other; [finish] closes
    each end of the turn. *)
Ltac crunch finish :=
  simp;
  first
    [ match goal with
      | |- context [if ?b then _ else _] => destruct b eqn:?; crunch finish
      end
    | finish ].

Lemma tagged_SL commonTag r : SL (tagged commonTag r) = SL r.
Proof. unfold tagged. destruct commonTag as [t|]; [destruct (truthy t)|]; reflexivity. Qed.

Lemma tagged_noteId commonTag r : noteId (tagged commonTag r) = noteId r.
Proof. unfold tagged. destruct commonTag as [t|]; [destruct (truthy t)|]; reflexivity. Qed.

Ltac finish_turn :=
  split;
  [ first [ left; split; reflexivity
          | right; eexists; split; [|split; reflexivity]; rewrite tagged_SL; assumption ]
  | first [ discriminate | intros _; reflexivity ] ].

Lemma iteration_pushes scrapeLimit commonTag s :
  pushes (serialNumberCounter s) s (snd (iteration sel site scrapeLimit commonTag s)) /\
  (fst (iteration sel site scrapeLimit commonTag s) = Returns true ->
   num_ge (Int (Z.of_nat (length (allQuestionsData
             (snd (iteration sel site scrapeLimit commonTag s)))))) scrapeLimit = false).
Proof.
  destruct s as [pos bc tc lg data0 qc nc sc ev]. unfold pushes.
  cbn [position allQuestionsData questionCounter noteIdCounter serialNumberCounter].
  run_session.
  destruct (detached (quiz site pos)) eqn:D0; simp; [finish_turn|].
  destruct (hasViewSolution (quiz site pos)) eqn:V; simp;
    (destruct (scrapeSingleQuestionPage sel _ qc nc sc) as [r|] eqn:Er; simp;
     [ apply scrapeSingleQuestionPage_some in Er; cbv zeta in Er;
       destruct Er as (_ & _ & _ & _ & Hsl & _);
       crunch finish_turn
     | crunch finish_turn ]).
Qed.

Lemma iteration_fast_pushes scrapeLimit commonTag s :
  pushes (serialNumberCounter s) s (snd (iteration_fast sel site scrapeLimit commonTag s)) /\
  (fst (iteration_fast sel site scrapeLimit commonTag s) = Returns true ->
   num_ge (Int (Z.of_nat (length (allQuestionsData
             (snd (iteration_fast sel site scrapeLimit commonTag s)))))) scrapeLimit = false).
Proof.
  destruct s as [pos bc tc lg data0 qc nc sc ev]. unfold pushes.
  cbn [position allQuestionsData questionCounter noteIdCounter serialNumberCounter].
  run_session.
  destruct (detached (quiz site pos)) eqn:D0; simp; [finish_turn|].
  destruct (hasViewSolution (quiz site pos)) eqn:V; simp; [|finish_turn].
  destruct (scrapeSingleQuestionPage_fast sel _ qc nc sc) as [r|] eqn:Er; simp.
  - rewrite scrapeSingleQuestionPage_fast_eq in Er.
    apply scrapeSingleQuestionPage_some in Er. cbv zeta in Er.
    destruct Er as (_ & _ & _ & _ & Hsl & _).
    crunch finish_turn.
  - crunch finish_turn.
Qed.

(** The same turn in the second variant, where the page must also show the
    View Solution button. *)
Lemma iteration_fast_effect scrapeLimit commonTag s :
  let page := quiz site (position s) in
  let extracted :=
    scrapeSingleQuestionPage sel (snapshot page) (questionCounter s)
                             (noteIdCounter s) (serialNumberCounter s) in
  let data :=
    match extracted with
    | Some r => (allQuestionsData s ++ [tagged commonTag r])%list
    | None => allQuestionsData s
    end in
  let sl :=
    match extracted with
    | Some _ => num_add (serialNumberCounter s) (Int 1)
    | None => serialNumberCounter s
    end in
  let seen := [Clicked ViewSolution; Snapshot (position s)] in
  detached page = false ->
  hasViewSolution page = true ->
  detached (quiz site (S (position s))) = false ->
  iteration_fast sel site scrapeLimit commonTag s =
    if num_ge (Int (Z.of_nat (length data))) scrapeLimit then
      (Returns false,
       after s (position s) data (questionCounter s) (noteIdCounter s) sl seen)
    else if negb (hasNext page) then
      (Returns false,
       after s (position s) data (questionCounter s) (noteIdCounter s) sl
             (seen ++ [AskedNext false]))
    else
      let last := saysLast (quiz site (S (position s))) in
      (Returns (negb last),
       after s (S (position s)) data (num_add (questionCounter s) (Int 1))
             (num_add (noteIdCounter s) (Int 1)) sl
             (seen ++ [AskedNext true; Clicked Next; AskedLast last])).
Proof.
  destruct s as [pos bc tc lg data0 qc nc sc ev]. cbn [position allQuestionsData
    questionCounter noteIdCounter serialNumberCounter]. cbv zeta. intros D0 V D1.
  run_session.
  repeat (cbn; rewrite ?D0, ?D1, ?V).
  rewrite scrapeSingleQuestionPage_fast_eq.
  destruct (scrapeSingleQuestionPage sel _ qc nc sc) as [r|];
    repeat (cbn; rewrite ?D0, ?D1, ?V);
    (destruct (num_ge _ scrapeLimit); repeat (cbn; rewrite ?D0, ?D1, ?V);
     [rewrite <- ?app_assoc; reflexivity|]);
    (destruct (hasNext (quiz site pos)) eqn:N; repeat (cbn; rewrite ?D0, ?D1, ?V, ?N);
     [|rewrite <- ?app_assoc; reflexivity]);
    destruct (saysLast (quiz site (S pos))); cbn; rewrite <- ?app_assoc; reflexivity.
Qed.

(** *** The loop *)

Lemma serials_S n : serials (S n) = (serials n ++ [Int (Z.of_nat (S n))])%list.
Proof. unfold serials. rewrite seq_S, map_app. reflexivity. Qed.

Lemma pushes_serials s s' :
  serials_ok s -> pushes (serialNumberCounter s) s s' -> serials_ok s'.
Proof.
  intros [Hm Hs] [[Hd Hc] | (d & Hd & Ha & Hc)]; unfold serials_ok.
  - now rewrite Hd, Hc.
  - rewrite Ha, Hc, map_app, length_app, Hm. cbn [map length].
    rewrite Hd, Hs, Nat.add_1_r, serials_S. split; [reflexivity|].
    unfold num_add. f_equal. lia.
Qed.

Section Loop.
Variable body : M bool.
Variable scrapeLimit : number.
Hypothesis body_pushes : forall s,
  pushes (serialNumberCounter s) s (snd (body s)) /\
  (fst (body s) = Returns true ->
   num_ge (Int (Z.of_nat (length (allQuestionsData (snd (body s)))))) scrapeLimit = false).

Lemma while_true_unfold fuel s :
  while_true (S fuel) body s =
  match body s with
  | (Returns true, s') => while_true fuel body s'
  | (Returns false, s') => (Returns tt, s')
  | (Throws e, s') => (Throws e, s')
  | (Exits c, s') => (Exits c, s')
  | (Diverges, s') => (Diverges, s')
  end.
Proof.
  cbn [while_true]. unfold bind. destruct (body s) as [[[|]| | |] s']; reflexivity.
Qed.

Lemma while_true_serials fuel : forall s,
  serials_ok s -> serials_ok (snd (while_true fuel body s)).
Proof.
  induction fuel as [|fuel IH]; intros s Hs; [exact Hs|].
  rewrite while_true_unfold.
  pose proof (body_pushes s) as [Hp _]. apply (pushes_serials _ _ Hs) in Hp.
  destruct (body s) as [[[|]| | |] s']; cbn [snd] in *; auto.
Qed.

Lemma while_true_extends fuel : forall s,
  exists more,
    allQuestionsData (snd (while_true fuel body s)) = (allQuestionsData s ++ more)%list.
Proof.
  induction fuel as [|fuel IH]; intros s; [exists []; cbn; now rewrite app_nil_r|].
  rewrite while_true_unfold.
  pose proof (body_pushes s) as [Hp _].
  assert (E : exists more, allQuestionsData (snd (body s)) = (allQuestionsData s ++ more)%list).
  { destruct Hp as [[Hd _] | (d & _ & Ha & _)].
    - exists []. now rewrite app_nil_r.
    - now exists [d]. }
  destruct (body s) as [[[|]| | |] s']; cbn [snd] in *; auto.
  destruct E as [m1 E1]. destruct (IH s') as [m2 E2].
  exists (m1 ++ m2)%list. now rewrite E2, E1, app_assoc.
Qed.

Lemma while_true_bound N fuel : forall s,
  scrapeLimit = Int N ->
  (Z.of_nat (length (allQuestionsData s)) < N) ->
  Z.of_nat (length (allQuestionsData (snd (while_true fuel body s)))) <= N.
Proof.
  intros s HN. revert s.
  induction fuel as [|fuel IH]; intros s Hs; [cbn; lia|].
  rewrite while_true_unfold.
  pose proof (body_pushes s) as [Hp Hc].
  assert (E : Z.of_nat (length (allQuestionsData (snd (body s)))) <= N).
  { destruct Hp as [[Hd _] | (d & _ & Ha & _)].
    - rewrite Hd. lia.
    - rewrite Ha, length_app. cbn [length]. lia. }
  destruct (body s) as [[[|]| | |] s']; cbn [snd fst] in *; auto.
  apply IH. specialize (Hc eq_refl). rewrite HN in Hc.
  unfold num_ge, num_le in Hc. apply Z.leb_gt in Hc. exact Hc.
Qed.

End Loop.

(** The record of a page that answers is pushed, whatever comes after. *)
Lemma iteration_first scrapeLimit commonTag s r :
  detached (quiz site (position s)) = false ->
  scrapeSingleQuestionPage sel (snapshot (quiz site (position s))) (questionCounter s)
                           (noteIdCounter s) (serialNumberCounter s) = Some r ->
  allQuestionsData (snd (iteration sel site scrapeLimit commonTag s))
  = (allQuestionsData s ++ [tagged commonTag r])%list.
Proof.
  destruct s as [pos bc tc lg data0 qc nc sc ev].
  cbn [position allQuestionsData questionCounter noteIdCounter serialNumberCounter].
  intros D0 Er. run_session. simp.
  destruct (hasViewSolution (quiz site pos)); simp;
    rewrite Er; crunch ltac:(reflexivity).
Qed.

Lemma iteration_fast_first scrapeLimit commonTag s r :
  detached (quiz site (position s)) = false ->
  hasViewSolution (quiz site (position s)) = true ->
  scrapeSingleQuestionPage sel (snapshot (quiz site (position s))) (questionCounter s)
                           (noteIdCounter s) (serialNumberCounter s) = Some r ->
  allQuestionsData (snd (iteration_fast sel site scrapeLimit commonTag s))
  = (allQuestionsData s ++ [tagged commonTag r])%list.
Proof.
  destruct s as [pos bc tc lg data0 qc nc sc ev].
  cbn [position allQuestionsData questionCounter noteIdCounter serialNumberCounter].
  intros D0 V Er. rewrite <- scrapeSingleQuestionPage_fast_eq in Er.
  run_session. simp. rewrite Er. crunch ltac:(reflexivity).
Qed.

Lemma harvest_unfold fuel questionsToSkip scrapeLimit commonTag s0 :
  harvest sel site fuel questionsToSkip scrapeLimit commonTag s0
  = while_true fuel (iteration sel site scrapeLimit commonTag)
               (loop_start questionsToSkip s0).
Proof.
  unfold harvest, harvesting, loop_start, after, set_locals, modify, bind.
  now rewrite app_nil_r.
Qed.

Lemma harvest_fast_unfold fuel skipCount scrapeLimit commonTag s0 :
  harvest_fast sel site fuel skipCount scrapeLimit commonTag s0
  = while_true fuel (iteration_fast sel site scrapeLimit commonTag)
               (loop_start skipCount s0).
Proof.
  unfold harvest_fast, harvesting_fast, loop_start, after, set_locals, modify, bind.
  now rewrite app_nil_r.
Qed.

Lemma loop_start_serials questionsToSkip s0 : serials_ok (loop_start questionsToSkip s0).
Proof. split; reflexivity. Qed.

(** The first record of the loop is the record of the first page. *)
Lemma while_true_first body scrapeLimit fuel s d :
  (forall s,
     pushes (serialNumberCounter s) s (snd (body s)) /\
     (fst (body s) = Returns true ->
      num_ge (Int (Z.of_nat (length (allQuestionsData (snd (body s)))))) scrapeLimit
      = false)) ->
  allQuestionsData s = [] ->
  allQuestionsData (snd (body s)) = [d] ->
  exists rest, allQuestionsData (snd (while_true (S fuel) body s)) = d :: rest.
Proof.
  intros Hb Hs Hd. rewrite while_true_unfold.
  destruct (body s) as [[[|]| | |] s'] eqn:E; cbn [snd] in *;
    try (exists []; exact Hd).
  destruct (while_true_extends body scrapeLimit Hb fuel s') as [more Hm].
  exists more. now rewrite Hm, Hd.
Qed.

(** A turn that reaches the limit ends the loop before anything is asked
    about the Next control. *)
Lemma iteration_reached scrapeLimit commonTag s r :
  detached (quiz site (position s)) = false ->
  scrapeSingleQuestionPage sel (snapshot (quiz site (position s))) (questionCounter s)
                           (noteIdCounter s) (serialNumberCounter s) = Some r ->
  num_ge (Int (Z.of_nat (length (allQuestionsData s ++ [tagged commonTag r]))))
         scrapeLimit = true ->
  iteration sel site scrapeLimit commonTag s
  = (Returns false,
     after s (position s) (allQuestionsData s ++ [tagged commonTag r])
           (questionCounter s) (noteIdCounter s)
           (num_add (serialNumberCounter s) (Int 1))
           [Clicked ViewSolution; Snapshot (position s)]).
Proof.
  destruct s as [pos bc tc lg data0 qc nc sc ev].
  cbn [position allQuestionsData questionCounter noteIdCounter serialNumberCounter].
  intros D0 Er G. run_session. simp.
  destruct (hasViewSolution (quiz site pos)); simp;
    rewrite Er; simp; rewrite <- ?app_assoc; reflexivity.
Qed.

Lemma iteration_fast_reached scrapeLimit commonTag s r :
  detached (quiz site (position s)) = false ->
  hasViewSolution (quiz site (position s)) = true ->
  scrapeSingleQuestionPage sel (snapshot (quiz site (position s))) (questionCounter s)
                           (noteIdCounter s) (serialNumberCounter s) = Some r ->
  num_ge (Int (Z.of_nat (length (allQuestionsData s ++ [tagged commonTag r]))))
         scrapeLimit = true ->
  iteration_fast sel site scrapeLimit commonTag s
  = (Returns false,
     after s (position s) (allQuestionsData s ++ [tagged commonTag r])
           (questionCounter s) (noteIdCounter s)
           (num_add (serialNumberCounter s) (Int 1))
           [Clicked ViewSolution; Snapshot (position s)]).
Proof.
  destruct s as [pos bc tc lg data0 qc nc sc ev].
  cbn [position allQuestionsData questionCounter noteIdCounter serialNumberCounter].
  intros D0 V Er G. rewrite <- scrapeSingleQuestionPage_fast_eq in Er.
  run_session. simp. rewrite Er. simp.
  rewrite <- ?app_assoc. reflexivity.
Qed.

(** The checks of a turn, read off its result. *)
Lemma iteration_checks scrapeLimit commonTag s :
  detached (quiz site (position s)) = false ->
  detached (quiz site (S (position s))) = false ->
  let r := iteration sel site scrapeLimit commonTag s in
  let checks :=
    termination_checks
      (num_ge (Int (Z.of_nat (length (allQuestionsData (snd r))))) scrapeLimit)
      (hasNext (quiz site (position s)))
      (saysLast (quiz site (S (position s)))) in
  fst r = Returns (fst checks) /\
  events (snd r)
  = (events s ++ [Clicked ViewSolution; Snapshot (position s)] ++ snd checks)%list.
Proof.
  intros D0 D1. cbv zeta. rewrite (iteration_effect scrapeLimit commonTag s D0 D1).
  cbv zeta. unfold termination_checks.
  destruct (num_ge _ scrapeLimit) eqn:G; cbn [snd fst after allQuestionsData events].
  - rewrite G. split; reflexivity.
  - destruct (hasNext (quiz site (position s)));
      cbn [negb snd fst after allQuestionsData events]; rewrite G; split; reflexivity.
Qed.

Lemma iteration_fast_checks scrapeLimit commonTag s :
  detached (quiz site (position s)) = false ->
  hasViewSolution (quiz site (position s)) = true ->
  detached (quiz site (S (position s))) = false ->
  let r := iteration_fast sel site scrapeLimit commonTag s in
  let checks :=
    termination_checks
      (num_ge (Int (Z.of_nat (length (allQuestionsData (snd r))))) scrapeLimit)
      (hasNext (quiz site (position s)))
      (saysLast (quiz site (S (position s)))) in
  fst r = Returns (fst checks) /\
  events (snd r)
  = (events s ++ [Clicked ViewSolution; Snapshot (position s)] ++ snd checks)%list.
Proof.
  intros D0 V D1. cbv zeta. rewrite (iteration_fast_effect scrapeLimit commonTag s D0 V D1).
  cbv zeta. unfold termination_checks.
  destruct (num_ge _ scrapeLimit) eqn:G; cbn [snd fst after allQuestionsData events].
  - rewrite G. split; reflexivity.
  - destruct (hasNext (quiz site (position s)));
      cbn [negb snd fst after allQuestionsData events]; rewrite G; split; reflexivity.
Qed.

End SessionFacts.

(** ** Release of the connections *)

Section Release.
Context {L : Libraries}.
Variable sel : ParserSelectors.
Variable site : Session.Site.
Import Session.

Lemma keeps_ret {A : Type} I (a : A) : keeps I (ret a).
Proof. intros s H; exact H. Qed.

Lemma keeps_throw {A : Type} I e : keeps I (@throw A e).
Proof. intros s H; exact H. Qed.

Lemma keeps_exit {A : Type} I c : keeps I (@process_exit A c).
Proof. intros s H; exact H. Qed.

Lemma keeps_diverge {A : Type} I : keeps I (@diverge A).
Proof. intros s H; exact H. Qed.

Lemma keeps_get I : keeps I get.
Proof. intros s H; exact H. Qed.

Lemma keeps_modify I f : (forall s, I s -> I (f s)) -> keeps I (modify f).
Proof. intros Hf s H. now apply Hf. Qed.

Lemma keeps_bind {A B : Type} I (m : M A) (k : A -> M B) :
  keeps I m -> (forall a, keeps I (k a)) -> keeps I (bind m k).
Proof.
  intros Hm Hk s H. unfold bind. specialize (Hm s H).
  destruct (m s) as [[a|e|c|] s']; cbn [snd] in *; auto. now apply Hk.
Qed.

Lemma keeps_try_catch {A : Type} I (body : M A) handler :
  keeps I body -> (forall e, keeps I (handler e)) -> keeps I (try_catch body handler).
Proof.
  intros Hb Hh s H. unfold try_catch. specialize (Hb s H).
  destruct (body s) as [[a|e|c|] s']; cbn [snd] in *; auto. now apply Hh.
Qed.

Lemma keeps_while I fuel (body : M bool) : keeps I body -> keeps I (while_true fuel body).
Proof.
  intros Hb. induction fuel as [|fuel IH]; [apply keeps_diverge|].
  cbn [while_true]. apply keeps_bind; [exact Hb|].
  intros [|]; [exact IH | apply keeps_ret].
Qed.

Section Traces.
Variable P : event -> Prop.
Hypothesis P_observed : forall e, observed e -> P e.

Lemma keeps_emit e : P e -> keeps (only P) (emit e).
Proof.
  intros He. apply keeps_modify. intros s H e' Hin. cbn in Hin.
  apply in_app_or in Hin. destruct Hin as [Hin | [E | []]]; [now apply H|].
  now rewrite <- E.
Qed.

Lemma keeps_set_handle r h : keeps (only P) (set_handle r h).
Proof. apply keeps_modify. intros s H. exact H. Qed.

Lemma keeps_set_position n : keeps (only P) (set_position n).
Proof. apply keeps_modify. intros s H. exact H. Qed.

Lemma keeps_set_locals d q n sl : keeps (only P) (set_locals d q n sl).
Proof. apply keeps_modify. intros s H. exact H. Qed.

Lemma keeps_evaluate {A : Type} (read : QuizPage -> A) :
  keeps (only P) (evaluate site read).
Proof.
  unfold evaluate. apply keeps_bind; [apply keeps_get|]. intros s.
  destruct (detached _); [apply keeps_throw | apply keeps_ret].
Qed.

Ltac keeps_step :=
  first
    [ apply keeps_ret | apply keeps_throw | apply keeps_exit | apply keeps_diverge
    | apply keeps_get | apply keeps_set_handle | apply keeps_set_position
    | apply keeps_set_locals | apply keeps_evaluate
    | apply keeps_emit; apply P_observed; exact I
    | apply keeps_bind; [|intros ?]
    | apply keeps_try_catch; [|intros ?]
    | apply keeps_while
    | match goal with
      | |- keeps _ (if ?b then _ else _) => destruct b
      | |- keeps _ (match ?x with _ => _ end) => destruct x
      end ].

Lemma keeps_clicked b : keeps (only P) (clicked b).
Proof. unfold clicked. repeat keeps_step. Qed.

Lemma keeps_click b : keeps (only P) (click site b).
Proof. unfold click. repeat keeps_step. Qed.

Lemma keeps_humanClick b : keeps (only P) (humanClick site b).
Proof. unfold humanClick. repeat keeps_step. Qed.

Lemma keeps_navigate left : forall i, keeps (only P) (navigate site left i).
Proof.
  induction left as [|left IH]; intros i; cbn [navigate]; [apply keeps_ret|].
  repeat keeps_step; try apply IH.
Qed.

Lemma keeps_waitForSelector a t : keeps (only P) (waitForSelector site a t).
Proof. unfold waitForSelector. repeat keeps_step. Qed.

Lemma keeps_skipping fuel : forall i n, keeps (only P) (skipping site fuel i n).
Proof.
  induction fuel as [|fuel IH]; intros i n; cbn [skipping]; [apply keeps_diverge|].
  repeat keeps_step; try apply IH.
Qed.

Lemma keeps_skipping_fast fuel : forall i n, keeps (only P) (skipping_fast site fuel i n).
Proof.
  induction fuel as [|fuel IH]; intros i n; cbn [skipping_fast]; [apply keeps_diverge|].
  repeat keeps_step; try apply IH.
Qed.

Lemma keeps_iteration limit t : keeps (only P) (iteration sel site limit t).
Proof. unfold iteration. repeat keeps_step. Qed.

Lemma keeps_iteration_fast limit t : keeps (only P) (iteration_fast sel site limit t).
Proof. unfold iteration_fast. repeat keeps_step. Qed.

Lemma keeps_harvest fuel k limit t : keeps (only P) (harvest sel site fuel k limit t).
Proof. unfold harvest, harvesting. repeat keeps_step; try apply keeps_iteration. Qed.

Lemma keeps_harvest_fast fuel k limit t :
  keeps (only P) (harvest_fast sel site fuel k limit t).
Proof.
  unfold harvest_fast, harvesting_fast. repeat keeps_step; try apply keeps_iteration_fast.
Qed.

(** The file holds the records with which the loop has ended. *)
Lemma keeps_saving (Q : Sys -> Prop) (h : M unit) name :
  keeps (only P) h ->
  (forall s, Q (snd (h s))) ->
  (forall s f, Q s -> P (Saved f (allQuestionsData s))) ->
  keeps (only P) (bind h (fun _ => save name)).
Proof.
  intros Hk HQ HP s H. unfold bind.
  specialize (Hk s H). specialize (HQ s).
  destruct (h s) as [[[]|e|c|] s1]; cbn [snd] in *; try exact Hk.
  unfold save, get, bind, ret, emit, modify.
  destruct (0 <? length (allQuestionsData s1))%nat; cbn [snd]; [|exact Hk].
  intros e Hin. cbn in Hin. apply in_app_or in Hin.
  destruct Hin as [Hin | [<- | []]]; [now apply Hk | now apply HP].
Qed.

Lemma keeps_cleanup : (forall r, P (Closed r)) -> keeps (only P) cleanup.
Proof.
  intros Hc. unfold cleanup, close_if_defined.
  repeat first [ apply keeps_emit; apply Hc | keeps_step ].
Qed.

(** What [main] does before it writes the file, given what the last two
    phases do. *)
Lemma keeps_main fuel o :
  (forall r, P (Closed r)) ->
  (forall name,
     keeps (only P)
           (bind (harvest sel site fuel (parseInt (skip o)) (scrape_limit o) (tag o))
                 (fun _ => save name))) ->
  keeps (only P) (main sel site fuel o).
Proof.
  intros Hc Hs. unfold main.
  destruct (negb (is_set (link o))); [apply keeps_exit|].
  unfold try_finally, acquire. intros s H.
  match goal with
  | |- context [try_catch ?b ?h s] =>
      assert (K : keeps (only P) (try_catch b h));
      [ | specialize (K s H); destruct (try_catch b h s) as [[a|e|c|] s'] ]
  end; cbn [snd] in *; try exact K.
  - repeat first [ apply Hs | apply keeps_navigate | apply keeps_waitForSelector
                 | apply keeps_click | apply keeps_skipping | keeps_step ].
  - apply (keeps_bind _ _ _ (keeps_cleanup Hc) (fun _ => keeps_ret _ a) s' K).
  - apply (keeps_bind _ _ _ (keeps_cleanup Hc) (fun _ => keeps_throw _ e) s' K).
Qed.

Lemma keeps_main_fast fuel o :
  (forall r, P (Closed r)) ->
  (forall name,
     keeps (only P)
           (bind (harvest_fast sel site fuel (parseInt (skip o)) (scrape_limit o) (tag o))
                 (fun _ => save name))) ->
  keeps (only P) (main_fast sel site fuel o).
Proof.
  intros Hc Hs. unfold main_fast.
  destruct (negb (is_set (link o))); [apply keeps_exit|].
  unfold try_finally, acquire. intros s H.
  match goal with
  | |- context [try_catch ?b ?h s] =>
      assert (K : keeps (only P) (try_catch b h));
      [ | specialize (K s H); destruct (try_catch b h s) as [[a|e|c|] s'] ]
  end; cbn [snd] in *; try exact K.
  - repeat first [ apply Hs | apply keeps_navigate | apply keeps_waitForSelector
                 | apply keeps_humanClick | apply keeps_skipping_fast | keeps_step ].
  - apply (keeps_bind _ _ _ (keeps_cleanup Hc) (fun _ => keeps_ret _ a) s' K).
  - apply (keeps_bind _ _ _ (keeps_cleanup Hc) (fun _ => keeps_throw _ e) s' K).
Qed.

End Traces.

Lemma cleanup_returns s : fst (cleanup s) = Returns tt.
Proof.
  unfold cleanup, close_if_defined, set_handle, emit, modify, get, bind, ret, handle_of.
  destruct s as [pos [bc|] [tc|] [lg|] d q n sl ev]; reflexivity.
Qed.

Lemma none_closed_only s : none_closed s <-> only opens_or_observes s.
Proof.
  split.
  - intros H [ | r | | | | | | ] Hin; cbn; auto. exact (H r Hin).
  - intros H r Hin. exact (H _ Hin).
Qed.

Lemma observed_opens e : observed e -> opens_or_observes e.
Proof. destruct e; cbn; auto. Qed.

(** Whenever [main] ends in [process.exit], nothing has been closed: the
    block after [finally] has not run. *)
Lemma main_exit_closes_nothing fuel o s0 code :
  none_closed s0 ->
  fst (main sel site fuel o s0) = Exits code ->
  none_closed (snd (main sel site fuel o s0)).
Proof.
  intros H0. unfold main.
  destruct (negb (is_set (link o))); [intros _; exact H0|].
  unfold try_finally.
  match goal with
  | |- context [try_catch ?b ?h s0] =>
      assert (K : keeps (only opens_or_observes) (try_catch b h));
      [ | apply none_closed_only in H0; specialize (K s0 H0);
          destruct (try_catch b h s0) as [[a|e|c|] s'] ]
  end.
  - pose proof observed_opens as Ho. unfold acquire.
    repeat first
      [ apply keeps_navigate | apply keeps_waitForSelector | apply keeps_click
      | apply keeps_skipping | apply keeps_harvest | apply keeps_evaluate
      | apply keeps_emit; exact I
      | apply keeps_ret | apply keeps_throw | apply keeps_exit | apply keeps_get
      | apply keeps_set_handle
      | apply keeps_bind; [|intros ?]
      | apply keeps_try_catch; [|intros ?]
      | match goal with
        | |- keeps _ (if ?b then _ else _) => destruct b
        | |- keeps _ (match ?x with _ => _ end) => destruct x
        end
      | exact Ho ].
  - unfold bind. pose proof (cleanup_returns s') as C.
    destruct (cleanup s') as [[[]|?|?|] s'']; cbn in C; try discriminate C.
    cbn. discriminate.
  - unfold bind. pose proof (cleanup_returns s') as C.
    destruct (cleanup s') as [[[]|?|?|] s'']; cbn in C; try discriminate C.
    cbn. discriminate.
  - intros _. apply none_closed_only. exact K.
  - cbn. discriminate.
Qed.

Lemma observed_numbered e : observed e -> well_numbered e.
Proof. destruct e; cbn; auto; contradiction. Qed.

Lemma observed_within N e : observed e -> within_limit N e.
Proof. destruct e; cbn; auto; contradiction. Qed.

(** The file [main] writes holds records numbered 1, 2, ... *)
Lemma main_saves_numbered fuel o s0 :
  only well_numbered s0 ->
  only well_numbered (snd (main sel site fuel o s0)) /\
  only well_numbered (snd (main_fast sel site fuel o s0)).
Proof.
  intros H. split.
  - apply keeps_main; auto using observed_numbered.
    + intros r. exact I.
    + intros name. apply (keeps_saving well_numbered serials_ok).
      * apply keeps_harvest, observed_numbered.
      * intros s. rewrite harvest_unfold.
        apply (while_true_serials _ _ (iteration_pushes sel site _ _)), loop_start_serials.
      * intros s f [Hs _]. exact Hs.
  - apply keeps_main_fast; auto using observed_numbered.
    + intros r. exact I.
    + intros name. apply (keeps_saving well_numbered serials_ok).
      * apply keeps_harvest_fast, observed_numbered.
      * intros s. rewrite harvest_fast_unfold.
        apply (while_true_serials _ _ (iteration_fast_pushes sel site _ _)),
          loop_start_serials.
      * intros s f [Hs _]. exact Hs.
Qed.

(** The file [main] writes holds at most as many records as the limit says,
    when the limit is at least 1. *)
Lemma main_saves_within_limit fuel o N s0 :
  scrape_limit o = Int N -> 1 <= N ->
  only (within_limit N) s0 ->
  only (within_limit N) (snd (main sel site fuel o s0)) /\
  only (within_limit N) (snd (main_fast sel site fuel o s0)).
Proof.
  intros HN H1 H. split.
  - apply keeps_main; auto using observed_within.
    + intros r. exact I.
    + intros name.
      apply (keeps_saving (within_limit N)
               (fun s => Z.of_nat (length (allQuestionsData s)) <= N)).
      * apply keeps_harvest, observed_within.
      * intros s. rewrite harvest_unfold, HN.
        apply (while_true_bound _ (Int N) (iteration_pushes sel site (Int N) _));
          [reflexivity | cbn; lia].
      * intros s f Hs. exact Hs.
  - apply keeps_main_fast; auto using observed_within.
    + intros r. exact I.
    + intros name.
      apply (keeps_saving (within_limit N)
               (fun s => Z.of_nat (length (allQuestionsData s)) <= N)).
      * apply keeps_harvest_fast, observed_within.
      * intros s. rewrite harvest_fast_unfold, HN.
        apply (while_true_bound _ (Int N) (iteration_fast_pushes sel site (Int N) _));
          [reflexivity | cbn; lia].
      * intros s f Hs. exact Hs.
Qed.

End Release.

(** C2 fails on the code.  When the title of the exam never appears, [main]
    ends in [process.exit(1)] from inside [try]: the block after [finally]
    does not run, and the connections to the tab and to the browser are
    still open when the process ends.  The same happens when every attempt
    to navigate fails and the exception reaches [catch], which exits as
    well.  On a session that ends normally the three are released. *)
Theorem fatal_exit_skips_cleanup :
  let fatal :=
    @Session.main Reference.libraries Examples.selectors Examples.site_without_title 10
      (Examples.command_line None "0") Session.start in
  let uncaught :=
    @Session.main Reference.libraries Examples.selectors Examples.site_unreachable_page 10
      (Examples.command_line None "0") Session.start in
  let normal :=
    @Session.main Reference.libraries Examples.selectors Examples.site 10
      (Examples.command_line None "0") Session.start in
  (fst fatal = Session.Exits 1 /\
   Session.tabClient (snd fatal) = Some Session.Live /\
   Session.browserClient (snd fatal) = Some Session.Live /\
   forall r, ~ In (Session.Closed r) (Session.events (snd fatal))) /\
  (fst uncaught = Session.Exits 1 /\
   Session.tabClient (snd uncaught) = Some Session.Live /\
   Session.browserClient (snd uncaught) = Some Session.Live /\
   forall r, ~ In (Session.Closed r) (Session.events (snd uncaught))) /\
  (fst normal = Session.Returns tt /\
   Session.tabClient (snd normal) = Some Session.Released /\
   Session.browserClient (snd normal) = Some Session.Released /\
   Session.logger (snd normal) = Some Session.Released).
Proof.
  cbv zeta. refine (conj _ (conj _ _)).
  - refine (conj _ (conj _ (conj _ _))); try (vm_compute; reflexivity).
    apply main_exit_closes_nothing with (code := 1);
      [intros r [] | vm_compute; reflexivity].
  - refine (conj _ (conj _ (conj _ _))); try (vm_compute; reflexivity).
    apply main_exit_closes_nothing with (code := 1);
      [intros r [] | vm_compute; reflexivity].
  - refine (conj _ (conj _ (conj _ _))); vm_compute; reflexivity.
Qed.

(** ** Serial numbers and the limit *)

(** C5. Whenever the scraping loop stops, or is stopped, the SL values of
    the records collected are 1, 2, 3, ... in the order of collection, and
    the serial counter is one more than their number: only a page that
    yields a record takes a serial number.  When the first page read yields
    a record, that record is the first one collected, its noteId is
    1000 + s for the skip count s, and its SL is 1.  The records of the file
    a session writes are numbered 1, 2, 3, ... as well.  Both variants. *)
Theorem serial_numbers_follow_successes {L : Libraries} sel site fuel
    questionsToSkip scrapeLimit commonTag s0 :
  let first := Session.quiz site (Session.position s0) in
  let extracted :=
    scrapeSingleQuestionPage sel (Session.snapshot first)
      (num_add questionsToSkip (Int 1)) (num_add (Int 1000) questionsToSkip) (Int 1) in
  let s := snd (Session.harvest sel site fuel questionsToSkip scrapeLimit commonTag s0) in
  let s_fast :=
    snd (Session.harvest_fast sel site fuel questionsToSkip scrapeLimit commonTag s0) in
  (map SL (Session.allQuestionsData s) = serials (length (Session.allQuestionsData s)) /\
   Session.serialNumberCounter s
   = Int (Z.of_nat (S (length (Session.allQuestionsData s))))) /\
  (map SL (Session.allQuestionsData s_fast)
   = serials (length (Session.allQuestionsData s_fast)) /\
   Session.serialNumberCounter s_fast
   = Int (Z.of_nat (S (length (Session.allQuestionsData s_fast))))) /\
  (forall r,
     (1 <= fuel)%nat -> Session.detached first = false -> extracted = Some r ->
     noteId (Session.tagged commonTag r) = num_add (Int 1000) questionsToSkip /\
     SL (Session.tagged commonTag r) = Int 1 /\
     (exists rest, Session.allQuestionsData s = Session.tagged commonTag r :: rest) /\
     (Session.hasViewSolution first = true ->
      exists rest, Session.allQuestionsData s_fast = Session.tagged commonTag r :: rest)) /\
  (forall o file data,
     (forall f d, ~ In (Session.Saved f d) (Session.events s0)) ->
     In (Session.Saved file data)
        (Session.events (snd (Session.main sel site fuel o s0))) \/
     In (Session.Saved file data)
        (Session.events (snd (Session.main_fast sel site fuel o s0))) ->
     map SL data = serials (length data)).
Proof.
  cbv zeta. rewrite harvest_unfold, harvest_fast_unfold.
  refine (conj _ (conj _ (conj _ _))); cycle 3.
  { intros o file data H0 Hin.
    assert (W : only well_numbered s0).
    { intros e He. destruct e; cbn; auto. elim (H0 _ _ He). }
    destruct (main_saves_numbered sel site fuel o s0 W) as [W1 W2].
    destruct Hin as [Hin|Hin]; [exact (W1 _ Hin) | exact (W2 _ Hin)]. }
  - apply (while_true_serials _ scrapeLimit (iteration_pushes sel site scrapeLimit commonTag)).
    apply loop_start_serials.
  - apply (while_true_serials _ scrapeLimit
             (iteration_fast_pushes sel site scrapeLimit commonTag)).
    apply loop_start_serials.
  - intros r Hf D0 Er.
    destruct fuel as [|fuel]; [inversion Hf|].
    pose proof (scrapeSingleQuestionPage_some sel _ _ _ _ _ Er) as Hr.
    cbv zeta in Hr. destruct Hr as (_ & _ & _ & Hn & Hs & _).
    rewrite tagged_noteId, tagged_SL.
    refine (conj Hn (conj Hs (conj _ _))).
    + apply (while_true_first _ scrapeLimit fuel _ _
               (iteration_pushes sel site scrapeLimit commonTag)); [reflexivity|].
      apply (iteration_first sel site scrapeLimit commonTag
               (loop_start questionsToSkip s0) r D0 Er).
    + intros V.
      apply (while_true_first _ scrapeLimit fuel _ _
               (iteration_fast_pushes sel site scrapeLimit commonTag)); [reflexivity|].
      apply (iteration_fast_first sel site scrapeLimit commonTag
               (loop_start questionsToSkip s0) r D0 V Er).
Qed.

Lemma serial_numbers_follow_successes_witness :
  exists r rest,
    Session.allQuestionsData
      (snd (@Session.harvest Reference.libraries Examples.selectors Examples.site 10
              (Int 2) Infinity (Some "T1") Session.start)) = r :: rest /\
    noteId r = Int 1002 /\ SL r = Int 1.
Proof.
  destruct (@serial_numbers_follow_successes Reference.libraries Examples.selectors
              Examples.site 10 (Int 2) Infinity (Some "T1") Session.start)
    as (_ & _ & H & _).
  edestruct H as (Hn & Hs & (rest & Hd) & _);
    [repeat constructor | reflexivity | vm_compute; reflexivity |].
  eexists. exists rest. split; [exact Hd|]. split; [exact Hn | exact Hs].
Defined.

(** C6, as the code has it.  For a limit N of at least 1 the collection
    never holds more than N records, in both variants.  Each turn of the
    loop makes its checks in the order (a) limit reached, (b) no Next control,
    (c) last-question message after the click on Next, and stops at the first
    that holds.  With the limit 1, when the first page yields a record, that
    record is the only one collected and only that page is read: nothing is
    asked about the Next control.  The file a session writes holds at most N
    records. *)
Theorem scrape_limit_bounds_collection {L : Libraries} sel site fuel
    questionsToSkip N commonTag s0 :
  1 <= N ->
  let first := Session.quiz site (Session.position s0) in
  let extracted :=
    scrapeSingleQuestionPage sel (Session.snapshot first)
      (num_add questionsToSkip (Int 1)) (num_add (Int 1000) questionsToSkip) (Int 1) in
  (Z.of_nat (length (Session.allQuestionsData
      (snd (Session.harvest sel site fuel questionsToSkip (Int N) commonTag s0)))) <= N /\
   Z.of_nat (length (Session.allQuestionsData
      (snd (Session.harvest_fast sel site fuel questionsToSkip (Int N) commonTag s0)))) <= N) /\
  (forall scrapeLimit s,
     Session.detached (Session.quiz site (Session.position s)) = false ->
     Session.detached (Session.quiz site (S (Session.position s))) = false ->
     let page := Session.quiz site (Session.position s) in
     let r := Session.iteration sel site scrapeLimit commonTag s in
     let r_fast := Session.iteration_fast sel site scrapeLimit commonTag s in
     let checks (data : list QuestionRecord) :=
       termination_checks
         (num_ge (Int (Z.of_nat (length data))) scrapeLimit)
         (Session.hasNext page)
         (Session.saysLast (Session.quiz site (S (Session.position s)))) in
     let seen := [Session.Clicked Session.ViewSolution;
                  Session.Snapshot (Session.position s)] in
     (fst r = Session.Returns (fst (checks (Session.allQuestionsData (snd r)))) /\
      Session.events (snd r)
      = (Session.events s ++ seen ++ snd (checks (Session.allQuestionsData (snd r))))%list) /\
     (Session.hasViewSolution page = true ->
      fst r_fast
      = Session.Returns (fst (checks (Session.allQuestionsData (snd r_fast)))) /\
      Session.events (snd r_fast)
      = (Session.events s
           ++ seen ++ snd (checks (Session.allQuestionsData (snd r_fast))))%list)) /\
  (forall r,
     Session.detached first = false -> extracted = Some r ->
     let seen := [Session.Clicked Session.ViewSolution;
                  Session.Snapshot (Session.position s0)] in
     let s := snd (Session.harvest sel site (S fuel) questionsToSkip (Int 1) commonTag s0) in
     let s_fast :=
       snd (Session.harvest_fast sel site (S fuel) questionsToSkip (Int 1) commonTag s0) in
     (Session.allQuestionsData s = [Session.tagged commonTag r] /\
      Session.events s = (Session.events s0 ++ seen)%list) /\
     (Session.hasViewSolution first = true ->
      Session.allQuestionsData s_fast = [Session.tagged commonTag r] /\
      Session.events s_fast = (Session.events s0 ++ seen)%list)) /\
  (forall o file data,
     Session.scrape_limit o = Int N ->
     (forall f d, ~ In (Session.Saved f d) (Session.events s0)) ->
     In (Session.Saved file data)
        (Session.events (snd (Session.main sel site fuel o s0))) \/
     In (Session.Saved file data)
        (Session.events (snd (Session.main_fast sel site fuel o s0))) ->
     Z.of_nat (length data) <= N).
Proof.
  intros HN. cbv zeta. refine (conj (conj _ _) (conj _ (conj _ _))); cycle 4.
  { intros o file data Ho H0 Hin.
    assert (W : only (within_limit N) s0).
    { intros e He. destruct e; cbn; auto. elim (H0 _ _ He). }
    destruct (main_saves_within_limit sel site fuel o N s0 Ho HN W) as [W1 W2].
    destruct Hin as [Hin|Hin]; [exact (W1 _ Hin) | exact (W2 _ Hin)]. }
  - rewrite harvest_unfold.
    apply (while_true_bound _ (Int N) (iteration_pushes sel site (Int N) commonTag));
      [reflexivity | cbn; lia].
  - rewrite harvest_fast_unfold.
    apply (while_true_bound _ (Int N) (iteration_fast_pushes sel site (Int N) commonTag));
      [reflexivity | cbn; lia].
  - intros scrapeLimit s D0 D1. split.
    + apply (iteration_checks sel site scrapeLimit commonTag s D0 D1).
    + intros V. apply (iteration_fast_checks sel site scrapeLimit commonTag s D0 V D1).
  - intros r D0 Er. split.
    + rewrite harvest_unfold, while_true_unfold.
      rewrite (iteration_reached sel site (Int 1) commonTag
                 (loop_start questionsToSkip s0) r D0 Er); [|reflexivity].
      cbn. rewrite app_nil_r. split; reflexivity.
    + intros V. rewrite harvest_fast_unfold, while_true_unfold.
      rewrite (iteration_fast_reached sel site (Int 1) commonTag
                 (loop_start questionsToSkip s0) r D0 V Er); [|reflexivity].
      cbn. rewrite app_nil_r. split; reflexivity.
Qed.

Lemma scrape_limit_bounds_collection_witness :
  let s := snd (@Session.harvest Reference.libraries Examples.selectors Examples.site 6
                  (Int 0) (Int 1) None Session.start) in
  length (Session.allQuestionsData s) = 1%nat /\ snapshots (Session.events s) = 1%nat.
Proof.
  cbv zeta.
  destruct (@scrape_limit_bounds_collection Reference.libraries Examples.selectors
              Examples.site 5 (Int 0) 1 None Session.start ltac:(lia))
    as (_ & _ & H & _).
  edestruct H as ((Hd & He) & _); [reflexivity | vm_compute; reflexivity |].
  rewrite Hd, He. split; reflexivity.
Defined.

(** C6, as stated, fails for the limit 0: with [--count 0] the first page is
    read and its record collected before the limit is looked at. *)
Lemma limit_zero_collects_one :
  Session.scrape_limit (Examples.command_line (Some "0") "0") = Int 0 /\
  length (Session.allQuestionsData
            (snd (@Session.main Reference.libraries Examples.selectors Examples.site 10
                    (Examples.command_line (Some "0") "0") Session.start))) = 1%nat.
Proof. split; vm_compute; reflexivity. Qed.

(** ** The task list *)

(** C9 fails on the code.  The batch driver records the result file by its
    path below the project, [output/scraped/<name>]; the validator looks for
    that whole path below [output/scraped] and below [output/tagged].  The
    task below was completed by the batch driver and its result file is on
    the disk, yet the validator does not find it and marks the task PENDING. *)
Theorem validator_demotes_recorded_task :
  let task :=
    Links.record_outcome Examples.project true (Some "SSC CGL - Mock 1.json")
                         Examples.pending_task in
  Links.Status task = "COMPLETED" /\
  Links.File task = "output/scraped/SSC CGL - Mock 1.json" /\
  Examples.disk (Links.join (Links.OUTPUT_DIR Examples.project) "SSC CGL - Mock 1.json")
  = true /\
  Links.join (Links.scrapedDir Examples.project) (Links.File task)
  = ["home"; "user"; "testbook-automation"; "output"; "scraped";
     "output"; "scraped"; "SSC CGL - Mock 1.json"] /\
  Links.fileExists Examples.project Examples.disk (Links.File task) = false /\
  Links.validateLinks Examples.project Examples.disk [task]
  = ([Links.with_status task "PENDING" EmptyString], true).
Proof. cbv zeta. repeat split; vm_compute; reflexivity. Qed.

(** ** Places in a document *)

Lemma node_induction (P : node -> Prop) :
  (forall d, P (Text d)) ->
  (forall d, P (Comment d)) ->
  (forall nm a kids, Forall P kids -> P (Element nm a kids)) ->
  forall n, P n.
Proof.
  intros HT HC HE. fix IH 1. intros [d|d|nm a kids]; [apply HT | apply HC | apply HE].
  induction kids as [|k kids IHk]; constructor; [apply IH | exact IHk].
Qed.

Lemma elements_of_element p up nm a kids :
  elements_of p up (Element nm a kids)
  = {| e_path := p; e_up := up; e_name := nm; e_attribs := a; e_children := kids |}
    :: elements_from p ((nm, a) :: up) 0 kids.
Proof.
  cbn [elements_of]. f_equal. generalize 0%nat.
  induction kids as [|k kids IH]; intros i; [reflexivity|].
  cbn [elements_from]. now rewrite IH.
Qed.

Lemma elements_from_prefix_with
    (P := fun n => forall p up e, In e (elements_of p up n) ->
                                  exists rest, e_path e = (p ++ rest)%list) l :
  Forall P l ->
  forall p up i e, In e (elements_from p up i l) ->
                   exists j rest, (i <= j)%nat /\ e_path e = (p ++ [j] ++ rest)%list.
Proof.
  induction 1 as [|k l Hk _ IH]; intros p up i e Hin; [contradiction|].
  cbn [elements_from] in Hin. apply in_app_or in Hin. destruct Hin as [Hin|Hin].
  - destruct (Hk _ _ _ Hin) as [rest Hr]. exists i, rest. split; [lia|].
    now rewrite Hr, <- app_assoc.
  - destruct (IH _ _ _ _ Hin) as (j & rest & Hj & Hr). exists j, rest. split; [lia | exact Hr].
Qed.

Lemma elements_of_prefix n : forall p up e,
  In e (elements_of p up n) -> exists rest, e_path e = (p ++ rest)%list.
Proof.
  induction n as [d|d|nm a kids IH] using node_induction; intros p up e Hin;
    try contradiction.
  rewrite elements_of_element in Hin. destruct Hin as [<-|Hin].
  - exists []. cbn. now rewrite app_nil_r.
  - destruct (elements_from_prefix_with kids IH _ _ _ _ Hin) as (j & rest & _ & Hr).
    now exists ([j] ++ rest)%list.
Qed.

Lemma elements_from_prefix l p up i e :
  In e (elements_from p up i l) ->
  exists j rest, (i <= j)%nat /\ e_path e = (p ++ [j] ++ rest)%list.
Proof.
  apply elements_from_prefix_with. apply Forall_forall. intros n _.
  apply elements_of_prefix.
Qed.

Lemma elements_from_NoDup_with
    (P := fun n => forall p up, NoDup (map e_path (elements_of p up n))) l :
  Forall P l -> forall p up i, NoDup (map e_path (elements_from p up i l)).
Proof.
  induction 1 as [|k l Hk _ IH]; intros p up i; [constructor|].
  cbn [elements_from]. rewrite map_app. apply NoDup_app; [apply Hk | apply IH |].
  intros q Hq1 Hq2.
  apply in_map_iff in Hq1. destruct Hq1 as (e1 & <- & H1).
  apply in_map_iff in Hq2. destruct Hq2 as (e2 & E & H2).
  destruct (elements_of_prefix _ _ _ _ H1) as [r1 R1].
  destruct (elements_from_prefix _ _ _ _ _ H2) as (j & r2 & Hj & R2).
  rewrite R1, R2, <- app_assoc in E. apply app_inv_head in E.
  cbn in E. injection E as E _. lia.
Qed.

Lemma elements_of_NoDup n : forall p up, NoDup (map e_path (elements_of p up n)).
Proof.
  induction n as [d|d|nm a kids IH] using node_induction; intros p up;
    [constructor | constructor |].
  rewrite elements_of_element. cbn [map e_path]. constructor.
  - intros Hin. apply in_map_iff in Hin. destruct Hin as (e & E & Hin).
    destruct (elements_from_prefix _ _ _ _ _ Hin) as (j & rest & _ & R).
    rewrite R in E. apply (f_equal (@length nat)) in E.
    rewrite !length_app in E. cbn in E. lia.
  - now apply elements_from_NoDup_with.
Qed.

(** No two elements of a document are at the same place. *)
Lemma elements_NoDup doc : NoDup (map e_path (elements doc)).
Proof.
  apply elements_from_NoDup_with. apply Forall_forall. intros n _.
  apply elements_of_NoDup.
Qed.

Lemma path_eqb_eq p q : path_eqb p q = true <-> p = q.
Proof.
  unfold path_eqb. destruct (list_eq_dec Nat.eq_dec p q); split; intros H;
    try reflexivity; try assumption; try discriminate H; contradiction.
Qed.

Lemma NoDup_map_filter {A B : Type} (f : A -> B) (g : A -> bool) l :
  NoDup (map f l) -> NoDup (map f (List.filter g l)).
Proof.
  induction l as [|a l IH]; intros H; [constructor|].
  cbn in *. apply NoDup_cons_iff in H as [Ha Hl].
  destruct (g a); [cbn; constructor|]; auto.
  intros Hin. apply Ha. apply in_map_iff in Hin. destruct Hin as (b & E & Hb).
  apply filter_In in Hb. apply in_map_iff. exists b. tauto.
Qed.

(** [indexOf]: the place of an element in a list is the position of the
    first element at that place. *)
Lemma position_first_index p l :
  Cheerio.position p l = first_index (fun e => path_eqb (e_path e) p) l.
Proof.
  induction l as [|a l IH]; [reflexivity|].
  cbn [Cheerio.position first_index]. now rewrite IH.
Qed.

Lemma position_app p l more i :
  Cheerio.position p l = Some i -> Cheerio.position p (l ++ more) = Some i.
Proof.
  revert i. induction l as [|a l IH]; intros i H; [discriminate H|].
  cbn [Cheerio.position app] in *. destruct (path_eqb (e_path a) p); [exact H|].
  destruct (Cheerio.position p l) as [j|]; [|discriminate H].
  now rewrite (IH j eq_refl).
Qed.

Lemma position_member x l : In x l -> exists i, Cheerio.position (e_path x) l = Some i.
Proof.
  induction l as [|a l IH]; [intros []|]. intros [<-|Hin]; cbn [Cheerio.position].
  - replace (path_eqb (e_path a) (e_path a)) with true by (symmetry; now apply path_eqb_eq).
    now exists 0%nat.
  - destruct (path_eqb (e_path a) (e_path x)); [now exists 0%nat|].
    destruct (IH Hin) as [i ->]. now exists (S i).
Qed.

(** A list of elements at different places holds no duplicate to remove. *)
Lemma removeDuplicates_keeps l : forall more,
  NoDup (map e_path l) ->
  exists rest,
    Cheerio.removeDuplicates (fun a b => path_eqb (e_path a) (e_path b)) (l ++ more)
    = (l ++ rest)%list.
Proof.
  induction l as [|a l IH]; intros more Hn; [now eexists|].
  cbn in Hn. apply NoDup_cons_iff in Hn as [Ha Hl].
  destruct (IH more Hl) as [rest Hr].
  cbn [app Cheerio.removeDuplicates]. rewrite Hr, filter_app.
  eexists. f_equal. f_equal. apply forallb_filter_id. apply forallb_forall.
  intros b Hb. apply negb_true_iff.
  destruct (path_eqb (e_path a) (e_path b)) eqn:E; [|reflexivity].
  apply path_eqb_eq in E. elim Ha. rewrite E. now apply in_map.
Qed.

(** An element below the root is among the element children of its parent. *)
Lemma child_among_siblings doc x :
  In x (elements doc) -> has_parent x = true ->
  In x (siblings doc (parent_path (e_path x))).
Proof.
  intros Hin Hp. unfold siblings. apply filter_In. split; [exact Hin|].
  rewrite Hp. now apply path_eqb_eq.
Qed.

(** [index()] of a set whose first element lies below the root: the
    position of that element among the element children of its parent,
    whatever the other elements of the set are. *)
Lemma index_among_siblings doc x X :
  In x (elements doc) -> has_parent x = true ->
  exists i,
    first_index (fun e => path_eqb (e_path e) (e_path x))
                (siblings doc (parent_path (e_path x))) = Some i /\
    Cheerio.index doc (x :: X) = Z.of_nat i.
Proof.
  intros Hin Hp.
  destruct (position_member x _ (child_among_siblings doc x Hin Hp)) as [i Hi].
  exists i. split; [now rewrite <- position_first_index|].
  unfold Cheerio.index, Cheerio.children, Cheerio.parent.
  cbn [List.filter]. rewrite Hp. cbn [map Cheerio.removeDuplicates flat_map].
  fold (siblings doc (parent_path (e_path x))).
  destruct (removeDuplicates_keeps (siblings doc (parent_path (e_path x)))
              (flat_map
                 (fun p => List.filter
                             (fun e => has_parent e && path_eqb (parent_path (e_path e)) p)
                             (elements doc))
                 (List.filter (fun b => negb (path_eqb (parent_path (e_path x)) b))
                    (Cheerio.removeDuplicates path_eqb
                       (map (fun e => parent_path (e_path e))
                            (List.filter has_parent X))))))
    as [rest Hr].
  { unfold siblings. apply NoDup_map_filter, elements_NoDup. }
  rewrite Hr, (position_app _ _ _ _ Hi). reflexivity.
Qed.

Lemma above_longer p : forall q, above p q = true -> (length p < length q)%nat.
Proof.
  induction p as [|i p IH]; intros [|j q] H; cbn in *; try discriminate H; try lia.
  apply andb_true_iff in H. destruct H as [_ H]. specialize (IH q H). lia.
Qed.

Lemma element_has_place doc e : In e (elements doc) -> (1 <= length (e_path e))%nat.
Proof.
  intros Hin. destruct (elements_from_prefix _ _ _ _ _ Hin) as (j & rest & _ & ->).
  cbn. lia.
Qed.

(** What [find] returns are elements of the document below the root. *)
Lemma find_below_root doc X s e :
  (forall c, In c X -> In c (elements doc)) ->
  In e (Cheerio.find doc X s) -> In e (elements doc) /\ has_parent e = true.
Proof.
  intros HX Hin. unfold Cheerio.find in Hin. apply filter_In in Hin.
  destruct Hin as [He Hm]. split; [exact He|].
  apply andb_true_iff in Hm. destruct Hm as [_ Hm].
  apply existsb_exists in Hm. destruct Hm as (c & Hc & Ha).
  apply above_longer in Ha. pose proof (element_has_place doc c (HX c Hc)).
  unfold has_parent. apply Nat.leb_le. lia.
Qed.

Lemma index_lower_bound doc X : -1 <= Cheerio.index doc X.
Proof.
  unfold Cheerio.index. destruct X as [|x X]; [lia|].
  destruct (Cheerio.position _ _); lia.
Qed.

(** [Answer], as the code computes it: 0 when no option container carries
    the marker class; otherwise 1 plus the position of the first marked
    container among the element children of its parent, option containers
    or not.  Both variants. *)
Lemma Answer_counts_element_siblings {L : Libraries} sel page fallbackCounter nid sn r :
  scrapeSingleQuestionPage sel page fallbackCounter nid sn = Some r \/
  scrapeSingleQuestionPage_fast sel page fallbackCounter nid sn = Some r ->
  let doc := load document page in
  let options :=
    Cheerio.find doc (Cheerio.select doc (activeQuestionContainer sel))
                 (optionContainer sel) in
  match List.filter (matches (by_class (correctOptionClass sel))) options with
  | [] => Answer r = 0
  | x :: _ =>
      exists i,
        first_index (fun e => path_eqb (e_path e) (e_path x))
                    (siblings doc (parent_path (e_path x))) = Some i /\
        Answer r = Z.of_nat i + 1
  end.
Proof.
  intros H. assert (Hr : scrapeSingleQuestionPage sel page fallbackCounter nid sn = Some r).
  { destruct H as [H|H]; [exact H | now rewrite scrapeSingleQuestionPage_fast_eq in H]. }
  clear H. apply scrapeSingleQuestionPage_some in Hr. cbv zeta in Hr |- *.
  destruct Hr as (_ & _ & _ & _ & _ & Ha).
  unfold Cheerio.filter in Ha.
  destruct (List.filter _ _) as [|x X] eqn:EX; [exact Ha|].
  assert (Hx : In x (Cheerio.find (load document page)
                       (Cheerio.select (load document page) (activeQuestionContainer sel))
                       (optionContainer sel))).
  { assert (Hin : In x (x :: X)) by apply in_eq.
    rewrite <- EX in Hin. apply filter_In in Hin. tauto. }
  apply find_below_root in Hx.
  - destruct Hx as [He Hp].
    destruct (index_among_siblings _ x X He Hp) as (i & Hi & Hidx).
    exists i. split; [exact Hi|]. rewrite Ha, Hidx.
    replace (Z.of_nat i =? -1) with false by (symmetry; apply Z.eqb_neq; lia).
    reflexivity.
  - intros c Hc. unfold Cheerio.select in Hc. apply filter_In in Hc. tauto.
Qed.

(** C4 fails on the code.  [Answer] is computed with cheerio's [index()],
    which counts the element children of the parent of the marked container,
    not the option containers.  On the first page below an element that is no
    option container precedes the containers: the first option is the marked
    one, it is the first option container and OP1 of the record, and
    [Answer] is 2, which names the second option.  On the second page the
    fifth of five containers is marked and [Answer] is 5, outside 0..4, for
    a record that has four options.  Both variants return these records. *)
Theorem answer_is_not_option_position :
  let marked := matches (by_class (correctOptionClass Examples.selectors)) in
  (exists r,
     @scrapeSingleQuestionPage Reference.libraries Examples.selectors
        Examples.page_with_label_before_options (Int 1) (Int 1000) (Int 1) = Some r /\
     @scrapeSingleQuestionPage_fast Reference.libraries Examples.selectors
        Examples.page_with_label_before_options (Int 1) (Int 1000) (Int 1) = Some r /\
     first_index marked
       (@Read.options Reference.libraries Examples.selectors
          Examples.page_with_label_before_options) = Some 0%nat /\
     OP1 r = Some "A" /\ OP2 r = Some "B" /\
     Answer r = 2) /\
  (exists r,
     @scrapeSingleQuestionPage Reference.libraries Examples.selectors
        Examples.page_with_five_options (Int 1) (Int 1000) (Int 1) = Some r /\
     @scrapeSingleQuestionPage_fast Reference.libraries Examples.selectors
        Examples.page_with_five_options (Int 1) (Int 1000) (Int 1) = Some r /\
     first_index marked
       (@Read.options Reference.libraries Examples.selectors
          Examples.page_with_five_options) = Some 4%nat /\
     Answer r = 5).
Proof.
  cbv zeta. split; eexists;
    (split; [vm_compute; reflexivity|]);
    (split; [vm_compute; reflexivity|]);
    (split; [vm_compute; reflexivity|]); cbn; auto.
Qed.

(** ** White space at the ends *)

Lemma trimStart_starts_black s : starts_black (trimStart s) = true.
Proof.
  induction s as [|c s IH]; [reflexivity|].
  cbn [trimStart]. destruct (is_space c) eqn:E; [exact IH|]. cbn. now rewrite E.
Qed.

Lemma trimStart_fixed u : starts_black u = true -> trimStart u = u.
Proof.
  destruct u as [|c u]; [reflexivity|]. cbn. intros H.
  apply negb_true_iff in H. now rewrite H.
Qed.

Lemma trimEnd_starts_black u : starts_black u = true -> starts_black (trimEnd u) = true.
Proof.
  destruct u as [|c u]; [reflexivity|]. cbn. intros H.
  destruct (trimEnd u); [|exact H].
  apply negb_true_iff in H. rewrite H. cbn. now rewrite H.
Qed.

Lemma trimEnd_idempotent s : trimEnd (trimEnd s) = trimEnd s.
Proof.
  induction s as [|c s IH]; [reflexivity|].
  cbn [trimEnd]. destruct (trimEnd s) as [|d t] eqn:E.
  - destruct (is_space c) eqn:Ec; [reflexivity|]. cbn. now rewrite Ec.
  - cbn [trimEnd] in *. now rewrite IH.
Qed.

Lemma trim_idempotent s : trim (trim s) = trim s.
Proof.
  unfold trim.
  rewrite (trimStart_fixed (trimEnd (trimStart s))).
  - apply trimEnd_idempotent.
  - apply trimEnd_starts_black, trimStart_starts_black.
Qed.

(** C8 fails on the code.  The pass that unwraps [font] elements rewrites
    the elements selected before it starts; the content of an unwrapped
    element is parsed afresh and not visited.  Of two nested [font] wrappers
    the sanitizer takes away the outer one only: its result still holds a
    [font] element, and a second pass changes it again, to a string that
    differs from the first result by more than white space. *)
Theorem second_pass_unwraps_again :
  let once := "<font>x</font>" in
  let twice := "x" in
  @Sanitizer.transformAndSanitizeHtml Reference.libraries
     (Some "<font><font>x</font></font>") = Normal once /\
  Cheerio.select (@load Reference.libraries Sanitizer.fragment once) (by_tag "font") <> [] /\
  @Sanitizer.transformAndSanitizeHtml Reference.libraries (Some once) = Normal twice /\
  without_spaces once <> without_spaces twice.
Proof.
  cbv zeta. split; [vm_compute; reflexivity|].
  split; [vm_compute; discriminate|].
  split; [vm_compute; reflexivity|].
  vm_compute. discriminate.
Qed.

(* ===================================================================== *)
(** * Further properties of the code *)
(* ===================================================================== *)

(* ===================================================================== *)
(** * Further properties of the code *)
(* ===================================================================== *)

(** ** The tag resolver and the question number *)

Lemma getTagForQuestion_range sec q :
  match getTagForQuestion sec q with
  | Some t => In t subjectTags
  | None => True
  end.
Proof.
  destruct sec as [s|], q as [q|]; cbn [getTagForQuestion]; auto.
  unfold getTagForQuestion, falls_through.
  repeat match goal with
         | |- context [if ?b then _ else _] => destruct b
         end; cbn; auto 10.
Qed.

Lemma trim_empty_tag q : getTagForQuestion (Some EmptyString) q = None.
Proof. destruct q; reflexivity. Qed.

(** X1. White space around the section name never matters to the tag
    resolver: a name and the same name trimmed get the same tag, for every
    question number; a name of white space only gets none. *)
Theorem getTagForQuestion_ignores_outer_space s q :
  getTagForQuestion (Some (trim s)) q = getTagForQuestion (Some s) q /\
  (trim s = EmptyString -> getTagForQuestion (Some s) q = None).
Proof.
  assert (E : trim s = EmptyString -> getTagForQuestion (Some s) q = None).
  { intros E. destruct q as [q|]; [|reflexivity].
    unfold getTagForQuestion. rewrite E. destruct (truthy s); reflexivity. }
  split; [|exact E].
  destruct (trim s) as [|c t] eqn:Et.
  - rewrite (E eq_refl). apply trim_empty_tag.
  - destruct q as [q|]; [|reflexivity].
    unfold getTagForQuestion.
    rewrite <- Et, trim_idempotent, (truthy_trim s), Et by (rewrite Et; discriminate).
    reflexivity.
Qed.

Lemma getTagForQuestion_ignores_outer_space_witness :
  getTagForQuestion (Some "  Quants  ") (Some NaN) = Some "MATH" /\
  getTagForQuestion (Some "   ") (Some (Int 3)) = None.
Proof.
  split.
  - rewrite <- (proj1 (getTagForQuestion_ignores_outer_space "  Quants  " (Some NaN))).
    reflexivity.
  - apply (proj2 (getTagForQuestion_ignores_outer_space "   " (Some (Int 3)))).
    reflexivity.
Defined.

Lemma digit_is_black c :
  is_digit c = true ->
  is_space c = false /\ c <> "-"%char /\ c <> "+"%char.
Proof.
  destruct c as [[] [] [] [] [] [] [] []]; cbn; intros H;
    try discriminate H; repeat split; discriminate.
Qed.

Lemma digits_value_nonneg s : forall acc, 0 <= acc -> 0 <= digits_value acc s.
Proof.
  induction s as [|c s IH]; intros acc H; cbn [digits_value]; [exact H|].
  destruct (is_digit c); [apply IH; lia | exact H].
Qed.

Lemma parseInt_digits c s :
  is_digit c = true ->
  parseInt (String c s) = Int (digits_value 0 (String c s)).
Proof.
  intros H. destruct (digit_is_black c H) as (Hs & Hm & Hp).
  unfold parseInt. cbn [trimStart]. rewrite Hs.
  destruct c as [[] [] [] [] [] [] [] []]; cbn in H |- *;
    try discriminate H; try reflexivity.
Qed.

Lemma match_digits_some s m :
  match_digits s = Some m -> exists c t, m = String c t /\ is_digit c = true.
Proof.
  induction s as [|c s IH]; cbn [match_digits]; [discriminate|].
  destruct (is_digit c) eqn:E; [|exact IH].
  intros H. injection H as <-. cbn [take_digits]. rewrite E. eauto.
Qed.



(** ** The record of a page *)

Section RecordFacts.
Context {L : Libraries}.
Variable sel : ParserSelectors.

(** [scrapeSingleQuestionPage], in terms of the values it computes. *)
Lemma scrapeSingleQuestionPage_unfold page fallbackCounter nid sn :
  scrapeSingleQuestionPage sel page fallbackCounter nid sn =
  if (length (Read.container sel page) =? 0)%nat then None else
  let finalQuestionHtml :=
    if truthy (Read.sanitizedComprehension sel page)
    then Read.sanitizedComprehension sel page ++ questionHeader
         ++ Read.sanitizedQuestionBody sel page
    else Read.sanitizedQuestionBody sel page in
  let correctAnswerIndex :=
    Cheerio.index (load document page)
      (Cheerio.filter (Read.options sel page) (by_class (correctOptionClass sel))) in
  if negb (truthy finalQuestionHtml) || (length (Read.options sel page) =? 0)%nat
  then None
  else Some {|
    noteId := nid;
    SL := sn;
    Question := finalQuestionHtml;
    OP1 := or_null (Read.sanitizedOptions sel page) 0;
    OP2 := or_null (Read.sanitizedOptions sel page) 1;
    OP3 := or_null (Read.sanitizedOptions sel page) 2;
    OP4 := or_null (Read.sanitizedOptions sel page) 3;
    Answer := if negb (correctAnswerIndex =? -1) then correctAnswerIndex + 1 else 0;
    Solution := Read.sanitizedSolution sel page;
    Tags := match getTagForQuestion (Some (Read.sectionNameText sel page))
                    (Some (Read.questionNumberForTagging sel page fallbackCounter)) with
            | Some t => [t]
            | None => []
            end
  |}.
Proof.
  unfold scrapeSingleQuestionPage. cbv zeta.
  fold (Read.container sel page).
  destruct (length (Read.container sel page) =? 0)%nat; [reflexivity|].
  rewrite !sanitize_normal, all_sanitize_normal. cbn [Sanitizer.bind].
  unfold Read.sanitizedOptions, Read.options. rewrite !length_map.
  unfold Read.sanitizedComprehension, Read.sanitizedQuestionBody, Read.sanitizedSolution,
    Read.questionNumberForTagging, Read.sectionNameText, Read.slText, Read.container,
    questionHeader.
  match goal with
  | |- context [if ?c then Normal None else _] => destruct c
  end; reflexivity.
Qed.

End RecordFacts.

Section RecordFacts2.
Context {L : Libraries}.
Variable sel : ParserSelectors.

Lemma sanitized_trimmed h : trim (sanitized h) = sanitized h.
Proof.
  unfold sanitized, Sanitizer.transformAndSanitizeHtml.
  destruct h as [h|]; [|reflexivity].
  destruct (negb (truthy h)); [reflexivity|].
  destruct (Sanitizer.minifyHtml _) as [m|e]; [|reflexivity].
  cbn. apply trim_idempotent.
Qed.

Lemma or_null_some l i t :
  or_null l i = Some t -> In t l /\ t <> EmptyString.
Proof.
  unfold or_null. destruct (nth_error l i) as [v|] eqn:E; [|discriminate].
  destruct (truthy v) eqn:Ev; [|discriminate].
  intros H. injection H as <-. split.
  - eapply nth_error_In, E.
  - now apply truthy_nonempty.
Qed.

End RecordFacts2.

(** X3. What the sanitizer returns has no white space at either end: it is
    its own [trim], for every input and whatever the parser, the serialiser
    and the minifier do. *)
Theorem transformAndSanitizeHtml_is_trimmed {L : Libraries} h :
  exists r, Sanitizer.transformAndSanitizeHtml h = Normal r /\ trim r = r.
Proof.
  exists (sanitized h). split; [apply sanitize_normal | apply sanitized_trimmed].
Qed.

Lemma scrapeSingleQuestionPage_record {L : Libraries} sel page fallbackCounter nid sn r :
  scrapeSingleQuestionPage sel page fallbackCounter nid sn = Some r \/
  scrapeSingleQuestionPage_fast sel page fallbackCounter nid sn = Some r ->
  OP1 r = or_null (Read.sanitizedOptions sel page) 0 /\
  OP2 r = or_null (Read.sanitizedOptions sel page) 1 /\
  OP3 r = or_null (Read.sanitizedOptions sel page) 2 /\
  OP4 r = or_null (Read.sanitizedOptions sel page) 3 /\
  Solution r = Read.sanitizedSolution sel page /\
  Tags r = match getTagForQuestion (Some (Read.sectionNameText sel page))
                   (Some (Read.questionNumberForTagging sel page fallbackCounter)) with
           | Some t => [t]
           | None => []
           end.
Proof.
  rewrite scrapeSingleQuestionPage_fast_eq, scrapeSingleQuestionPage_unfold. cbv zeta.
  intros H. assert (H' := match H with or_introl h | or_intror h => h end). clear H.
  destruct (length (Read.container sel page) =? 0)%nat; [discriminate|].
  destruct (negb _ || _); [discriminate|].
  injection H' as <-. cbn. repeat split; reflexivity.
Qed.

(** X4. An option of a record is never an empty string: each of OP1 to OP4
    is null or a non-empty string without white space at its ends, the
    sanitized text of an option container; and the solution of a record is
    the sanitized solution of the page, without white space at its ends. *)
Theorem record_options_are_null_or_text {L : Libraries} sel page fallbackCounter nid sn r :
  scrapeSingleQuestionPage sel page fallbackCounter nid sn = Some r \/
  scrapeSingleQuestionPage_fast sel page fallbackCounter nid sn = Some r ->
  (forall t, In (Some t) [OP1 r; OP2 r; OP3 r; OP4 r] ->
             t <> EmptyString /\ trim t = t /\ In t (Read.sanitizedOptions sel page)) /\
  trim (Solution r) = Solution r.
Proof.
  intros H. destruct (scrapeSingleQuestionPage_record _ _ _ _ _ _ H)
    as (H1 & H2 & H3 & H4 & Hs & _).
  split.
  - intros t Hin.
    assert (Ht : exists i, or_null (Read.sanitizedOptions sel page) i = Some t).
    { cbn in Hin. rewrite H1, H2, H3, H4 in Hin.
      destruct Hin as [E|[E|[E|[E|[]]]]]; eauto. }
    destruct Ht as [i Ht]. apply or_null_some in Ht. destruct Ht as [Hin' Hne].
    refine (conj Hne (conj _ Hin')).
    unfold Read.sanitizedOptions in Hin'. apply in_map_iff in Hin'.
    destruct Hin' as (h & <- & _). apply sanitized_trimmed.
  - rewrite Hs. apply sanitized_trimmed.
Qed.

Lemma record_options_are_null_or_text_witness :
  exists r,
    @scrapeSingleQuestionPage Reference.libraries Examples.selectors
       Examples.page_with_four_options (Int 1) (Int 1000) (Int 1) = Some r /\
    OP3 r = Some "C" /\
    (forall t, In (Some t) [OP1 r; OP2 r; OP3 r; OP4 r] -> t <> EmptyString /\ trim t = t).
Proof.
  destruct (@scrapeSingleQuestionPage Reference.libraries Examples.selectors
              Examples.page_with_four_options (Int 1) (Int 1000) (Int 1)) as [r|] eqn:E;
    [|vm_compute in E; discriminate E].
  exists r. split; [reflexivity|]. split.
  - vm_compute in E. injection E as <-. reflexivity.
  - intros t Ht.
    destruct (@record_options_are_null_or_text Reference.libraries Examples.selectors
                Examples.page_with_four_options (Int 1) (Int 1000) (Int 1) r
                (or_introl E)) as [H _].
    destruct (H t Ht) as (Hn & Hs & _). split; assumption.
Defined.

(** X5. A record comes out of the scraper with at most one tag, and that
    tag is one of MATH, GI, ENG, GK, COMPUTER and BENGALI. *)
Theorem record_has_at_most_one_subject_tag {L : Libraries} sel page fallbackCounter nid sn r :
  scrapeSingleQuestionPage sel page fallbackCounter nid sn = Some r \/
  scrapeSingleQuestionPage_fast sel page fallbackCounter nid sn = Some r ->
  Tags r = [] \/ exists t, Tags r = [t] /\ In t subjectTags.
Proof.
  intros H. destruct (scrapeSingleQuestionPage_record _ _ _ _ _ _ H)
    as (_ & _ & _ & _ & _ & Ht).
  rewrite Ht.
  pose proof (getTagForQuestion_range (Some (Read.sectionNameText sel page))
                (Some (Read.questionNumberForTagging sel page fallbackCounter))) as R.
  destruct (getTagForQuestion _ _) as [t|]; [right; eauto | now left].
Qed.

Lemma record_has_at_most_one_subject_tag_witness :
  exists r,
    @scrapeSingleQuestionPage Reference.libraries Examples.selectors
       Examples.page_with_four_options (Int 1) (Int 1000) (Int 1) = Some r /\
    Tags r = ["GI"] /\
    (Tags r = [] \/ exists t, Tags r = [t] /\ In t subjectTags).
Proof.
  destruct (@scrapeSingleQuestionPage Reference.libraries Examples.selectors
              Examples.page_with_four_options (Int 1) (Int 1000) (Int 1)) as [r|] eqn:E;
    [|vm_compute in E; discriminate E].
  exists r. split; [reflexivity|]. split.
  - vm_compute in E. injection E as <-. reflexivity.
  - apply (@record_has_at_most_one_subject_tag Reference.libraries Examples.selectors
             Examples.page_with_four_options (Int 1) (Int 1000) (Int 1)).
    left. exact E.
Defined.

(** X6. A passage is enough for a record.  When the page has an active
    container with at least one option container and a passage that
    sanitizes to something, the scraper returns a record whatever the
    question body is, even a missing one: the question of the record is the
    passage, the header and the sanitized body. *)
Theorem passage_makes_a_record {L : Libraries} sel page fallbackCounter nid sn :
  Read.container sel page <> [] ->
  Read.options sel page <> [] ->
  Read.sanitizedComprehension sel page <> EmptyString ->
  exists r,
    scrapeSingleQuestionPage sel page fallbackCounter nid sn = Some r /\
    scrapeSingleQuestionPage_fast sel page fallbackCounter nid sn = Some r /\
    Question r = Read.sanitizedComprehension sel page ++ questionHeader
                 ++ Read.sanitizedQuestionBody sel page.
Proof.
  intros Hc Ho Hp.
  rewrite scrapeSingleQuestionPage_fast_eq, scrapeSingleQuestionPage_unfold. cbv zeta.
  destruct (Read.container sel page) as [|c cs] eqn:Ec; [now elim Hc|].
  destruct (Read.options sel page) as [|o os] eqn:Eo; [now elim Ho|].
  destruct (Read.sanitizedComprehension sel page) as [|a p] eqn:Ep; [now elim Hp|].
  cbn. eexists. repeat split.
Qed.

Lemma passage_makes_a_record_witness :
  exists r,
    @scrapeSingleQuestionPage Reference.libraries Examples.selectors
       Examples.page_with_passage_only (Int 1) (Int 1000) (Int 1) = Some r /\
    Question r = "Read this." ++ questionHeader.
Proof.
  assert (Hc : @Read.container Reference.libraries Examples.selectors
                 Examples.page_with_passage_only <> []) by (vm_compute; discriminate).
  assert (Ho : @Read.options Reference.libraries Examples.selectors
                 Examples.page_with_passage_only <> []) by (vm_compute; discriminate).
  assert (Hp : @Read.sanitizedComprehension Reference.libraries Examples.selectors
                 Examples.page_with_passage_only <> EmptyString)
    by (vm_compute; discriminate).
  destruct (@passage_makes_a_record Reference.libraries Examples.selectors
              Examples.page_with_passage_only (Int 1) (Int 1000) (Int 1) Hc Ho Hp)
    as (r & Hr & _ & Hq).
  exists r. split; [exact Hr|]. rewrite Hq. vm_compute. reflexivity.
Defined.

(** X7. The fallback counter reaches the record through its tag only: two
    calls that differ in the fallback counter both return null or return
    records that agree in every field but [Tags]; and when the text of the
    number element holds a digit they return the same. *)
Theorem fallback_counter_only_tags {L : Libraries} sel page fc1 fc2 nid sn :
  option_map untagged (scrapeSingleQuestionPage sel page fc1 nid sn)
  = option_map untagged (scrapeSingleQuestionPage sel page fc2 nid sn) /\
  option_map untagged (scrapeSingleQuestionPage_fast sel page fc1 nid sn)
  = option_map untagged (scrapeSingleQuestionPage_fast sel page fc2 nid sn) /\
  (match_digits (Read.slText sel page) <> None ->
   scrapeSingleQuestionPage sel page fc1 nid sn
   = scrapeSingleQuestionPage sel page fc2 nid sn).
Proof.
  rewrite !scrapeSingleQuestionPage_fast_eq, !scrapeSingleQuestionPage_unfold. cbv zeta.
  destruct (length (Read.container sel page) =? 0)%nat; [repeat split|].
  destruct (negb _ || _); [repeat split|].
  refine (conj eq_refl (conj eq_refl _)).
  intros Hm. unfold Read.questionNumberForTagging.
  destruct (match_digits _); [reflexivity | now elim Hm].
Qed.

Lemma fallback_counter_only_tags_witness :
  @scrapeSingleQuestionPage Reference.libraries Examples.selectors
     Examples.page_with_four_options (Int 1) (Int 1000) (Int 1)
  = @scrapeSingleQuestionPage Reference.libraries Examples.selectors
     Examples.page_with_four_options (Int 99) (Int 1000) (Int 1).
Proof.
  apply (@fallback_counter_only_tags Reference.libraries Examples.selectors
           Examples.page_with_four_options (Int 1) (Int 99) (Int 1000) (Int 1)).
  vm_compute. discriminate.
Defined.

(** ** The passes of the sanitizer on the string *)

Section StringPasses.
Import Sanitizer.
Variable p : ascii -> bool.

Lemma free_of_app a b : free_of p (a ++ b) = free_of p a && free_of p b.
Proof.
  induction a as [|c a IH]; [reflexivity|].
  cbn. rewrite IH. now rewrite andb_assoc.
Qed.

Lemma free_of_drop n : forall t, free_of p t = true -> free_of p (drop n t) = true.
Proof.
  induction n as [|n IH]; intros [|c t] H; cbn; auto.
  cbn in H. apply andb_true_iff in H. now apply IH.
Qed.

Lemma free_of_trimStart t : free_of p t = true -> free_of p (trimStart t) = true.
Proof.
  induction t as [|c t IH]; [reflexivity|]. intros H. cbn [trimStart].
  destruct (is_space c); [|exact H].
  cbn in H. apply andb_true_iff in H. now apply IH.
Qed.

Lemma free_of_trimEnd t : free_of p t = true -> free_of p (trimEnd t) = true.
Proof.
  induction t as [|c t IH]; [reflexivity|]. intros H.
  cbn in H. apply andb_true_iff in H. destruct H as [Hc Ht].
  cbn [trimEnd]. specialize (IH Ht).
  destruct (trimEnd t) as [|d u].
  - destruct (is_space c); [reflexivity|]. cbn. now rewrite Hc.
  - cbn [free_of] in IH |- *. now rewrite Hc, IH.
Qed.

Lemma free_of_trim t : free_of p t = true -> free_of p (trim t) = true.
Proof. intros H. now apply free_of_trimEnd, free_of_trimStart. Qed.

Lemma free_of_collapse_breaks t :
  free_of p "<br><br>" = true ->
  forall skip, free_of p t = true -> free_of p (collapse_breaks skip t) = true.
Proof.
  intros Hb. induction t as [|c t IH]; intros skip H; [reflexivity|].
  cbn in H. apply andb_true_iff in H. destruct H as [Hc Ht].
  cbn [collapse_breaks]. destruct skip as [|k]; [|now apply IH].
  destruct (br_run false (String c t)) as [units len].
  destruct (3 <=? units)%nat.
  - rewrite free_of_app, Hb. now apply IH.
  - cbn [free_of]. rewrite Hc. now apply IH.
Qed.

Lemma free_of_strip_leading_breaks t :
  free_of p t = true -> free_of p (strip_leading_breaks t) = true.
Proof.
  intros H. unfold strip_leading_breaks.
  destruct (br_run true t) as [[|units] len]; [exact H | now apply free_of_drop].
Qed.

Lemma free_of_strip_trailing_breaks t :
  free_of p t = true -> free_of p (strip_trailing_breaks t) = true.
Proof.
  induction t as [|c t IH]; intros H; [reflexivity|].
  cbn in H. apply andb_true_iff in H. destruct H as [Hc Ht].
  cbn [strip_trailing_breaks].
  destruct (br_run false (String c t)) as [units len].
  destruct (_ && _); [reflexivity|]. cbn [free_of]. now rewrite Hc, IH.
Qed.

End StringPasses.

Lemma remove_soft_hyphens_free t :
  free_of (fun c => Ascii.eqb c Sanitizer.soft_hyphen) (Sanitizer.remove_soft_hyphens t) = true.
Proof.
  induction t as [|c t IH]; [reflexivity|]. cbn [Sanitizer.remove_soft_hyphens].
  destruct (Ascii.eqb c Sanitizer.soft_hyphen) eqn:E; [exact IH|].
  cbn [free_of]. now rewrite E, IH.
Qed.

(** X8. No soft hyphen reaches the minifier: after the passes on the
    string, the markup holds no U+00AD, wherever the soft hyphens were.  So
    the result of the sanitizer holds none either, unless the minifier puts
    one in: in particular when the minifier fails. *)
Theorem no_soft_hyphen_survives {L : Libraries} h r :
  let soft c := Ascii.eqb c Sanitizer.soft_hyphen in
  let processedHtml :=
    Sanitizer.string_passes
      (html Sanitizer.fragment (Sanitizer.dom_passes (load Sanitizer.fragment h))) in
  free_of soft processedHtml = true /\
  (Sanitizer.transformAndSanitizeHtml (Some h) = Normal r ->
   (forall m, minify processedHtml = Normal m -> free_of soft m = true) ->
   free_of soft r = true).
Proof.
  cbv zeta.
  match goal with
  | |- free_of ?f ?t = true /\ _ => assert (H : free_of f t = true)
  end.
  { unfold Sanitizer.string_passes.
    apply free_of_strip_trailing_breaks, free_of_strip_leading_breaks,
      free_of_collapse_breaks; [reflexivity|].
    apply remove_soft_hyphens_free. }
  split; [exact H|].
  unfold Sanitizer.transformAndSanitizeHtml, Sanitizer.minifyHtml, Sanitizer.try_catch.
  destruct (negb (truthy h)); [intros E _; injection E as <-; reflexivity|].
  destruct (negb (truthy _)).
  - cbn. intros E _. injection E as <-. now apply free_of_trim.
  - destruct (minify _) as [m|e]; cbn; intros E Hm; injection E as <-;
      apply free_of_trim; [now apply Hm | exact H].
Qed.

Lemma no_soft_hyphen_survives_witness :
  @Sanitizer.transformAndSanitizeHtml Examples.failing_minifier
     (Some ("co" ++ String Sanitizer.soft_hyphen "op<br>"))
  = Normal "coop" /\
  free_of (fun c => Ascii.eqb c Sanitizer.soft_hyphen) "coop" = true.
Proof.
  assert (E : @Sanitizer.transformAndSanitizeHtml Examples.failing_minifier
                (Some ("co" ++ String Sanitizer.soft_hyphen "op<br>")) = Normal "coop")
    by (vm_compute; reflexivity).
  split; [exact E|].
  apply (proj2 (@no_soft_hyphen_survives Examples.failing_minifier _ _) E).
  intros m Hm. discriminate Hm.
Defined.

(** ** How a session ends *)

Section Endings.
Context {L : Libraries}.
Variable sel : ParserSelectors.
Variable site : Session.Site.
Import Session.

Lemma bind_returns {A B : Type} (m : M A) (k : A -> M B) s b s' :
  bind m k s = (Returns b, s') ->
  exists a s1, m s = (Returns a, s1) /\ k a s1 = (Returns b, s').
Proof.
  unfold bind. destruct (m s) as [[a|e|c|] s1]; try discriminate. eauto.
Qed.

(** *** Properties of the connections *)

Section Handles.
Variable I : Sys -> Prop.
Hypothesis I_handles : of_handles I.

Lemma stable_emit e : keeps I (emit e).
Proof. intros s. apply I_handles. Qed.

Lemma stable_set_position n : keeps I (set_position n).
Proof. intros s. apply I_handles. Qed.

Lemma stable_set_locals d q n sl : keeps I (set_locals d q n sl).
Proof. intros s. apply I_handles. Qed.

Lemma stable_acquire r : keeps I (acquire r).
Proof.
  unfold acquire. apply keeps_bind; [|intros _; apply stable_emit].
  intros s. apply I_handles.
Qed.

Lemma stable_evaluate {A : Type} (read : QuizPage -> A) : keeps I (evaluate site read).
Proof.
  unfold evaluate. apply keeps_bind; [apply keeps_get|]. intros s.
  destruct (detached _); [apply keeps_throw | apply keeps_ret].
Qed.

Ltac stable_step :=
  first
    [ apply keeps_ret | apply keeps_throw | apply keeps_exit | apply keeps_diverge
    | apply keeps_get | apply stable_set_position | apply stable_set_locals
    | apply stable_evaluate | apply stable_emit | apply stable_acquire
    | apply keeps_bind; [|intros ?]
    | apply keeps_try_catch; [|intros ?]
    | apply keeps_while
    | match goal with
      | |- keeps _ (if ?b then _ else _) => destruct b
      | |- keeps _ (match ?x with _ => _ end) => destruct x
      end ].

Lemma stable_click b : keeps I (click site b).
Proof. unfold click, clicked. repeat stable_step. Qed.

Lemma stable_humanClick b : keeps I (humanClick site b).
Proof. unfold humanClick, clicked. repeat stable_step. Qed.

Lemma stable_navigate left : forall i, keeps I (navigate site left i).
Proof.
  induction left as [|left IH]; intros i; cbn [navigate]; [apply keeps_ret|].
  repeat stable_step; try apply IH.
Qed.

Lemma stable_waitForSelector a t : keeps I (waitForSelector site a t).
Proof. unfold waitForSelector. repeat stable_step. Qed.

Lemma stable_skipping fuel : forall i n, keeps I (skipping site fuel i n).
Proof.
  induction fuel as [|fuel IH]; intros i n; cbn [skipping]; [apply keeps_diverge|].
  repeat first [ apply stable_click | apply IH | stable_step ].
Qed.

Lemma stable_skipping_fast fuel : forall i n, keeps I (skipping_fast site fuel i n).
Proof.
  induction fuel as [|fuel IH]; intros i n; cbn [skipping_fast]; [apply keeps_diverge|].
  repeat first [ apply stable_humanClick | apply IH | stable_step ].
Qed.

Lemma stable_harvest fuel k limit t : keeps I (harvest sel site fuel k limit t).
Proof.
  unfold harvest, harvesting, iteration.
  repeat first [ apply stable_click | stable_step ].
Qed.

Lemma stable_harvest_fast fuel k limit t : keeps I (harvest_fast sel site fuel k limit t).
Proof.
  unfold harvest_fast, harvesting_fast, iteration_fast.
  repeat first [ apply stable_humanClick | stable_step ].
Qed.

Lemma stable_save name : keeps I (save name).
Proof. unfold save. repeat stable_step. Qed.

End Handles.

Lemma live_of_handles r : of_handles (live r).
Proof.
  unfold of_handles, live. repeat split; intros; auto.
  destruct r, r0; cbn in *; auto.
Qed.


(** *** Rules *)

Lemma returns_with_here {A B : Type} Q (m : M A) (k : A -> M B) :
  returns_with Q m -> (forall a, keeps Q (k a)) -> returns_with Q (bind m k).
Proof.
  intros Hm Hk s b s' E. apply bind_returns in E. destruct E as (a & s1 & E1 & E2).
  specialize (Hk a s1 (Hm _ _ _ E1)). now rewrite E2 in Hk.
Qed.

Lemma returns_with_later {A B : Type} Q (m : M A) (k : A -> M B) :
  (forall a, returns_with Q (k a)) -> returns_with Q (bind m k).
Proof.
  intros Hk s b s' E. apply bind_returns in E. destruct E as (a & s1 & E1 & E2).
  exact (Hk a _ _ _ E2).
Qed.

Lemma returns_acquire r : returns_with (live r) (acquire r).
Proof.
  intros s a s' E. unfold acquire, set_handle, emit, modify, bind in E.
  injection E as _ <-. destruct r; reflexivity.
Qed.

Lemma triple_bind {A B : Type} P R Q (m : M A) (k : A -> M B) :
  triple P m R -> (forall a, triple R (k a) Q) -> triple P (bind m k) Q.
Proof.
  intros Hm Hk s b s' HP E. apply bind_returns in E. destruct E as (a & s1 & E1 & E2).
  exact (Hk a _ _ _ (Hm _ _ _ HP E1) E2).
Qed.

Lemma triple_keeps {A : Type} I (m : M A) : keeps I m -> triple I m I.
Proof. intros Hm s a s' HI E. specialize (Hm s HI). now rewrite E in Hm. Qed.

Lemma exits_ret {A : Type} c (a : A) : exits_with c (ret a).
Proof. intros s c' E. discriminate E. Qed.

Lemma exits_throw {A : Type} c e : exits_with c (@throw A e).
Proof. intros s c' E. discriminate E. Qed.

Lemma exits_diverge {A : Type} c : exits_with c (@diverge A).
Proof. intros s c' E. discriminate E. Qed.

Lemma exits_exit {A : Type} c : exits_with c (@process_exit A c).
Proof. intros s c' E. now injection E as <-. Qed.

Lemma exits_get c : exits_with c get.
Proof. intros s c' E. discriminate E. Qed.

Lemma exits_modify c f : exits_with c (modify f).
Proof. intros s c' E. discriminate E. Qed.

Lemma exits_bind {A B : Type} c (m : M A) (k : A -> M B) :
  exits_with c m -> (forall a, exits_with c (k a)) -> exits_with c (bind m k).
Proof.
  intros Hm Hk s c' E. unfold bind in E. specialize (Hm s).
  destruct (m s) as [[a|e|c0|] s1]; cbn in *; try discriminate E.
  - exact (Hk a s1 c' E).
  - injection E as <-. now apply Hm.
Qed.

Lemma exits_try_catch {A : Type} c (body : M A) handler :
  exits_with c body -> (forall e, exits_with c (handler e)) ->
  exits_with c (try_catch body handler).
Proof.
  intros Hb Hh s c' E. unfold try_catch in E. specialize (Hb s).
  destruct (body s) as [[a|e|c0|] s1]; cbn in *; try discriminate E.
  - exact (Hh e s1 c' E).
  - injection E as <-. now apply Hb.
Qed.

Lemma exits_while c fuel (body : M bool) :
  exits_with c body -> exits_with c (while_true fuel body).
Proof.
  intros Hb. induction fuel as [|fuel IH]; [apply exits_diverge|].
  cbn [while_true]. apply exits_bind; [exact Hb|].
  intros [|]; [exact IH | apply exits_ret].
Qed.

Lemma exits_evaluate {A : Type} c (read : QuizPage -> A) :
  exits_with c (evaluate site read).
Proof.
  unfold evaluate. apply exits_bind; [apply exits_get|]. intros s. cbv zeta.
  destruct (detached _); [apply exits_throw | apply exits_ret].
Qed.

Ltac exits_step :=
  first
    [ apply exits_evaluate | apply exits_ret | apply exits_throw | apply exits_exit | apply exits_diverge
    | apply exits_get | apply exits_modify
    | apply exits_bind; [|intros ?]
    | apply exits_try_catch; [|intros ?]
    | apply exits_while
    | match goal with
      | |- exits_with _ (if ?b then _ else _) => destruct b
      | |- exits_with _ (match ?x with _ => _ end) => destruct x
      end ].

Ltac exits_all :=
  unfold acquire, click, humanClick, clicked, emit, set_handle, set_position,
    set_locals, waitForSelector, harvest, harvest_fast, harvesting, harvesting_fast,
    iteration, iteration_fast, save;
  repeat exits_step.

Lemma exits_navigate c left : forall i, exits_with c (navigate site left i).
Proof.
  induction left as [|left IH]; intros i; cbn [navigate]; [apply exits_ret|].
  exits_all; apply IH.
Qed.

Lemma exits_skipping c fuel : forall i n, exits_with c (skipping site fuel i n).
Proof.
  induction fuel as [|fuel IH]; intros i n; cbn [skipping]; [apply exits_diverge|].
  exits_all; apply IH.
Qed.

Lemma exits_skipping_fast c fuel : forall i n, exits_with c (skipping_fast site fuel i n).
Proof.
  induction fuel as [|fuel IH]; intros i n; cbn [skipping_fast]; [apply exits_diverge|].
  exits_all; apply IH.
Qed.

Lemma fails_bind {A B : Type} I (m : M A) (k : A -> M B) :
  keeps I m -> (forall a, fails_with I (k a)) -> fails_with I (bind m k).
Proof.
  intros Hm Hk s HI. unfold bind. specialize (Hm s HI).
  destruct (m s) as [[a|e|c0|] s1]; cbn [fst snd] in *; auto.
  exact (Hk a s1 Hm).
Qed.

Lemma fails_save I name : fails_with I (save name).
Proof.
  intros s _. unfold save, get, bind, ret, emit, modify.
  destruct (0 <? _)%nat; exact Logic.I.
Qed.


Lemma triple_save name : triple (only observed) (save name) data_handled.
Proof.
  intros s a s' H E. unfold save, get, bind, ret, emit, modify in E.
  unfold data_handled.
  destruct (allQuestionsData s) as [|d data] eqn:Ed; cbn in E; injection E as _ <-.
  - rewrite Ed. exact H.
  - cbn [allQuestionsData events]. rewrite Ed. exists (events s), name. split; [reflexivity|].
    exact H.
Qed.

Lemma free_of_remove_chars p t : free_of p (remove_chars p t) = true.
Proof.
  induction t as [|c t IH]; [reflexivity|]. cbn [remove_chars].
  destruct (p c) eqn:E; [exact IH|]. cbn [free_of]. now rewrite E, IH.
Qed.

Lemma keeps_save_named name :
  free_of illegal_in_file_name name = true ->
  keeps (only written_in_output) (save name).
Proof.
  intros Hn. unfold save. apply keeps_bind; [apply keeps_get|]. intros s.
  destruct (0 <? _)%nat; [|apply keeps_ret].
  apply keeps_emit. cbn. now exists name.
Qed.

Lemma observed_written e : observed e -> written_in_output e.
Proof. destruct e; cbn; auto; contradiction. Qed.

(** A step of [main] before the file is written keeps [only P]. *)
Ltac observes P_observed :=
  repeat first
    [ apply keeps_navigate; exact P_observed
    | apply keeps_waitForSelector
    | apply keeps_click; exact P_observed
    | apply keeps_humanClick; exact P_observed
    | apply keeps_skipping; exact P_observed
    | apply keeps_skipping_fast; exact P_observed
    | apply keeps_harvest; exact P_observed
    | apply keeps_harvest_fast; exact P_observed
    | apply keeps_evaluate
    | apply keeps_emit; apply P_observed; exact Logic.I
    | apply keeps_ret | apply keeps_throw | apply keeps_exit | apply keeps_get
    | apply keeps_modify; intros ? H; exact H
    | apply keeps_bind; [|intros ?]
    | apply keeps_try_catch; [|intros ?]
    | match goal with
      | |- keeps _ (if ?b then _ else _) => destruct b
      | |- keeps _ (match ?x with _ => _ end) => destruct x
      end ].

(** A step of [main] keeps a property of the connections. *)
Ltac stable H :=
  repeat first
    [ apply (stable_navigate _ H) | apply stable_waitForSelector
    | apply (stable_click _ H) | apply (stable_humanClick _ H)
    | apply (stable_skipping _ H) | apply (stable_skipping_fast _ H)
    | apply (stable_harvest _ H) | apply (stable_harvest_fast _ H)
    | apply (stable_save _ H) | apply (stable_acquire _ H)
    | apply keeps_ret | apply keeps_throw | apply keeps_exit
    | apply keeps_bind; [|intros ?]
    | apply keeps_try_catch; [|intros ?]
    | match goal with
      | |- keeps _ (if ?b then _ else _) => destruct b
      | |- keeps _ (match ?x with _ => _ end) => destruct x
      end ].

Ltac opens r :=
  repeat first
    [ apply returns_with_here;
      [ solve [ apply returns_acquire
              | match goal with
                | |- returns_with _ (if ?b then _ else _) => destruct b
                end;
                [ apply returns_acquire | intros ? ? ? E; discriminate E ] ]
      | intros ?; stable (live_of_handles r) ]
    | apply returns_with_later; intros ? ].

Lemma all_live_intro {A : Type} (m : M A) :
  returns_with (live Tab) m -> returns_with (live Browser) m ->
  returns_with (live LogSink) m -> returns_with all_live m.
Proof.
  intros H1 H2 H3 s a s' E.
  exact (conj (H1 _ _ _ E) (conj (H2 _ _ _ E) (H3 _ _ _ E))).
Qed.

(** [main] is a block guarded by [catch] and [finally]; what the block does. *)
Lemma main_anatomy fuel o :
  is_set (link o) = true ->
  exists body,
    (forall s, main sel site fuel o s
               = guarded body s) /\
    keeps (only opens_or_observes) body /\
    returns_with all_live body /\
    exits_with 1 body /\
    fails_with (only observed) body /\
    triple (only observed) body data_handled /\
    keeps (only written_in_output) body.
Proof.
  intros Hl. unfold main. rewrite Hl. cbn [negb].
  eexists. split; [intros s; reflexivity|]. cbv zeta. unfold acquire.
  refine (conj _ (conj _ (conj _ (conj _ (conj _ _))))).
  - pose proof observed_opens as Ho. observes Ho.
    all: apply keeps_emit; exact Logic.I.
  - fold (acquire Browser). fold (acquire Tab). fold (acquire LogSink).
    apply all_live_intro; [opens Tab | opens Browser | opens LogSink].
  - fold (acquire Browser). fold (acquire Tab). fold (acquire LogSink).
    exits_all; first [ apply exits_navigate | apply exits_skipping ].
  - assert (Ho : forall e, observed e -> observed e) by auto.
    repeat match goal with
           | |- fails_with _ (bind _ _) => apply fails_bind; [observes Ho | intros ?]
           end.
    apply fails_save.
  - assert (Ho : forall e, observed e -> observed e) by auto.
    repeat match goal with
           | |- triple _ (bind _ _) _ =>
               apply (triple_bind _ (only observed));
               [apply triple_keeps; observes Ho | intros ?]
           end.
    apply triple_save.
  - pose proof observed_written as Ho.
    repeat match goal with
           | |- keeps _ (bind _ _) => apply keeps_bind; [observes Ho | intros ?]
           end.
    apply keeps_save_named.
    destruct (truthy _); [apply free_of_remove_chars | reflexivity].
Qed.


Lemma main_fast_anatomy fuel o :
  is_set (link o) = true ->
  exists body,
    (forall s, main_fast sel site fuel o s
               = guarded body s) /\
    keeps (only opens_or_observes) body /\
    returns_with all_live body /\
    exits_with 1 body /\
    fails_with (only observed) body /\
    triple (only observed) body data_handled /\
    keeps (only written_in_output) body.
Proof.
  intros Hl. unfold main_fast. rewrite Hl. cbn [negb].
  eexists. split; [intros s; reflexivity|]. cbv zeta. unfold acquire.
  refine (conj _ (conj _ (conj _ (conj _ (conj _ _))))).
  - pose proof observed_opens as Ho. observes Ho.
    all: apply keeps_emit; exact Logic.I.
  - fold (acquire Browser). fold (acquire Tab). fold (acquire LogSink).
    apply all_live_intro; [opens Tab | opens Browser | opens LogSink].
  - fold (acquire Browser). fold (acquire Tab). fold (acquire LogSink).
    exits_all; first [ apply exits_navigate | apply exits_skipping_fast ].
  - assert (Ho : forall e, observed e -> observed e) by auto.
    repeat match goal with
           | |- fails_with _ (bind _ _) => apply fails_bind; [observes Ho | intros ?]
           end.
    apply fails_save.
  - assert (Ho : forall e, observed e -> observed e) by auto.
    repeat match goal with
           | |- triple _ (bind _ _) _ =>
               apply (triple_bind _ (only observed));
               [apply triple_keeps; observes Ho | intros ?]
           end.
    apply triple_save.
  - pose proof observed_written as Ho.
    repeat match goal with
           | |- keeps _ (bind _ _) => apply keeps_bind; [observes Ho | intros ?]
           end.
    apply keeps_save_named, free_of_remove_chars.
Qed.

(** *** The block guarded by [catch] and [finally] *)

Section Guarded.
Variable body : M unit.

Lemma guarded_returns s s' :
  guarded body s = (Returns tt, s') ->
  exists s1, body s = (Returns tt, s1) /\ cleanup s1 = (Returns tt, s').
Proof.
  unfold guarded, try_finally, try_catch, process_exit.
  destruct (body s) as [[[]|e|c|] s1]; cbn; try discriminate.
  unfold bind. pose proof (cleanup_returns s1) as C.
  destruct (cleanup s1) as [[[]|?|?|] s2] eqn:Ec; cbn in C; try discriminate C.
  cbn. intros E. injection E as <-. now exists s1.
Qed.

Lemma guarded_outcome s :
  exits_with 1 body ->
  fst (guarded body s) = Returns tt \/ fst (guarded body s) = Exits 1 \/ fst (guarded body s) = Diverges.
Proof.
  intros Hx. unfold guarded, try_finally, try_catch, process_exit. specialize (Hx s).
  destruct (body s) as [[[]|e|c|] s1]; cbn in *; auto.
  - unfold bind. pose proof (cleanup_returns s1) as C.
    destruct (cleanup s1) as [[[]|?|?|] s2]; cbn in C; try discriminate C. now left.
  - right; left. now rewrite (Hx c eq_refl).
Qed.

Lemma guarded_failure s :
  fails_with (only observed) body -> only observed s ->
  fst (guarded body s) <> Returns tt -> only observed (snd (guarded body s)).
Proof.
  intros Hf Hs. unfold guarded, try_finally, try_catch, process_exit.
  specialize (Hf s Hs).
  destruct (body s) as [[[]|e|c|] s1]; cbn in *; auto.
  unfold bind. pose proof (cleanup_returns s1) as C.
  destruct (cleanup s1) as [[[]|?|?|] s2]; cbn in C; try discriminate C.
  cbn. intros E. now elim E.
Qed.

Lemma keeps_guarded I :
  keeps I body -> keeps I cleanup -> keeps I (guarded body).
Proof.
  intros Hb Hc s Hs. unfold guarded, try_finally, try_catch, process_exit.
  specialize (Hb s Hs).
  destruct (body s) as [[[]|e|c|] s1]; cbn in *; auto.
  apply (keeps_bind _ _ _ Hc (fun _ => keeps_ret _ tt) s1 Hb).
Qed.

End Guarded.

Lemma cleanup_live s :
  all_live s ->
  cleanup s = (Returns tt,
               {| position := position s;
                  browserClient := Some Released;
                  tabClient := Some Released;
                  logger := Some Released;
                  allQuestionsData := allQuestionsData s;
                  questionCounter := questionCounter s;
                  noteIdCounter := noteIdCounter s;
                  serialNumberCounter := serialNumberCounter s;
                  events := (events s ++ [Closed Tab; Closed Browser; Closed LogSink])%list |}).
Proof.
  destruct s as [pos bc tc lg d q n sl ev]. unfold all_live. cbn.
  intros (-> & -> & ->).
  unfold cleanup, close_if_defined, set_handle, emit, modify, get, bind, ret, handle_of.
  cbn. now rewrite <- !app_assoc.
Qed.

End Endings.

(** X9. [main] lets no exception out, in either variant: a session returns
    normally, or ends the process with the exit code 1, or, in this model,
    runs out of the turns allowed to its loops.  Without [--link] it exits
    with the code 1 before it touches anything. *)
Theorem main_returns_or_exits_with_1 {L : Libraries} sel site fuel o s0 :
  let ends (out : Session.outcome unit) :=
    out = Session.Returns tt \/ out = Session.Exits 1 \/ out = Session.Diverges in
  ends (fst (Session.main sel site fuel o s0)) /\
  ends (fst (Session.main_fast sel site fuel o s0)) /\
  (Session.is_set (Session.link o) = false ->
   Session.main sel site fuel o s0 = (Session.Exits 1, s0) /\
   Session.main_fast sel site fuel o s0 = (Session.Exits 1, s0)).
Proof.
  cbv zeta. destruct (Session.is_set (Session.link o)) eqn:Hl.
  - destruct (main_anatomy sel site fuel o Hl) as (b & E & _ & _ & Hx & _).
    destruct (main_fast_anatomy sel site fuel o Hl) as (b' & E' & _ & _ & Hx' & _).
    rewrite E, E'.
    refine (conj (guarded_outcome _ _ Hx) (conj (guarded_outcome _ _ Hx') _)).
    discriminate.
  - unfold Session.main, Session.main_fast. rewrite Hl. cbn. auto 6.
Qed.

(** X10. A session that returns normally has closed what it opened: the
    tab, the browser and the log stream are released, and the last three
    events are their closing, in this order; nothing was closed before. *)
Theorem normal_end_closes_connections {L : Libraries} sel site fuel o s0 s' :
  Session.main sel site fuel o s0 = (Session.Returns tt, s') \/
  Session.main_fast sel site fuel o s0 = (Session.Returns tt, s') ->
  Session.tabClient s' = Some Session.Released /\
  Session.browserClient s' = Some Session.Released /\
  Session.logger s' = Some Session.Released /\
  exists before,
    Session.events s'
    = (before ++ [Session.Closed Session.Tab; Session.Closed Session.Browser;
                  Session.Closed Session.LogSink])%list /\
    (none_closed s0 -> forall r, ~ In (Session.Closed r) before).
Proof.
  intros H.
  assert (G : exists body,
             guarded body s0 = (Session.Returns tt, s') /\
             keeps (only opens_or_observes) body /\ returns_with all_live body).
  { destruct (Session.is_set (Session.link o)) eqn:Hl.
    - destruct (main_anatomy sel site fuel o Hl) as (b & E & Hk & Hr & _).
      destruct (main_fast_anatomy sel site fuel o Hl) as (b' & E' & Hk' & Hr' & _).
      rewrite E, E' in H. destruct H as [H|H]; eauto.
    - unfold Session.main, Session.main_fast in H. rewrite Hl in H.
      destruct H as [H|H]; discriminate H. }
  destruct G as (body & E & Hk & Hr).
  apply guarded_returns in E. destruct E as (s1 & E1 & E2).
  rewrite (cleanup_live s1 (Hr _ _ _ E1)) in E2. injection E2 as <-.
  cbn. repeat split. exists (Session.events s1). split; [reflexivity|].
  intros H0 r. apply none_closed_only in H0. specialize (Hk s0 H0).
  rewrite E1 in Hk. intros Hin. exact (Hk _ Hin).
Qed.

Lemma normal_end_closes_connections_witness :
  exists s',
    @Session.main Reference.libraries Examples.selectors Examples.site 10
       (Examples.command_line None "0") Session.start = (Session.Returns tt, s') /\
    Session.tabClient s' = Some Session.Released /\
    Session.browserClient s' = Some Session.Released /\
    Session.logger s' = Some Session.Released.
Proof.
  destruct (@Session.main Reference.libraries Examples.selectors Examples.site 10
              (Examples.command_line None "0") Session.start) as [out s'] eqn:E.
  assert (Ho : out = Session.Returns tt).
  { change out with (fst (out, s')). rewrite <- E. vm_compute. reflexivity. }
  subst out. exists s'. split; [reflexivity|].
  destruct (@normal_end_closes_connections Reference.libraries Examples.selectors
              Examples.site 10 (Examples.command_line None "0") Session.start s'
              (or_introl E)) as (H1 & H2 & H3 & _).
  auto.
Defined.

Lemma only_observed_no_file s :
  only observed s -> forall f d, ~ In (Session.Saved f d) (Session.events s).
Proof. intros H f d Hin. exact (H _ Hin). Qed.

(** X11. The records are written once, at the very end.  A session that
    does not return normally, whatever it had collected, has written no data
    file.  A session that returns normally with no record has written none
    either; with records, its last events are the writing of one file that
    holds exactly the records collected, and then the closing of the three
    connections. *)
Theorem data_file_is_written_at_normal_end {L : Libraries} sel site fuel o s0 run :
  Session.events s0 = [] ->
  run = Session.main sel site fuel o s0 \/ run = Session.main_fast sel site fuel o s0 ->
  (fst run <> Session.Returns tt ->
   forall f d, ~ In (Session.Saved f d) (Session.events (snd run))) /\
  (fst run = Session.Returns tt ->
   match Session.allQuestionsData (snd run) with
   | [] => forall f d, ~ In (Session.Saved f d) (Session.events (snd run))
   | data =>
       exists before name,
         Session.events (snd run)
         = (before ++ [Session.Saved ("output/scraped/" ++ name ++ ".json") data;
                       Session.Closed Session.Tab; Session.Closed Session.Browser;
                       Session.Closed Session.LogSink])%list /\
         forall f d, ~ In (Session.Saved f d) before
   end).
Proof.
  intros H0 Hrun.
  assert (Hs : only observed s0) by (intros e He; rewrite H0 in He; elim He).
  destruct (Session.is_set (Session.link o)) eqn:Hl.
  - assert (G : exists body,
               run = guarded body s0 /\ returns_with all_live body /\
               fails_with (only observed) body /\
               triple (only observed) body data_handled).
    { destruct (main_anatomy sel site fuel o Hl) as (b & E & _ & Hr & _ & Hf & Ht & _).
      destruct (main_fast_anatomy sel site fuel o Hl)
        as (b' & E' & _ & Hr' & _ & Hf' & Ht' & _).
      rewrite E, E' in Hrun. destruct Hrun as [H|H]; eauto 6. }
    destruct G as (body & -> & Hr & Hf & Ht). split.
    + intros Hn. apply only_observed_no_file. now apply guarded_failure.
    + intros Hn. destruct (guarded body s0) as [out s'] eqn:E. cbn in Hn. subst out.
      apply guarded_returns in E. destruct E as (s1 & E1 & E2).
      rewrite (cleanup_live s1 (Hr _ _ _ E1)) in E2. injection E2 as <-.
      specialize (Ht _ _ _ Hs E1). unfold data_handled in Ht.
      cbn [snd Session.allQuestionsData Session.events].
      destruct (Session.allQuestionsData s1) as [|d data].
      * intros f d Hin. apply in_app_or in Hin. destruct Hin as [Hin|Hin].
        -- exact (Ht _ Hin).
        -- cbn in Hin. intuition discriminate.
      * destruct Ht as (before & name & Ee & Hb). exists before, name. split.
        -- rewrite Ee, <- app_assoc. reflexivity.
        -- intros f d' Hin. exact (Hb _ Hin).
  - assert (E : run = (Session.Exits 1, s0)).
    { unfold Session.main, Session.main_fast in Hrun. rewrite Hl in Hrun.
      destruct Hrun as [H|H]; exact H. }
    subst run. cbn. split; [|discriminate].
    intros _ f d. rewrite H0. intros [].
Qed.

Lemma data_file_is_written_at_normal_end_witness :
  Session.events Session.start = [] /\
  forall f d,
    ~ In (Session.Saved f d)
         (Session.events
            (snd (@Session.main_fast Reference.libraries Examples.selectors
                    Examples.site_without_title 10 (Examples.command_line None "0")
                    Session.start))).
Proof.
  split; [reflexivity|].
  pose proof (@data_file_is_written_at_normal_end Reference.libraries Examples.selectors
                Examples.site_without_title 10 (Examples.command_line None "0")
                Session.start _ eq_refl (or_intror eq_refl)) as [H _].
  apply H. intros E. vm_compute in E. discriminate E.
Defined.

(** *** Where the data file goes *)

Lemma free_of_weaken (p q : ascii -> bool) t :
  (forall c, q c = true -> p c = true) -> free_of p t = true -> free_of q t = true.
Proof.
  intros Hpq. induction t as [|c t IH]; [reflexivity|]. cbn. intros H.
  apply andb_true_iff in H. destruct H as [Hc Ht]. rewrite (IH Ht), andb_true_r.
  destruct (q c) eqn:E; [|reflexivity]. now rewrite (Hpq c E) in Hc.
Qed.

Lemma segments_not_nil t : Links.segments t <> [].
Proof.
  destruct t as [|c t]; cbn; [discriminate|].
  destruct (Ascii.eqb c "/"); [discriminate|].
  destruct (Links.segments t); discriminate.
Qed.

Lemma segments_plain t :
  free_of (fun c => Ascii.eqb c "/") t = true -> Links.segments t = [t].
Proof.
  induction t as [|c t IH]; [reflexivity|]. cbn. intros H.
  apply andb_true_iff in H. destruct H as [Hc Ht]. apply negb_true_iff in Hc.
  rewrite Hc, (IH Ht). reflexivity.
Qed.

Lemma segments_slash a b :
  free_of (fun c => Ascii.eqb c "/") a = true ->
  Links.segments (a ++ String "/" b) = a :: Links.segments b.
Proof.
  induction a as [|c a IH]; [reflexivity|]. cbn. intros H.
  apply andb_true_iff in H. destruct H as [Hc Ha]. apply negb_true_iff in Hc.
  rewrite Hc, (IH Ha). reflexivity.
Qed.

Lemma illegal_slash c : Ascii.eqb c "/" = true -> Session.illegal_in_file_name c = true.
Proof. intros E. apply Ascii.eqb_eq in E. now subst c. Qed.

Lemma written_in_output_segments e :
  written_in_output e ->
  match e with
  | Session.Saved file _ =>
      exists name, Links.segments file = ["output"; "scraped"; name ++ ".json"]
                   /\ free_of Session.illegal_in_file_name name = true
  | _ => True
  end.
Proof.
  destruct e; try (intros _; exact I).
  intros (name & -> & Hn). exists name. split; [|exact Hn].
  change (Links.segments
            ("output" ++ String "/" ("scraped" ++ String "/" (name ++ ".json")))
          = ["output"; "scraped"; name ++ ".json"]).
  rewrite !segments_slash by reflexivity.
  rewrite segments_plain; [reflexivity|].
  rewrite free_of_app. apply andb_true_iff. split; [|reflexivity].
  exact (free_of_weaken _ _ _ illegal_slash Hn).
Qed.

(** X12. The data file is written directly into [output/scraped], whatever
    the title of the exam is: the name of the file is the title with
    colon-space replaced and the angle brackets, colons, double quotes,
    slashes, backslashes, bars, question marks and stars removed, so it has
    no path separator, followed by [.json].  Both variants. *)
Theorem data_file_lies_in_output_directory {L : Libraries} sel site fuel o s0 file data :
  Session.events s0 = [] ->
  In (Session.Saved file data) (Session.events (snd (Session.main sel site fuel o s0))) \/
  In (Session.Saved file data)
     (Session.events (snd (Session.main_fast sel site fuel o s0))) ->
  exists name,
    Links.segments file = ["output"; "scraped"; name ++ ".json"] /\
    free_of Session.illegal_in_file_name name = true.
Proof.
  intros H0 Hin.
  assert (Hs : only written_in_output s0) by (intros e He; rewrite H0 in He; elim He).
  assert (Hc : keeps (only written_in_output) Session.cleanup)
    by (apply keeps_cleanup; intros r; exact I).
  assert (K : only written_in_output (snd (Session.main sel site fuel o s0)) /\
              only written_in_output (snd (Session.main_fast sel site fuel o s0))).
  { destruct (Session.is_set (Session.link o)) eqn:Hl.
    - destruct (main_anatomy sel site fuel o Hl) as (b & E & _ & _ & _ & _ & _ & Hk).
      destruct (main_fast_anatomy sel site fuel o Hl)
        as (b' & E' & _ & _ & _ & _ & _ & Hk').
      rewrite E, E'. split; now apply keeps_guarded.
    - unfold Session.main, Session.main_fast. rewrite Hl. split; exact Hs. }
  destruct K as [K1 K2].
  assert (W : written_in_output (Session.Saved file data))
    by (destruct Hin as [Hin|Hin]; [exact (K1 _ Hin) | exact (K2 _ Hin)]).
  exact (written_in_output_segments _ W).
Qed.

Lemma data_file_lies_in_output_directory_witness :
  exists data,
    In (Session.Saved "output/scraped/SSC CGL - Mock 1.json" data)
       (Session.events
          (snd (@Session.main Reference.libraries Examples.selectors Examples.site 10
                  (Examples.command_line None "0") Session.start))) /\
    exists name,
      Links.segments "output/scraped/SSC CGL - Mock 1.json"
      = ["output"; "scraped"; name ++ ".json"].
Proof.
  assert (H : exists data,
             In (Session.Saved "output/scraped/SSC CGL - Mock 1.json" data)
                (Session.events
                   (snd (@Session.main Reference.libraries Examples.selectors
                           Examples.site 10 (Examples.command_line None "0")
                           Session.start)))).
  { eexists. vm_compute. repeat first [ left; reflexivity | right ]. }
  destruct H as [data H]. exists data. split; [exact H|].
  destruct (@data_file_lies_in_output_directory Reference.libraries Examples.selectors
              Examples.site 10 (Examples.command_line None "0") Session.start
              _ _ eq_refl (or_introl H)) as (name & Hn & _).
  exists name. exact Hn.
Defined.

(** ** The scraping loop *)

Section Turns.
Context {L : Libraries}.
Variable sel : ParserSelectors.
Variable site : Session.Site.
Import Session.

Arguments scrapeSingleQuestionPage : simpl never.
Arguments scrapeSingleQuestionPage_fast : simpl never.
Arguments num_ge : simpl never.
Arguments num_add : simpl never.
Arguments tagged : simpl never.

Ltac run_turn :=
  unfold iteration, iteration_fast, click, humanClick, clicked, evaluate, emit,
    set_locals, set_position, modify, get, bind, ret, throw, present;
  cbn.

Ltac known :=
  repeat match goal with
         | H : ?b = true |- context [?b] => rewrite H
         | H : ?b = false |- context [?b] => rewrite H
         end.

Ltac simp := repeat (cbn; known).

Ltac crunch finish :=
  simp;
  first
    [ match goal with
      | |- context [if ?b then _ else _] => destruct b eqn:?; crunch finish
      end
    | finish ].

Ltac finish_turn :=
  refine (conj _ (conj _ _));
  [ first [ left; reflexivity
          | right; eexists; split; reflexivity ]
  | first [ left; reflexivity | right; reflexivity ]
  | first [ discriminate | intros _; reflexivity ] ].

Lemma iteration_turn scrapeLimit commonTag s :
  turn sel site commonTag s (iteration sel site scrapeLimit commonTag s).
Proof.
  destruct s as [pos bc tc lg data0 qc nc sc ev]. unfold turn.
  cbn [position allQuestionsData questionCounter noteIdCounter serialNumberCounter].
  run_turn.
  destruct (detached (quiz site pos)) eqn:D0; simp; [finish_turn|].
  destruct (hasViewSolution (quiz site pos)) eqn:V; simp;
    (destruct (scrapeSingleQuestionPage sel _ qc nc sc) as [r|] eqn:Er; simp;
     crunch finish_turn).
Qed.

Lemma iteration_fast_turn scrapeLimit commonTag s :
  turn sel site commonTag s (iteration_fast sel site scrapeLimit commonTag s).
Proof.
  destruct s as [pos bc tc lg data0 qc nc sc ev]. unfold turn.
  cbn [position allQuestionsData questionCounter noteIdCounter serialNumberCounter].
  run_turn.
  destruct (detached (quiz site pos)) eqn:D0; simp; [finish_turn|].
  destruct (hasViewSolution (quiz site pos)) eqn:V; simp; [|finish_turn].
  rewrite scrapeSingleQuestionPage_fast_eq.
  destruct (scrapeSingleQuestionPage sel _ qc nc sc) as [r|] eqn:Er; simp;
    crunch finish_turn.
Qed.

End Turns.

Section Loops.
Context {L : Libraries}.
Variable sel : ParserSelectors.
Variable site : Session.Site.
Import Session.
Variable body : M bool.
Variable commonTag : option string.
Hypothesis body_turn : forall s, turn sel site commonTag s (body s).

(** Every record collected is the tagged record of some page. *)
Lemma while_true_records (Q : QuestionRecord -> Prop) :
  (forall page q n sl d,
     scrapeSingleQuestionPage sel page q n sl = Some d -> Q (tagged commonTag d)) ->
  forall fuel s,
    Forall Q (allQuestionsData s) ->
    Forall Q (allQuestionsData (snd (while_true fuel body s))).
Proof.
  intros HQ. induction fuel as [|fuel IH]; intros s Hs; [exact Hs|].
  rewrite while_true_unfold.
  destruct (body_turn s) as (Hd & _).
  assert (H1 : Forall Q (allQuestionsData (snd (body s)))).
  { destruct Hd as [-> | (d & Ed & ->)]; [exact Hs|].
    apply Forall_app. split; [exact Hs|]. constructor; [|constructor].
    exact (HQ _ _ _ _ _ Ed). }
  destruct (body s) as [[[|]| | |] s']; cbn [snd] in *; auto.
Qed.

Lemma ascending_snoc zs : forall lo x,
  ascending lo zs -> Forall (fun z => z < x) zs -> lo <= x -> ascending lo (zs ++ [x]).
Proof.
  induction zs as [|z zs IH]; intros lo x Ha Hf Hx; cbn; [auto|].
  destruct Ha as [Hz Ha]. inversion Hf as [|? ? Hzx Hf']; subst.
  split; [exact Hz|]. apply IH; [exact Ha | exact Hf' | lia].
Qed.

(** The note ids of the records go up, from the first value of the counter. *)
Lemma while_true_noteIds lo fuel : forall s,
  (exists n zs,
     noteIdCounter s = Int n /\ lo <= n /\
     map noteId (allQuestionsData s) = map Int zs /\
     ascending lo zs /\ Forall (fun z => z < n) zs) ->
  exists zs,
    map noteId (allQuestionsData (snd (while_true fuel body s))) = map Int zs /\
    ascending lo zs.
Proof.
  induction fuel as [|fuel IH]; intros s (n & zs & Hn & Hlo & Hm & Ha & Hf);
    [exists zs; now split|].
  rewrite while_true_unfold.
  destruct (body_turn s) as (Hd & Hc & Hc').
  assert (H1 : exists zs',
             map noteId (allQuestionsData (snd (body s))) = map Int zs' /\
             ascending lo zs' /\ Forall (fun z => z < n + 1) zs').
  { destruct Hd as [-> | (d & Ed & ->)].
    - exists zs. repeat split; auto. eapply Forall_impl; [|exact Hf]. cbn. lia.
    - exists (zs ++ [n])%list.
      apply scrapeSingleQuestionPage_some in Ed. cbv zeta in Ed.
      destruct Ed as (_ & _ & _ & Hid & _).
      rewrite !map_app, Hm. cbn [map]. rewrite tagged_noteId, Hid, Hn.
      split; [reflexivity|]. split; [now apply ascending_snoc|].
      apply Forall_app. split.
      + eapply Forall_impl; [|exact Hf]. cbn. lia.
      + constructor; [lia | constructor]. }
  destruct H1 as (zs' & Hm' & Ha' & Hf').
  destruct (body s) as [[[|]| | |] s']; cbn [snd fst] in *;
    try (exists zs'; now split).
  apply IH. exists (n + 1), zs'. rewrite (Hc' eq_refl), Hn.
  repeat split; auto. lia.
Qed.

(** A counter of note ids that is no number stays so. *)
Lemma while_true_noteIds_NaN fuel : forall s,
  noteIdCounter s = NaN -> Forall (fun r => noteId r = NaN) (allQuestionsData s) ->
  Forall (fun r => noteId r = NaN) (allQuestionsData (snd (while_true fuel body s))).
Proof.
  induction fuel as [|fuel IH]; intros s Hn Hs; [exact Hs|].
  rewrite while_true_unfold.
  destruct (body_turn s) as (Hd & Hc & _).
  assert (H1 : Forall (fun r => noteId r = NaN) (allQuestionsData (snd (body s)))).
  { destruct Hd as [-> | (d & Ed & ->)]; [exact Hs|].
    apply Forall_app. split; [exact Hs|]. constructor; [|constructor].
    apply scrapeSingleQuestionPage_some in Ed. cbv zeta in Ed.
    destruct Ed as (_ & _ & _ & Hid & _). now rewrite tagged_noteId, Hid. }
  assert (H2 : noteIdCounter (snd (body s)) = NaN).
  { destruct Hc as [-> | ->]; rewrite Hn; reflexivity. }
  destruct (body s) as [[[|]| | |] s']; cbn [snd] in *; auto.
Qed.

End Loops.


Lemma tagged_Tags commonTag d :
  Tags (Session.tagged commonTag d)
  = (Tags d ++ match commonTag with
               | Some t => if truthy t then [t] else []
               | None => []
               end)%list.
Proof.
  unfold Session.tagged. destruct commonTag as [t|]; [destruct (truthy t)|];
    cbn; now rewrite ?app_nil_r.
Qed.



(** ** Sessions that do the same *)

Section Same.
Context {L : Libraries}.
Variable sel : ParserSelectors.
Variable site : Session.Site.
Import Session.

Lemma bind_same {A B : Type} (m m' : M A) (k k' : A -> M B) s :
  m s = m' s -> (forall a s1, k a s1 = k' a s1) -> bind m k s = bind m' k' s.
Proof.
  intros Hm Hk. unfold bind. rewrite Hm.
  destruct (m' s) as [[a|e|c|] s1]; auto.
Qed.

Lemma try_catch_same {A : Type} (b b' : M A) h h' s :
  b s = b' s -> (forall e s1, h e s1 = h' e s1) -> try_catch b h s = try_catch b' h' s.
Proof.
  intros Hb Hh. unfold try_catch. rewrite Hb.
  destruct (b' s) as [[a|e|c|] s1]; auto.
Qed.

Lemma try_finally_same {A : Type} (b b' : M A) f s :
  b s = b' s -> try_finally b f s = try_finally b' f s.
Proof. intros Hb. unfold try_finally. now rewrite Hb. Qed.

Lemma while_true_same (body body' : M bool) :
  (forall s, body s = body' s) ->
  forall fuel s, while_true fuel body s = while_true fuel body' s.
Proof.
  intros Hb. induction fuel as [|fuel IH]; intros s; [reflexivity|].
  cbn [while_true]. apply bind_same; [apply Hb|].
  intros [|] s1; [apply IH | reflexivity].
Qed.

(** A limit that is no number is never reached. *)
Lemma harvest_without_limit fuel k t s :
  harvest sel site fuel k NaN t s = harvest sel site fuel k Infinity t s /\
  harvest_fast sel site fuel k NaN t s = harvest_fast sel site fuel k Infinity t s.
Proof.
  unfold harvest, harvest_fast, harvesting, harvesting_fast.
  split; (apply bind_same; [reflexivity|]; intros _ s1; apply while_true_same;
          intros s2; reflexivity).
Qed.

End Same.

(** X15. A count that is no number is no limit.  With [--count abc] the
    limit is NaN, which no number of records reaches: the session does
    exactly what it does without [--count], in both variants. *)
Theorem count_that_is_no_number_is_no_limit {L : Libraries} sel site fuel o o' s0 :
  Session.scrape_limit o = NaN ->
  Session.count o' = None ->
  Session.link o' = Session.link o ->
  Session.tag o' = Session.tag o ->
  Session.skip o' = Session.skip o ->
  Session.main sel site fuel o s0 = Session.main sel site fuel o' s0 /\
  Session.main_fast sel site fuel o s0 = Session.main_fast sel site fuel o' s0.
Proof.
  intros Hn Hc Hl Ht Hs.
  assert (Hi : Session.scrape_limit o' = Infinity)
    by (unfold Session.scrape_limit; now rewrite Hc).
  unfold Session.main, Session.main_fast. rewrite Hn, Hi, Hl, Ht, Hs.
  split; reflexivity.
Qed.


Lemma count_that_is_no_number_is_no_limit_witness :
  @Session.main Reference.libraries Examples.selectors Examples.site 10
     (Examples.command_line (Some "abc") "0") Session.start
  = @Session.main Reference.libraries Examples.selectors Examples.site 10
     (Examples.command_line None "0") Session.start.
Proof.
  exact (proj1 (@count_that_is_no_number_is_no_limit Reference.libraries Examples.selectors
                  Examples.site 10 (Examples.command_line (Some "abc") "0")
                  (Examples.command_line None "0") Session.start
                  eq_refl eq_refl eq_refl eq_refl eq_refl)).
Defined.

Section Variants.
Context {L : Libraries}.
Variable sel : ParserSelectors.
Variable site : Session.Site.
Import Session.
Hypothesis view : forall n, hasViewSolution (quiz site n) = true.

Arguments scrapeSingleQuestionPage : simpl never.
Arguments scrapeSingleQuestionPage_fast : simpl never.
Arguments num_ge : simpl never.
Arguments num_add : simpl never.
Arguments tagged : simpl never.

Ltac run_both :=
  unfold iteration, iteration_fast, click, humanClick, clicked, evaluate, emit,
    set_locals, set_position, modify, get, bind, ret, throw, present;
  cbn.

Ltac known :=
  repeat match goal with
         | H : ?b = true |- context [?b] => rewrite H
         | H : ?b = false |- context [?b] => rewrite H
         end.

Ltac simp := repeat (cbn; known).

Ltac crunch finish :=
  simp;
  first
    [ match goal with
      | |- context [if ?b then _ else _] => destruct b eqn:?; crunch finish
      end
    | finish ].

Lemma iteration_fast_same scrapeLimit commonTag s :
  iteration_fast sel site scrapeLimit commonTag s = iteration sel site scrapeLimit commonTag s.
Proof.
  destruct s as [pos bc tc lg data0 qc nc sc ev].
  run_both.
  destruct (detached (quiz site pos)) eqn:D0; simp; [reflexivity|].
  rewrite !view. simp.
  rewrite scrapeSingleQuestionPage_fast_eq.
  destruct (scrapeSingleQuestionPage sel _ qc nc sc) as [r|]; simp;
    crunch ltac:(first [ reflexivity | cbn in *; discriminate ]).
Qed.

Lemma skipping_fast_same fuel : forall i n s,
  skipping_fast site fuel i n s = skipping site fuel i n s.
Proof.
  induction fuel as [|fuel IH]; intros i n s; [reflexivity|].
  cbn [skipping_fast skipping].
  destruct (num_lt (Int i) n); [|reflexivity].
  destruct s as [pos bc tc lg data0 qc nc sc ev].
  unfold click, humanClick, clicked, evaluate, emit, set_position, modify, get, bind, ret,
    throw, present.
  cbn.
  destruct (detached (quiz site pos)) eqn:D0; simp; [reflexivity|].
  destruct (hasNext (quiz site pos)) eqn:N; simp; [|reflexivity].
  apply IH.
Qed.

Lemma harvest_fast_same fuel k limit t s :
  harvest_fast sel site fuel k limit t s = harvest sel site fuel k limit t s.
Proof.
  unfold harvest_fast, harvest, harvesting_fast, harvesting.
  apply bind_same; [reflexivity|]. intros _ s1.
  apply while_true_same. intros s2. apply iteration_fast_same.
Qed.

Lemma humanClick_Solutions_same s : humanClick site Solutions s = click site Solutions s.
Proof. reflexivity. Qed.

Lemma waitForSelector_ends a t s :
  waitForSelector site a t s = (Returns tt, s) \/
  exists m, waitForSelector site a t s = (Throws (TimeoutError m), s).
Proof.
  unfold waitForSelector. destruct (poll _ _ _ _); [now left | right; now eexists].
Qed.

(** The two waits throw a timeout or nothing, so the two handlers agree. *)
Lemma waits_same s :
  try_catch (bind (waitForSelector site ExamName 10000)
                  (fun _ => waitForSelector site SolutionsButton 10000))
            (fun err => process_exit 1) s
  = try_catch (bind (waitForSelector site ExamName 10000)
                    (fun _ => waitForSelector site SolutionsButton 10000))
              (fun err => match err with
                          | TimeoutError _ => process_exit 1
                          | _ => throw err
                          end) s.
Proof.
  unfold try_catch, bind.
  destruct (waitForSelector_ends ExamName 10000 s) as [-> | [m ->]]; [|reflexivity].
  destruct (waitForSelector_ends SolutionsButton 10000 s) as [-> | [m ->]]; reflexivity.
Qed.

Lemma bind_ret {A B : Type} (a : A) (k : A -> M B) s : bind (ret a) k s = k a s.
Proof. reflexivity. Qed.

Lemma main_fast_same fuel o s0 :
  truthy (trim (Cheerio.text
                  (Cheerio.select (load document (analysisPage site)) (examName sel))))
  = true ->
  main_fast sel site fuel o s0 = main sel site fuel o s0.
Proof.
  intros Ht. unfold main_fast, main. rewrite Ht. cbn [negb].
  destruct (negb (is_set (link o))); [reflexivity|].
  apply try_finally_same. apply try_catch_same; [|reflexivity].
  apply bind_same; [reflexivity|]. intros _ s1.
  apply bind_same; [reflexivity|]. intros _ s2.
  apply bind_same; [reflexivity|]. intros _ s3.
  apply bind_same; [apply waits_same|]. intros _ s4.
  cbv beta. rewrite bind_ret.
  apply bind_same; [reflexivity|]. intros _ s5.
  apply bind_same; [apply humanClick_Solutions_same|]. intros _ s6.
  apply bind_same.
  - destruct (num_gt _ _); [apply skipping_fast_same | reflexivity].
  - intros _ s7. apply bind_same; [apply harvest_fast_same | reflexivity].
Qed.

End Variants.



(** ** The validator of the task list *)

Section Validator.
Import Links.
Variable root : path.
Variable exists_ : path -> bool.

Lemma validate_entry_again entry :
  validate_entry root exists_ (fst (validate_entry root exists_ entry))
  = (fst (validate_entry root exists_ entry), false).
Proof.
  unfold validate_entry.
  destruct ((Status entry =? "COMPLETED")%string && truthy (File entry)) eqn:E;
    [|cbn [fst]; now rewrite E].
  destruct (negb (fileExists root exists_ (File entry))) eqn:F; cbn [fst].
  - reflexivity.
  - now rewrite E, F.
Qed.

Lemma validate_entry_changes entry :
  snd (validate_entry root exists_ entry) = true <->
  fst (validate_entry root exists_ entry) <> entry.
Proof.
  unfold validate_entry.
  destruct ((Status entry =? "COMPLETED")%string && truthy (File entry)) eqn:E.
  - destruct (negb (fileExists root exists_ (File entry))); cbn.
    + split; [|reflexivity]. intros _ H.
      apply andb_true_iff in E. destruct E as [E _]. apply String.eqb_eq in E.
      apply (f_equal Status) in H. cbn in H. rewrite E in H. discriminate H.
    + split; [discriminate | intros H; now elim H].
  - cbn. split; [discriminate | intros H; now elim H].
Qed.

End Validator.

(** X17. The validator settles in one run: run again on its own result,
    with the same files on the disk, it changes no entry and does not write
    links.json. *)
Theorem validateLinks_settles root exists_ links :
  Links.validateLinks root exists_ (fst (Links.validateLinks root exists_ links))
  = (fst (Links.validateLinks root exists_ links), false).
Proof.
  unfold Links.validateLinks. cbn [fst]. rewrite !map_map.
  induction links as [|entry links IH]; [reflexivity|].
  cbn [map existsb]. injection IH as IH1 IH2.
  rewrite validate_entry_again. cbn [fst snd]. rewrite IH1, IH2. reflexivity.
Qed.

(** X18. The validator touches only what it must.  It keeps the number and
    the order of the entries and their SL, Subject and Link; an entry is
    changed only if it was COMPLETED with a file name and the file is in
    neither directory, and then it becomes PENDING with an empty file name;
    afterwards every COMPLETED entry with a file name has its file; and
    links.json is written exactly when some entry was changed. *)
Theorem validateLinks_only_demotes root exists_ links :
  let result := fst (Links.validateLinks root exists_ links) in
  Forall2 (fun entry entry' =>
             Links.SL entry' = Links.SL entry /\
             Links.Subject entry' = Links.Subject entry /\
             Links.Link entry' = Links.Link entry /\
             (entry' = entry \/
              Links.Status entry = "COMPLETED" /\ Links.File entry <> EmptyString /\
              Links.fileExists root exists_ (Links.File entry) = false /\
              Links.Status entry' = "PENDING" /\ Links.File entry' = EmptyString))
          links result /\
  (forall entry', In entry' result ->
     Links.Status entry' = "COMPLETED" -> Links.File entry' <> EmptyString ->
     Links.fileExists root exists_ (Links.File entry') = true) /\
  (snd (Links.validateLinks root exists_ links) = true <-> result <> links).
Proof.
  cbv zeta. unfold Links.validateLinks. cbn [fst snd]. rewrite map_map.
  refine (conj _ (conj _ _)).
  - induction links as [|entry links IH]; constructor; [|exact IH].
    unfold Links.validate_entry.
    destruct ((Links.Status entry =? "COMPLETED")%string && truthy (Links.File entry)) eqn:E;
      [|cbn; auto].
    destruct (negb (Links.fileExists root exists_ (Links.File entry))) eqn:F; [|cbn; auto].
    cbn. repeat split. right.
    apply andb_true_iff in E. destruct E as [E1 E2].
    apply String.eqb_eq in E1. apply negb_true_iff in F.
    repeat split; auto. intros H. rewrite H in E2. discriminate E2.
  - intros entry' Hin Hs Hf. apply in_map_iff in Hin. destruct Hin as (entry & <- & _).
    unfold Links.validate_entry in *.
    destruct ((Links.Status entry =? "COMPLETED")%string && truthy (Links.File entry)) eqn:E.
    + destruct (negb (Links.fileExists root exists_ (Links.File entry))) eqn:F;
        cbn in *; [discriminate Hs|].
      now apply negb_false_iff in F.
    + cbn in *. rewrite Hs in E. cbn in E.
      destruct (Links.File entry); [now elim Hf | discriminate E].
  - induction links as [|entry links IH]; [cbn; split; [discriminate | intros H; now elim H]|].
    cbn [map existsb]. rewrite orb_true_iff, IH, validate_entry_changes. split.
    + intros [H|H] E; injection E as E1 E2; auto.
    + intros H.
      destruct (snd (Links.validate_entry root exists_ entry)) eqn:S1.
      * left. now apply validate_entry_changes.
      * right. intros E. apply H. f_equal; [|exact E].
        unfold Links.validate_entry in *.
        destruct (_ && _); [|reflexivity].
        destruct (negb _); [discriminate S1 | reflexivity].
Qed.

(** ** The batch driver *)

Section SortFacts.
Import Batch.

Lemma insert_In a l x : In x (insert a l) <-> a = x \/ In x l.
Proof.
  induction l as [|b l IH]; cbn; [tauto|].
  destruct (snd a <? snd b); cbn; rewrite ?IH; tauto.
Qed.

Lemma sort_In l x : In x (sort l) <-> In x l.
Proof.
  induction l as [|a l IH]; cbn; [tauto|].
  rewrite insert_In, IH. tauto.
Qed.

Lemma insert_head a l b rest :
  (forall x, In x l -> snd x <= snd (hd a l)) ->
  insert a l = b :: rest ->
  forall x, In x (a :: l) -> snd x <= snd b.
Proof.
  intros Hl E x Hx. destruct l as [|c l]; cbn in E.
  - injection E as <- <-. destruct Hx as [<-|[]]. lia.
  - cbn [hd] in Hl. destruct (snd a <? snd c) eqn:C; injection E as <- <-.
    + apply Z.ltb_lt in C. destruct Hx as [<-|Hx]; [lia | now apply Hl].
    + apply Z.ltb_ge in C. destruct Hx as [<-|Hx]; [lia|].
      specialize (Hl x Hx). lia.
Qed.

Lemma sort_head l : forall b rest,
  sort l = b :: rest -> forall x, In x l -> snd x <= snd b.
Proof.
  induction l as [|a l IH]; intros b rest E x Hx; [destruct Hx|].
  cbn in E. apply (insert_head a (sort l) b rest); [|exact E|].
  - intros y Hy. destruct (sort l) as [|c l'] eqn:S; [destruct Hy|].
    cbn [hd]. apply (IH c l' eq_refl). now apply sort_In; rewrite S.
  - destruct Hx as [<-|Hx]; [now left | right; now apply sort_In].
Qed.

Lemma sort_nil l : sort l = [] -> l = [].
Proof.
  destruct l as [|a l]; [reflexivity|]. intros E.
  assert (H : In a (sort (a :: l))) by (apply sort_In; now left).
  rewrite E in H. destruct H.
Qed.

Lemma stat_all_some time files l :
  stat_all time files = Some l ->
  map fst l = files /\ forall file t, In (file, t) l -> time file = Some t.
Proof.
  revert l. induction files as [|f files IH]; intros l E; cbn in E.
  - injection E as <-. split; [reflexivity | intros ? ? []].
  - destruct (time f) as [t|] eqn:T; [|discriminate E].
    destruct (stat_all time files) as [l'|]; [|discriminate E].
    injection E as <-. destruct (IH l' eq_refl) as [IH1 IH2]. split.
    + cbn. now rewrite IH1.
    + intros file t' [H|H]; [injection H as <- <-; exact T | now apply IH2].
Qed.

Lemma stat_all_none time files :
  stat_all time files = None <-> exists file, In file files /\ time file = None.
Proof.
  induction files as [|f files IH]; cbn.
  - split; [discriminate | intros (? & [] & _)].
  - destruct (time f) as [t|] eqn:T.
    + destruct (stat_all time files) as [l|]; cbn.
      * split; [discriminate|]. intros (file & [<-|H] & E); [congruence|].
        destruct IH as [_ IH]. discriminate IH. now exists file.
      * split; [|reflexivity]. intros _. destruct IH as [IH _].
        destruct (IH eq_refl) as (file & H & E). exists file. auto.
    + split; [|reflexivity]. intros _. exists f. auto.
Qed.

End SortFacts.

(** X19. The file [findLatestOutputFile] names is a [.json] file of the
    output directory, and no [.json] file there was changed later; it names
    none exactly when the directory holds no [.json] file or the time of one
    of them cannot be read. *)
Theorem findLatestOutputFile_is_newest dir :
  (forall name, Batch.findLatestOutputFile (Some dir) = Some name ->
     In name (BatchFacts.json_files dir) /\
     exists t, Batch.mtime dir name = Some t /\
       forall other, In other (BatchFacts.json_files dir) ->
         exists t', Batch.mtime dir other = Some t' /\ t' <= t) /\
  (Batch.findLatestOutputFile (Some dir) = None <->
     BatchFacts.json_files dir = [] \/
     exists file, In file (BatchFacts.json_files dir) /\ Batch.mtime dir file = None).
Proof.
  unfold Batch.findLatestOutputFile, BatchFacts.json_files.
  set (jsons := filter _ (Batch.names dir)). split.
  - intros name E.
    destruct (Batch.stat_all (Batch.mtime dir) jsons) as [files|] eqn:S; [|discriminate E].
    destruct (stat_all_some _ _ _ S) as [Hn Ht].
    destruct (Batch.sort files) as [|[file t] rest] eqn:So; [discriminate E|].
    injection E as <-. cbn [fst].
    assert (Hin : In (file, t) files) by (apply sort_In; rewrite So; now left).
    split; [rewrite <- Hn; now apply (in_map fst) in Hin|].
    exists t. split; [now apply Ht|].
    intros other Ho. rewrite <- Hn in Ho. apply in_map_iff in Ho.
    destruct Ho as ([o t'] & <- & Ho). exists t'. split; [now apply Ht|].
    exact (sort_head files _ _ So _ Ho).
  - destruct (Batch.stat_all (Batch.mtime dir) jsons) as [files|] eqn:S.
    + destruct (stat_all_some _ _ _ S) as [Hn Ht].
      destruct (Batch.sort files) as [|latest rest] eqn:So.
      * apply sort_nil in So. subst files. cbn in Hn. split; [now left | reflexivity].
      * split; [discriminate|]. intros [E|(file & Hin & E)].
        -- rewrite E in Hn. destruct files; [|discriminate Hn]. discriminate So.
        -- assert (N : Batch.stat_all (Batch.mtime dir) jsons = None)
             by (apply stat_all_none; now exists file).
           congruence.
    + split; [|reflexivity]. intros _. right. now apply stat_all_none.
Qed.

Section DriverFacts.
Import Links Batch BatchFacts.
Variable root : path.
Variable scraper : Task -> option Directory -> Z * option Directory.

Lemma settled_same task : pending task = false -> settled task task.
Proof. unfold settled, pending. intros ->. auto. Qed.

Lemma settled_outcome success name task :
  pending task = true -> settled task (record_outcome root success name task).
Proof.
  unfold settled, pending, record_outcome. intros ->.
  destruct success; [|cbn; repeat split; auto].
  destruct name as [name|]; [destruct (truthy name)|]; cbn; repeat split; auto.
Qed.

Lemma tasks_settle : forall todo done w saved,
  exists todo',
    fst (fst (tasks root scraper done todo w saved)) = (done ++ todo')%list /\
    Forall2 settled todo todo' /\
    (exists more,
       snd (tasks root scraper done todo w saved) = (saved ++ more)%list /\
       length more = length (filter pending todo) /\
       (forall l, In l more -> length l = length (done ++ todo)%list) /\
       (more <> [] -> last more [] = (done ++ todo')%list)).
Proof.
  induction todo as [|task rest IH]; intros done w saved.
  - exists []. cbn [tasks fst snd]. split; [now rewrite app_nil_r|]. split; [constructor|].
    exists []. rewrite app_nil_r. repeat split; [intros ? [] | intros H; now elim H].
  - cbn [tasks]. fold (pending task). destruct (pending task) eqn:P.
    + destruct (runScraper scraper task w) as [success w1].
      set (task' := record_outcome root success _ task).
      destruct (IH (done ++ [task'])%list w1 (saved ++ [(done ++ task' :: rest)%list])%list)
        as (todo' & E & F & more & Es & Hl & Hlen & Hlast).
      exists (task' :: todo'). rewrite E, <- app_assoc. split; [reflexivity|].
      split; [constructor; [now apply settled_outcome | exact F]|].
      exists ((done ++ task' :: rest)%list :: more).
      rewrite Es, <- app_assoc. split; [reflexivity|].
      cbn [filter]. rewrite P. cbn [length]. split; [now rewrite Hl|]. split.
      * intros l [<-|H]; [now rewrite !length_app|].
        rewrite (Hlen l H), !length_app. cbn. lia.
      * intros _. destruct more as [|m more].
        -- cbn [last]. f_equal. f_equal.
           destruct (filter pending rest) eqn:Fr; [|discriminate Hl].
           clear - F Fr. induction F as [|t t' l l' H F IH]; [reflexivity|].
           cbn in Fr. destruct (pending t) eqn:Pt; [discriminate Fr|].
           unfold settled in H. fold (pending t) in H. rewrite Pt in H.
           destruct H as (_ & _ & _ & ->). now rewrite IH.
        -- change (last (m :: more) [] = (done ++ task' :: todo')%list).
           rewrite Hlast by discriminate. now rewrite <- app_assoc.
    + destruct (IH (done ++ [task])%list w saved)
        as (todo' & E & F & more & Es & Hl & Hlen & Hlast).
      exists (task :: todo'). rewrite E, <- app_assoc. split; [reflexivity|].
      split; [constructor; [now apply settled_same | exact F]|].
      exists more. split; [exact Es|]. cbn [filter]. rewrite P.
      split; [exact Hl|]. split.
      * intros l H. rewrite (Hlen l H), !length_app. cbn. lia.
      * intros H. rewrite (Hlast H). now rewrite <- app_assoc.
Qed.

Lemma tasks_without_script scraper' w : scraperScript w = false ->
  forall todo done saved,
    tasks root scraper done todo w saved = tasks root scraper' done todo w saved /\
    fst (fst (tasks root scraper done todo w saved))
    = (done ++ map (fun task => if pending task
                                then with_status task "FAILED" EmptyString else task)
                   todo)%list.
Proof.
  intros Hs. induction todo as [|task rest IH]; intros done saved.
  - cbn. now rewrite app_nil_r.
  - cbn [tasks map]. unfold runScraper. rewrite Hs. cbn [negb]. fold (pending task).
    destruct (pending task).
    + cbn [record_outcome].
      destruct (IH (done ++ [with_status task "FAILED" ""])%list
                   (saved ++ [(done ++ with_status task "FAILED" "" :: rest)%list])%list)
        as [E1 E2].
      rewrite E2, <- app_assoc. now split.
    + destruct (IH (done ++ [task])%list saved) as [E1 E2].
      rewrite E2, <- app_assoc. now split.
Qed.

End DriverFacts.

(** X20. A run of the batch driver on a task list.  It returns the tasks in
    their order with SL, Subject and Link as they were; a task that was not
    PENDING is returned as it was; a PENDING task comes back COMPLETED, or
    FAILED with an empty file name, so that no task is left PENDING.
    links.json is saved once for every task that was PENDING, each time
    with the whole list, and what is saved last is the list returned. *)
Theorem batch_settles_every_pending_task root scraper w allLinks :
  Batch.linksFile w = Some allLinks ->
  exists result w',
    Batch.main root scraper w
    = (Batch.Returned result, w', snd (Batch.main root scraper w)) /\
    Forall2 BatchFacts.settled allLinks result /\
    (forall task, In task result -> Links.Status task <> "PENDING") /\
    let saved := snd (Batch.main root scraper w) in
    length saved
    = length (filter (fun task => (Links.Status task =? "PENDING")%string) allLinks) /\
    (forall l, In l saved -> length l = length allLinks) /\
    (saved <> [] -> last saved [] = result).
Proof.
  intros Hl. unfold Batch.main.
  change (Batch.linksFile (Batch.setupDirectories w)) with (Batch.linksFile w). rewrite Hl.
  set (pending := fun task => (Links.Status task =? "PENDING")%string).
  assert (Hno : forall l l', Forall2 BatchFacts.settled l l' ->
            forall task, In task l' -> Links.Status task <> "PENDING").
  { intros l l' F. induction F as [|t t' l l' H F IH]; intros task Hin; [destruct Hin|].
    destruct Hin as [<-|Hin]; [|now apply IH].
    destruct H as (_ & _ & _ & H). destruct (Links.Status t =? "PENDING")%string eqn:P.
    - destruct H as [->|[-> _]]; discriminate.
    - subst t'. intros E. rewrite E in P. discriminate P. }
  destruct (length (filter pending allLinks) =? 0)%nat eqn:Z.
  - apply Nat.eqb_eq in Z. exists allLinks, (Batch.setupDirectories w). cbn [snd].
    assert (F : Forall2 BatchFacts.settled allLinks allLinks).
    { clear Hl. induction allLinks as [|t l IH]; constructor.
      - apply settled_same. cbn in Z. destruct (pending t) eqn:P; [discriminate Z | exact P].
      - apply IH. cbn in Z. destruct (pending t); [discriminate Z | exact Z]. }
    repeat split; auto; [now apply (Hno _ _ F) | intros ? [] | intros H; now elim H].
  - destruct (tasks_settle root scraper allLinks [] (Batch.setupDirectories w) [])
      as (result & E & F & more & Es & Hlen & Hall & Hlast).
    destruct (Batch.tasks root scraper [] allLinks (Batch.setupDirectories w) [])
      as [[out w'] saved]. cbn [fst snd] in *. subst out saved.
    exists result, w'. repeat split; auto. now apply (Hno _ _ F).
Qed.

Lemma batch_settles_every_pending_task_witness :
  Batch.linksFile Examples.machine = Some Examples.task_list /\
  exists result w',
    Batch.main Examples.project Examples.scraper_run Examples.machine
    = (Batch.Returned result, w',
       snd (Batch.main Examples.project Examples.scraper_run Examples.machine)) /\
    Forall2 BatchFacts.settled Examples.task_list result /\
    (forall task, In task result -> Links.Status task <> "PENDING") /\
    let saved := snd (Batch.main Examples.project Examples.scraper_run Examples.machine) in
    length saved
    = length (filter (fun task => (Links.Status task =? "PENDING")%string)
                     Examples.task_list) /\
    (forall l, In l saved -> length l = length Examples.task_list) /\
    (saved <> [] -> last saved [] = result).
Proof.
  split; [reflexivity|].
  exact (batch_settles_every_pending_task Examples.project Examples.scraper_run
           Examples.machine Examples.task_list eq_refl).
Defined.

(** X21. When scraper.js is not where the driver looks for it, no scraper
    is started: the run does not depend on what a scraper would do, and
    every task that was PENDING comes back FAILED with an empty file name,
    the others as they were. *)
Theorem missing_script_fails_every_pending_task root scraper scraper' w allLinks :
  Batch.scraperScript w = false ->
  Batch.linksFile w = Some allLinks ->
  Batch.main root scraper w = Batch.main root scraper' w /\
  fst (fst (Batch.main root scraper w))
  = Batch.Returned
      (map (fun task => if (Links.Status task =? "PENDING")%string
                        then Links.with_status task "FAILED" EmptyString else task)
           allLinks).
Proof.
  intros Hs Hl. unfold Batch.main.
  change (Batch.linksFile (Batch.setupDirectories w)) with (Batch.linksFile w). rewrite Hl.
  assert (Hs0 : Batch.scraperScript (Batch.setupDirectories w) = false) by exact Hs.
  destruct (tasks_without_script root scraper scraper' _ Hs0 allLinks [] []) as [E1 E2].
  rewrite <- E1.
  destruct (length _ =? 0)%nat eqn:Z.
  - split; [reflexivity|]. cbn [fst]. f_equal. apply Nat.eqb_eq in Z.
    clear - Z. induction allLinks as [|t l IH]; [reflexivity|].
    cbn in *. destruct (Links.Status t =? "PENDING")%string; [discriminate Z|].
    now rewrite <- IH.
  - split; [reflexivity|].
    destruct (Batch.tasks root scraper [] allLinks (Batch.setupDirectories w) [])
      as [[out w'] saved]. cbn [fst] in *. now rewrite E2.
Qed.

Lemma missing_script_fails_every_pending_task_witness :
  Batch.scraperScript Examples.machine_without_script = false /\
  Batch.linksFile Examples.machine_without_script = Some Examples.task_list /\
  Batch.main Examples.project Examples.scraper_run Examples.machine_without_script
  = Batch.main Examples.project (fun _ dir => (0, dir)) Examples.machine_without_script /\
  fst (fst (Batch.main Examples.project Examples.scraper_run
              Examples.machine_without_script))
  = Batch.Returned
      (map (fun task => if (Links.Status task =? "PENDING")%string
                        then Links.with_status task "FAILED" EmptyString else task)
           Examples.task_list).
Proof.
  split; [reflexivity|]. split; [reflexivity|].
  exact (missing_script_fails_every_pending_task Examples.project Examples.scraper_run
           (fun _ dir => (0, dir)) Examples.machine_without_script Examples.task_list
           eq_refl eq_refl).
Defined.

(** ** Navigation, waiting and skipping *)

Section Approach.
Import Session.
Variable site : Site.

Lemma poll_absent timeout : forall polls elapsed,
  poll polls elapsed timeout None = false.
Proof.
  induction polls as [|polls IH]; intros elapsed; cbn; [reflexivity|].
  destruct (elapsed <? timeout)%N; [apply IH | reflexivity].
Qed.

Lemma skipping_steps k : forall fuel i s,
  i <= k ->
  (Z.to_nat (k - i) < fuel)%nat ->
  let r := skipping site fuel i (Int k) s in
  fst r <> Diverges /\
  (fst r = Returns tt ->
   exists n : nat,
     position (snd r) = (position s + n)%nat /\
     Z.of_nat n <= k - i /\
     (Z.of_nat n < k - i -> hasNext (quiz site (position (snd r))) = false) /\
     length (filter (fun e => match e with Clicked Next => true | _ => false end)
                    (events (snd r)))
     = (length (filter (fun e => match e with Clicked Next => true | _ => false end)
                       (events s)) + n)%nat /\
     allQuestionsData (snd r) = allQuestionsData s).
Proof.
  induction fuel as [|fuel IH]; intros i s Hi Hf; [lia|].
  cbv zeta. cbn [skipping num_lt]. destruct (i <? k) eqn:Lt.
  - apply Z.ltb_lt in Lt.
    cbv beta iota zeta delta [bind evaluate get ret emit modify click clicked
      set_position present throw].
    destruct (detached (quiz site (position s))) eqn:D; cbv beta iota zeta;
      [cbn [fst]; split; [discriminate | intros H; discriminate H]|].
    destruct (hasNext (quiz site (position s))) eqn:N; cbn [negb position];
      rewrite ?D, ?N; cbv beta iota zeta.
    + match goal with |- context [skipping site fuel (i + 1) (Int k) ?s1] =>
        destruct (IH (i + 1) s1 ltac:(lia) ltac:(lia)) as [H1 H2];
        set (r := skipping site fuel (i + 1) (Int k) s1) in *
      end.
      split; [exact H1|]. intros E.
      destruct (H2 E) as (n & P & B & Hn & C & Q).
      cbn [position events allQuestionsData] in P, C, Q.
      exists (S n). refine (conj _ (conj _ (conj _ (conj _ Q)))).
      * rewrite P. lia.
      * lia.
      * intros H. apply Hn. lia.
      * rewrite C, !filter_app, !length_app. cbn. lia.
    + cbn [fst snd position events allQuestionsData].
      split; [discriminate|]. intros _. exists 0%nat.
      rewrite filter_app, length_app. cbn.
      refine (conj _ (conj _ (conj _ (conj _ eq_refl))));
        [lia | lia | intros _; exact N | lia].
  - apply Z.ltb_ge in Lt. cbn. split; [discriminate|]. intros _. exists 0%nat.
    refine (conj _ (conj _ (conj _ (conj _ eq_refl)))); [lia | lia | intros; lia | lia].
Qed.

End Approach.

(** X22. Navigation is tried at most three times and stops at the first
    attempt that succeeds.  It succeeds exactly when one of the attempts 1,
    2, 3 does; otherwise the error of the third attempt is thrown.  The
    attempts made are 1, ..., k in this order, all before k have failed, and
    k is 3 unless attempt k succeeded. *)
Theorem navigate_stops_at_first_success site s :
  let r := Session.navigate site Session.maxRetries 1 s in
  (fst r = Session.Returns tt <->
   Session.navigation site 1 || Session.navigation site 2 || Session.navigation site 3 = true) /\
  (fst r <> Session.Returns tt -> fst r = Session.Throws (Error "navigation failed")) /\
  exists k : nat,
    (1 <= k <= 3)%nat /\
    Session.events (snd r)
    = (Session.events s
       ++ map (fun i => Session.Navigated i (Session.navigation site i)) (seq 1 k))%list /\
    (forall i, (1 <= i < k)%nat -> Session.navigation site i = false) /\
    (k < 3 -> Session.navigation site k = true)%nat.
Proof.
  cbv zeta. unfold Session.maxRetries.
  cbn [Session.navigate Nat.ltb Nat.leb].
  unfold Session.try_catch, Session.bind, Session.emit, Session.modify, Session.throw,
    Session.ret.
  destruct (Session.navigation site 1) eqn:N1; cbn.
  - split; [tauto|]. split; [intros H; now elim H|].
    exists 1%nat. cbn. rewrite N1. repeat split; try lia.
  - destruct (Session.navigation site 2) eqn:N2; cbn.
    + split; [tauto|]. split; [intros H; now elim H|].
      exists 2%nat. cbn. rewrite N1, N2, <- app_assoc. repeat split; try lia.
      intros i Hi. destruct i as [|[|[|i]]]; try lia; assumption.
    + destruct (Session.navigation site 3) eqn:N3; cbn.
      * split; [tauto|]. split; [intros H; now elim H|].
        exists 3%nat. cbn. rewrite N1, N2, N3, <- !app_assoc. repeat split; try lia.
        intros i Hi. destruct i as [|[|[|i]]]; try lia; assumption.
      * split; [split; discriminate|]. split; [reflexivity|].
        exists 3%nat. cbn. rewrite N1, N2, N3, <- !app_assoc. repeat split; try lia.
        intros i Hi. destruct i as [|[|[|i]]]; try lia; assumption.
Qed.

(** X23. Waiting for an element leaves the session as it is.  It ends with
    a TimeoutError when the element never appears, however long the time
    allowed, and when no time is allowed, even for an element that is
    there; it returns when the element is there from the start and some
    time is allowed. *)
Theorem waitForSelector_edges site what timeout s :
  snd (Session.waitForSelector site what timeout s) = s /\
  (Session.appears site what = None ->
   exists message,
     fst (Session.waitForSelector site what timeout s)
     = Session.Throws (TimeoutError message)) /\
  (exists message,
     fst (Session.waitForSelector site what 0 s) = Session.Throws (TimeoutError message)) /\
  (Session.appears site what = Some 0%N -> (0 < timeout)%N ->
   fst (Session.waitForSelector site what timeout s) = Session.Returns tt).
Proof.
  unfold Session.waitForSelector. repeat split.
  - destruct (Session.poll _ _ _ _); reflexivity.
  - intros ->. rewrite poll_absent. eexists. reflexivity.
  - cbn. eexists. reflexivity.
  - intros -> Ht. cbn [Session.poll].
    destruct (0 <? timeout)%N eqn:E; [reflexivity|].
    apply N.ltb_ge in E. lia.
Qed.

(** X24. Skipping k questions in the first variant, with fuel for k turns
    of the loop: the loop ends, and when it ends normally the quiz has moved
    on by n questions with n at most k, by n clicks on Next; n is less than
    k only when the page reached has no Next button; and no record is
    collected on the way. *)
Theorem skipping_moves_at_most_the_skip_count site fuel k s :
  0 <= k ->
  (Z.to_nat k < fuel)%nat ->
  let r := Session.skipping site fuel 0 (Int k) s in
  fst r <> Session.Diverges /\
  (fst r = Session.Returns tt ->
   exists n : nat,
     Session.position (snd r) = (Session.position s + n)%nat /\
     Z.of_nat n <= k /\
     (Z.of_nat n < k ->
      Session.hasNext (Session.quiz site (Session.position (snd r))) = false) /\
     length (filter (fun e => match e with
                              | Session.Clicked Session.Next => true
                              | _ => false
                              end) (Session.events (snd r)))
     = (length (filter (fun e => match e with
                                 | Session.Clicked Session.Next => true
                                 | _ => false
                                 end) (Session.events s)) + n)%nat /\
     Session.allQuestionsData (snd r) = Session.allQuestionsData s).
Proof.
  intros Hk Hf. cbv zeta.
  destruct (skipping_steps site k fuel 0 s Hk ltac:(now rewrite Z.sub_0_r)) as [H1 H2].
  split; [exact H1|]. intros E. destruct (H2 E) as (n & H). exists n.
  now rewrite Z.sub_0_r in H.
Qed.

Lemma skipping_moves_at_most_the_skip_count_witness :
  let r := Session.skipping Examples.site 3 0 (Int 2) Session.start in
  fst r <> Session.Diverges /\
  (fst r = Session.Returns tt ->
   exists n : nat,
     Session.position (snd r) = (Session.position Session.start + n)%nat /\
     Z.of_nat n <= 2 /\
     (Z.of_nat n < 2 ->
      Session.hasNext (Session.quiz Examples.site (Session.position (snd r))) = false) /\
     length (filter (fun e => match e with
                              | Session.Clicked Session.Next => true
                              | _ => false
                              end) (Session.events (snd r)))
     = (length (filter (fun e => match e with
                                 | Session.Clicked Session.Next => true
                                 | _ => false
                                 end) (Session.events Session.start)) + n)%nat /\
     Session.allQuestionsData (snd r) = Session.allQuestionsData Session.start).
Proof.
  assert (Hk : 0 <= 2) by lia.
  assert (Hf : (Z.to_nat 2 < 3)%nat) by (vm_compute; lia).
  exact (skipping_moves_at_most_the_skip_count Examples.site 3 2 Session.start Hk Hf).
Defined.
